(** * Sql_Compiler: the in-memory catalog and the tree-walking interpreter

    A shallow embedding of [database.py] (classes [ColumnDef], [Table] and
    [Database], and the tree-to-text functions of [SQLGenerator]) and the
    properties of the interpreter that the design document states about
    it, followed by further properties read off the code.

    Conventions of the embedding
    - a Python [dict] keyed by strings is a [gmap string _];
    - a Python [list] is a [list]; rows are never aliased by the interpreter
      (every [add_row] receives a freshly built list), so a row is a value;
    - a Python exception is the [Raise] outcome; [return] is [Return];
    - [print] is the interpreter's only error report: the line printed just
      before a [return False] / [return True] is kept as the payload of the
      returned boolean; of the other lines only what can make the [print]
      itself fail is kept: a line that formats a runtime value raises
      [ValueError] when that value is an [int] of more than 4300 decimal
      digits (CPython's default limit on the conversion of an [int] to
      text), the lines that format types, names and counts cannot fail;
    - the depth of Python's call stack is not modelled: a syntax tree nested
      deeper than the interpreter's recursion limit allows ends every
      recursive function below in [RecursionError];
    - Python's [float] is IEEE binary64, taken from the Standard Library's
      [SpecFloat] with [prec = 53] and [emax = 1024];
    - Python's [str] is a [string] of ASCII characters. *)

From Stdlib Require Import ZArith String Ascii List Bool Lia DecimalString.
From Stdlib Require Import Floats.SpecFloat.
From stdpp Require Import base option list gmap strings.

#[local] Open Scope string_scope.
#[local] Open Scope list_scope.
#[local] Open Scope Z_scope.

(* ===================================================================== *)
(** ** Tokens and syntax trees (module [sql_compiler]) *)
(* ===================================================================== *)

(** Modelled from the spec: the enumeration [sql_compiler.TokenType], whose
    declaration is not part of the sources at hand.  The members are the
    kinds listed in the data model (keywords, operators, punctuation,
    literal kinds, identifiers, end of input), under the names
    [database.py] uses for them. *)
Inductive TokenType : Set :=
  | SELECT | FROM | WHERE | INSERT | INTO | VALUES | UPDATE | SET | DELETE
  | CREATE | TABLE | DROP | JOIN | ON | AND | OR | NOT | NULL
  | INT | TEXT | FLOAT | DATE
  | EQUALS | GREATER | LESS | GREATER_EQUALS | LESS_EQUALS | NOT_EQUALS
  | PLUS | MINUS | ASTERISK | DIVIDE
  | COMMA | SEMICOLON | LEFT_PAREN | RIGHT_PAREN | DOT
  | INTEGER | FLOAT_LITERAL | STRING | IDENTIFIER_TOKEN | EOF.

#[global] Instance TokenType_eq_dec : EqDecision TokenType.
Proof. solve_decision. Defined.

(** Python's binary64 floats. *)
Definition prec : Z := 53.
Definition emax : Z := 1024.
Abbreviation float := spec_float.

(** The runtime values a cell or an expression can hold: [None], an [int],
    a [float] or a [str].  A Python [bool] is never among them: a literal is
    an integer, a float, a string or NULL, and [_evaluate_expression] builds
    no boolean. *)
Inductive value : Type :=
  | VNone
  | VInt (z : Z)
  | VFloat (f : float)
  | VStr (s : string).

(** What [_evaluate_condition] can return: a Python [bool] or, when the
    condition degenerates to an expression, the value of that expression. *)
Inductive pyobj : Type :=
  | PBool (b : bool)
  | PVal (v : value).

(** Modelled from the spec: [sql_compiler.ASTNode] for expressions and
    conditions, a node type together with a [data] dictionary holding
    exactly the fields of its kind.  A field of a [Condition] may be absent
    (the operator is optional, [NOT] has no left operand), which is what the
    [option]s record; reading an absent key raises [KeyError].  A literal
    carries its [value] and the [value_type] the generator dispatches on.
    [OtherNode] stands for a node of any other type. *)
Inductive ASTNode : Type :=
  | IDENTIFIER (name : string)
  | LITERAL (val : value) (value_type : TokenType)
  | EXPRESSION (left : ASTNode) (operator : TokenType) (right : ASTNode)
  | CONDITION (left : option ASTNode) (operator : option TokenType)
              (right : option ASTNode)
  | OtherNode.

(** Modelled from the spec: the statement nodes, one constructor per
    statement tag with the fields [database.py] reads from [ast.data].  A
    table reference is kept as its [name]; an absent column list of INSERT
    is the empty list (both are falsy in Python); a SET clause is the pair
    of its [left] and [right] nodes; a column definition of CREATE is the
    pair of its [name] node and its [data_type]. *)
Inductive Statement : Type :=
  | SELECT_STMT (tables : list string) (columns : list ASTNode)
                (where_clause : option ASTNode)
  | INSERT_STMT (table : string) (columns : list ASTNode)
                (values : list ASTNode)
  | UPDATE_STMT (table : string) (set_clauses : list (ASTNode * ASTNode))
                (where_clause : option ASTNode)
  | DELETE_STMT (table : string) (where_clause : option ASTNode)
  | CREATE_STMT (table : string) (columns : list (ASTNode * TokenType))
                (title : option string)
  | DROP_STMT (table : string)
  | OTHER_STMT.

(* ===================================================================== *)
(** ** Outcomes: normal return or exception *)
(* ===================================================================== *)

Inductive exn : Set :=
  | TypeError | KeyError | IndexError | OverflowError | ValueError.

Inductive outcome (A : Type) : Type :=
  | Return (a : A)
  | Raise (e : exn).
Arguments Return {A} a.
Arguments Raise {A} e.

Definition bind {A B : Type} (m : outcome A) (k : A -> outcome B) : outcome B :=
  match m with
  | Return a => k a
  | Raise e => Raise e
  end.

Notation "'let!' x ':=' m 'in' k" := (bind m (fun x => k))
  (at level 10, x pattern, m at level 100, k at level 200).

(** A list comprehension whose body may raise: left to right, the first
    exception aborts it. *)
Fixpoint comprehension {A B : Type} (f : A -> outcome B) (l : list A)
  : outcome (list B) :=
  match l with
  | [] => Return []
  | a :: l' =>
      let! b := f a in
      let! bs := comprehension f l' in
      Return (b :: bs)
  end.

(* ===================================================================== *)
(** ** Python's strings and numbers *)
(* ===================================================================== *)

Definition lower_ascii (c : ascii) : ascii :=
  let n := N_of_ascii c in
  if ((65 <=? n) && (n <=? 90))%N then ascii_of_N (n + 32) else c.

(** [str.lower()] *)
Fixpoint lower (s : string) : string :=
  match s with
  | EmptyString => EmptyString
  | String c s' => String (lower_ascii c) (lower s')
  end.

(** [sys.get_int_max_str_digits()], as CPython sets it by default. *)
Definition int_max_str_digits : Z := 4300.

(** Whether [str(z)], [repr(z)] or formatting [z] in an f-string raises
    [ValueError]: [z] has more than [int_max_str_digits] decimal digits, the
    sign not counted. *)
Definition exceeds_max_str_digits (z : Z) : bool :=
  10 ^ int_max_str_digits <=? Z.abs z.
Arguments exceeds_max_str_digits : simpl never.

Definition is_infinity (f : float) : bool :=
  match f with S754_infinity _ => true | _ => false end.

(** [float(z)]: the nearest binary64, [OverflowError] when there is none. *)
Definition float_of_int (z : Z) : outcome float :=
  let f := binary_normalize prec emax z 0 false in
  if is_infinity f then Raise OverflowError else Return f.

(** [a / b] on two [int]s with [b] not zero: the correctly rounded quotient,
    [OverflowError] when it is too large for a float. *)
Definition int_true_divide (a b : Z) : outcome float :=
  let negate := xorb (a <? 0) (b <? 0) in
  if a =? 0 then Return (S754_zero negate)
  else
    let '(mz, ez, lz) := SFdiv_core_binary prec emax (Z.abs a) 0 (Z.abs b) 0 in
    let f := binary_round_aux prec emax negate mz ez lz in
    if is_infinity f then Raise OverflowError else Return f.

(** [isinstance(v, (int, float))] *)
Definition is_numeric (v : value) : bool :=
  match v with
  | VInt _ | VFloat _ => true
  | _ => false
  end.

(** [type(v) != type(w)] is [negb (same_type v w)]. *)
Definition same_type (v w : value) : bool :=
  match v, w with
  | VNone, VNone | VInt _, VInt _ | VFloat _, VFloat _ | VStr _, VStr _ => true
  | _, _ => false
  end.

(** [v == 0], as the division guard evaluates it on a numeric [v]. *)
Definition equals_zero (v : value) : bool :=
  match v with
  | VInt z => z =? 0
  | VFloat f => SFeqb f (S754_zero false)
  | _ => false
  end.

(** Exact comparison of an [int] with a [float], as Python does it:
    [None] when the float is a NaN. *)
Definition compare_int_float (z : Z) (f : float) : option comparison :=
  match f with
  | S754_nan => None
  | S754_infinity s => Some (if s then Gt else Lt)
  | S754_zero _ => Some (z ?= 0)
  | S754_finite s m e =>
      let sm := if s then Z.neg m else Z.pos m in
      Some (if 0 <=? e then z ?= sm * 2 ^ e else z * 2 ^ (- e) ?= sm)
  end.

(** The three-way comparison behind the rich comparisons of two values that
    passed the interpreter's type guard; [Raise TypeError] where Python has
    no ordering ([None] against [None]); [Return None] for an unordered
    pair (a NaN is involved). *)
Definition py_compare (v w : value) : outcome (option comparison) :=
  match v, w with
  | VInt a, VInt b => Return (Some (a ?= b))
  | VInt a, VFloat g => Return (compare_int_float a g)
  | VFloat f, VInt b => Return (option_map CompOpp (compare_int_float b f))
  | VFloat f, VFloat g => Return (SFcompare f g)
  | VStr s, VStr t => Return (Some (String.compare s t))
  | _, _ => Raise TypeError
  end.

(** [v == w] *)
Definition py_eq (v w : value) : bool :=
  match v, w with
  | VNone, VNone => true
  | VInt a, VInt b => a =? b
  | VInt a, VFloat g =>
      match compare_int_float a g with Some Eq => true | _ => false end
  | VFloat f, VInt b =>
      match compare_int_float b f with Some Eq => true | _ => false end
  | VFloat f, VFloat g => SFeqb f g
  | VStr s, VStr t => String.eqb s t
  | _, _ => false
  end.

Definition is_lt (c : option comparison) : bool :=
  match c with Some Lt => true | _ => false end.
Definition is_gt (c : option comparison) : bool :=
  match c with Some Gt => true | _ => false end.
Definition is_le (c : option comparison) : bool :=
  match c with Some (Lt | Eq) => true | _ => false end.
Definition is_ge (c : option comparison) : bool :=
  match c with Some (Gt | Eq) => true | _ => false end.

(** [+], [-] and [*] on two numeric values: exact on two [int]s, binary64
    otherwise, an [int] operand being converted first. *)
Definition arith (zop : Z -> Z -> Z) (fop : float -> float -> float)
    (v w : value) : outcome value :=
  match v, w with
  | VInt a, VInt b => Return (VInt (zop a b))
  | VInt a, VFloat g => let! f := float_of_int a in Return (VFloat (fop f g))
  | VFloat f, VInt b => let! g := float_of_int b in Return (VFloat (fop f g))
  | VFloat f, VFloat g => Return (VFloat (fop f g))
  | _, _ => Raise TypeError
  end.

(** [v / w] on two numeric values, [w] not zero. *)
Definition true_divide (v w : value) : outcome value :=
  match v, w with
  | VInt a, VInt b => let! f := int_true_divide a b in Return (VFloat f)
  | VInt a, VFloat g =>
      let! f := float_of_int a in Return (VFloat (SFdiv prec emax f g))
  | VFloat f, VInt b =>
      let! g := float_of_int b in Return (VFloat (SFdiv prec emax f g))
  | VFloat f, VFloat g => Return (VFloat (SFdiv prec emax f g))
  | _, _ => Raise TypeError
  end.

(** Truthiness of a value in an [if]. *)
Definition truthy (o : pyobj) : bool :=
  match o with
  | PBool b => b
  | PVal VNone => false
  | PVal (VInt z) => negb (z =? 0)
  | PVal (VFloat f) => negb (SFeqb f (S754_zero false))
  | PVal (VStr s) => negb (String.eqb s "")
  end.

(** Whether converting a value to text raises [ValueError]: only an [int]
    can, [None], a [float] and a [str] always have a text. *)
Definition str_raises (v : value) : bool :=
  match v with
  | VInt z => exceeds_max_str_digits z
  | _ => false
  end.

(** The same for what a condition evaluates to; a [bool] prints as [True]
    or [False]. *)
Definition format_raises (o : pyobj) : bool :=
  match o with
  | PBool _ => false
  | PVal v => str_raises v
  end.

(* ===================================================================== *)
(** ** [ColumnDef] and [Table] *)
(* ===================================================================== *)

Record ColumnDef : Type := mkColumnDef {
  col_name : string;          (* self.name *)
  col_type : TokenType        (* self.type *)
}.

Abbreviation Row := (list value).

Record Table : Type := mkTable {
  name : string;
  title : string;
  columns : list ColumnDef;
  rows : list Row
}.

(** [Table._validate_type] *)
Definition _validate_type (v : value) (expected_type : TokenType) : bool :=
  match v with
  | VNone => true
  | _ =>
      match expected_type with
      | INT => match v with VInt _ => true | _ => false end
      | FLOAT => match v with VInt _ | VFloat _ => true | _ => false end
      | TEXT => match v with VStr _ => true | _ => false end
      | DATE => match v with VStr _ => true | _ => false end
      | _ => false
      end
  end.

(** What the interpreter prints before it returns [False] or [True]; the
    comment gives the beginning of the printed line. *)
Inductive message : Type :=
  | ColumnCountMismatch (expected got : nat)
      (* add_row: Error: Column count mismatch. Expected .., got .. *)
  | TypeMismatch (column : string) (expected : TokenType)
      (* add_row: Error: Type mismatch for column .. *)
  | TableAlreadyExists (table : string)
      (* create_table: Error: Table .. already exists *)
  | TableDoesNotExist (table : string)
      (* drop_table: Error: Table .. does not exist *)
  | TableNotFound (table : string)
      (* Error: Table .. not found *)
  | NoTableSpecified
      (* Error: No table specified in SELECT statement *)
  | UnsupportedColumnReference
      (* Error: Unsupported column reference in SELECT / INSERT / UPDATE *)
  | ColumnNotFound (column table : string)
      (* Error: Column .. not found in table .. *)
  | ColumnValueCountMismatch (expected got : nat)
      (* Error: Column and value count mismatch. Expected .. values, got .. *)
  | ValueCountMismatch (expected got : nat)
      (* Error: Value count mismatch. Expected .. values, got .. *)
  | UpdateTypeMismatch (column : string) (expected : TokenType)
      (* Error: Type mismatch for column .. during update *)
  | UnsupportedColumnName
      (* Error: Unsupported column name format in CREATE TABLE *)
  | UnsupportedQueryType
      (* Error: Unsupported query type *)
  | RowInserted                          (* 1 row inserted *)
  | RowsUpdated (rows_updated : nat)     (* .. row(s) updated *)
  | RowsDeleted (rows_deleted : nat)     (* .. row(s) deleted *)
  | TableCreated (table : string)        (* Table .. created *)
  | TableDropped (table : string).       (* Table .. dropped *)

(** The loop of [Table.add_row] over [enumerate(values)]: the first column
    whose value fails [_validate_type], if any.  It runs after the length
    check, so [self.columns[i]] exists for every [i]. *)
Fixpoint first_invalid (values : Row) (cols : list ColumnDef)
  : option ColumnDef :=
  match values, cols with
  | v :: values', c :: cols' =>
      if _validate_type v (col_type c) then first_invalid values' cols'
      else Some c
  | _, _ => None
  end.

(** [Table.add_row]: the table after the call and what was returned,
    [inl] for [False] with the error printed, [inr tt] for [True]. *)
Definition add_row (self : Table) (values : Row) : Table * (message + unit) :=
  if negb (length values =? length (columns self))%nat then
    (self, inl (ColumnCountMismatch (length (columns self)) (length values)))
  else
    match first_invalid values (columns self) with
    | Some c => (self, inl (TypeMismatch (col_name c) (col_type c)))
    | None =>
        (mkTable (name self) (title self) (columns self) (rows self ++ [values]),
         inr tt)
    end.

(** [Table.get_column_index]; [None] stands for the [-1] of a name that
    matches no column. *)
Fixpoint index_from (i : nat) (cols : list ColumnDef) (column_name : string)
  : option nat :=
  match cols with
  | [] => None
  | col :: cols' =>
      if String.eqb (lower (col_name col)) (lower column_name) then Some i
      else index_from (S i) cols' column_name
  end.

Definition get_column_index (self : Table) (column_name : string) : option nat :=
  index_from 0 (columns self) column_name.

(** [l[i]] with a non-negative index *)
Definition getitem {A : Type} (l : list A) (i : nat) : outcome A :=
  match l !! i with
  | Some a => Return a
  | None => Raise IndexError
  end.

(** [l[i] = a] with a non-negative index *)
Definition setitem {A : Type} (l : list A) (i : nat) (a : A) : outcome (list A) :=
  if (i <? length l)%nat then Return (<[i := a]> l) else Raise IndexError.

(* ===================================================================== *)
(** ** [Database]: expressions and conditions *)
(* ===================================================================== *)

Definition is_arithmetic (op : TokenType) : bool :=
  match op with
  | PLUS | MINUS | ASTERISK | DIVIDE => true
  | _ => false
  end.

(** [Database._evaluate_expression] *)
Fixpoint _evaluate_expression (expr : ASTNode) (table : option Table)
    (row : option Row) : outcome value :=
  match expr with
  | IDENTIFIER name =>
      match table, row with
      | Some t, Some ((_ :: _) as r) =>
          match get_column_index t name with
          | Some col_idx => getitem r col_idx
          | None => Return (VStr name)
          end
      | _, _ => Return (VStr name)
      end
  | LITERAL v _ => Return v
  | EXPRESSION l op r =>
      let! left_value := _evaluate_expression l table row in
      if decide (op = DOT) then
        let! right_value := _evaluate_expression r table row in
        match left_value, right_value with
        | VStr _, VStr _ => Return right_value
        | _, _ => Return VNone
        end
      else
        let! right_value := _evaluate_expression r table row in
        if is_arithmetic op
           && negb (is_numeric left_value && is_numeric right_value)
        then Return VNone
        else
          match op with
          | PLUS => arith Z.add (SFadd prec emax) left_value right_value
          | MINUS => arith Z.sub (SFsub prec emax) left_value right_value
          | ASTERISK => arith Z.mul (SFmul prec emax) left_value right_value
          | DIVIDE =>
              if equals_zero right_value then Return VNone
              else true_divide left_value right_value
          | _ => Return VNone
          end
  | _ => Return VNone
  end.

(** The comparison branch of [_evaluate_condition], once both sides are
    evaluated. *)
Definition compare_values (op : TokenType) (left_value right_value : value)
  : outcome pyobj :=
  if negb (same_type left_value right_value)
     && negb (is_numeric left_value && is_numeric right_value)
  then Return (PBool false)
  else
    match op with
    | EQUALS => Return (PBool (py_eq left_value right_value))
    | NOT_EQUALS => Return (PBool (negb (py_eq left_value right_value)))
    | GREATER =>
        let! c := py_compare left_value right_value in Return (PBool (is_gt c))
    | LESS =>
        let! c := py_compare left_value right_value in Return (PBool (is_lt c))
    | GREATER_EQUALS =>
        let! c := py_compare left_value right_value in Return (PBool (is_ge c))
    | LESS_EQUALS =>
        let! c := py_compare left_value right_value in Return (PBool (is_le c))
    | _ => Return (PBool false)
    end.

(** The [else] branch of the logical operators of [_evaluate_condition],
    [print(f"Warning: Non-boolean result in .. condition: ..")] followed by
    [return False]: the line formats the operands, which raises when one of
    them has no text. *)
Definition non_boolean_warning (operands : list pyobj) : outcome pyobj :=
  if existsb format_raises operands then Raise ValueError
  else Return (PBool false).

(** [Database._evaluate_condition] *)
Fixpoint _evaluate_condition (condition : ASTNode) (table : Table) (row : Row)
  : outcome pyobj :=
  match condition with
  | CONDITION l (Some AND) r =>
      match l with
      | None => Raise KeyError
      | Some ln =>
          let! left_eval := _evaluate_condition ln table row in
          match r with
          | None => Raise KeyError
          | Some rn =>
              let! right_eval := _evaluate_condition rn table row in
              match left_eval, right_eval with
              | PBool a, PBool b => Return (PBool (a && b))
              | _, _ => non_boolean_warning [left_eval; right_eval]
              end
          end
      end
  | CONDITION l (Some OR) r =>
      match l with
      | None => Raise KeyError
      | Some ln =>
          let! left_eval := _evaluate_condition ln table row in
          match r with
          | None => Raise KeyError
          | Some rn =>
              let! right_eval := _evaluate_condition rn table row in
              match left_eval, right_eval with
              | PBool a, PBool b => Return (PBool (a || b))
              | _, _ => non_boolean_warning [left_eval; right_eval]
              end
          end
      end
  | CONDITION _ (Some NOT) r =>
      match r with
      | None => Raise KeyError
      | Some rn =>
          let! right_eval := _evaluate_condition rn table row in
          match right_eval with
          | PBool b => Return (PBool (negb b))
          | _ => non_boolean_warning [right_eval]
          end
      end
  | CONDITION l (Some op) r =>
      match l with
      | None => Raise KeyError
      | Some ln =>
          let! left_value := _evaluate_expression ln (Some table) (Some row) in
          match r with
          | None => Raise KeyError
          | Some rn =>
              let! right_value :=
                _evaluate_expression rn (Some table) (Some row) in
              compare_values op left_value right_value
          end
      end
  | _ =>
      let! evaluated_expr :=
        _evaluate_expression condition (Some table) (Some row) in
      Return (PVal evaluated_expr)
  end.

(** The test [not where_clause or self._evaluate_condition(...)] of the
    SELECT and UPDATE scans. *)
Definition qualifies (where_clause : option ASTNode) (table : Table) (row : Row)
  : outcome bool :=
  match where_clause with
  | None => Return true
  | Some w => let! c := _evaluate_condition w table row in Return (truthy c)
  end.

(* ===================================================================== *)
(** ** [Database]: the catalog and the six statements *)
(* ===================================================================== *)

(** [Database.tables], from the lower-cased name to the table. *)
Abbreviation Database := (gmap string Table).

(** What [execute_query] returns: [False], [True], or the pair of column
    names and rows of a SELECT. *)
Inductive result : Type :=
  | RFalse (printed : message)
  | RTrue (printed : message)
  | RRows (selected_column_names : list string) (filtered_rows : list Row).

(** [Database.get_table] *)
Definition get_table (self : Database) (name : string) : option Table :=
  self !! lower name.

(** [Database.create_table] *)
Definition create_table (self : Database) (name : string)
    (columns : list ColumnDef) (title : option string) : Database * bool :=
  match self !! lower name with
  | Some _ => (self, false)
  | None =>
      let title' :=
        match title with
        | Some t => if String.eqb t "" then name else t
        | None => name
        end in
      (<[lower name := mkTable name title' columns []]> self, true)
  end.

(** [Database.drop_table] *)
Definition drop_table (self : Database) (name : string) : Database * bool :=
  match self !! lower name with
  | None => (self, false)
  | Some _ => (delete (lower name) self, true)
  end.

(** [node.data['name']]: only an identifier node has that key. *)
Definition data_name (node : ASTNode) : outcome string :=
  match node with
  | IDENTIFIER name => Return name
  | _ => Raise KeyError
  end.

(** The projection loop of [_execute_select] over [ast.data['columns']]:
    [inl] when it returns [False], otherwise the selected indices and
    names. *)
Fixpoint select_columns (table : Table) (table_name : string)
    (cols : list ASTNode) : outcome (message + list nat * list string) :=
  match cols with
  | [] => Return (inr ([], []))
  | col_node :: cols' =>
      let! col_name :=
        match col_node with
        | IDENTIFIER name => Return (Some name)
        | EXPRESSION _ DOT r => let! n := data_name r in Return (Some n)
        | _ => Return None
        end in
      match col_name with
      | None => Return (inl UnsupportedColumnReference)
      | Some col_name =>
          match get_column_index table col_name with
          | None => Return (inl (ColumnNotFound col_name table_name))
          | Some col_idx =>
              let! rest := select_columns table table_name cols' in
              match rest with
              | inl m => Return (inl m)
              | inr (indices, names) =>
                  Return (inr (col_idx :: indices, col_name :: names))
              end
          end
      end
  end.

(** The row loop of [_execute_select]. *)
Fixpoint select_rows (where_clause : option ASTNode) (table : Table)
    (selected_columns_indices : list nat) (rows : list Row)
  : outcome (list Row) :=
  match rows with
  | [] => Return []
  | row :: rows' =>
      let! keep := qualifies where_clause table row in
      if keep then
        let! filtered_row_data :=
          comprehension (getitem row) selected_columns_indices in
        let! filtered_rows :=
          select_rows where_clause table selected_columns_indices rows' in
        Return (filtered_row_data :: filtered_rows)
      else select_rows where_clause table selected_columns_indices rows'
  end.

(** [print(f"DEBUG: _execute_select returning columns: .., rows: ..")], the
    last statement of [_execute_select] before its [return]: the line holds
    the [repr] of every returned cell, and raises when one of them has
    none.  The column names are strings. *)
Definition debug_print_raises (filtered_rows : list Row) : bool :=
  existsb (existsb str_raises) filtered_rows.

(** [Database._execute_select] *)
Definition _execute_select (self : Database) (tables : list string)
    (cols : list ASTNode) (where_clause : option ASTNode) : outcome result :=
  match tables with
  | [] => Return (RFalse NoTableSpecified)
  | table_name :: _ =>
      match get_table self table_name with
      | None => Return (RFalse (TableNotFound table_name))
      | Some table =>
          let! first :=
            match cols with
            | [] => Raise IndexError
            | c :: _ => data_name c
            end in
          let! selection :=
            if String.eqb first "*" then
              Return (inr (seq 0 (length (columns table)),
                           map col_name (columns table)))
            else select_columns table table_name cols in
          match selection with
          | inl m => Return (RFalse m)
          | inr (selected_columns_indices, selected_column_names) =>
              let! filtered_rows :=
                select_rows where_clause table selected_columns_indices
                            (rows table) in
              if debug_print_raises filtered_rows then Raise ValueError
              else Return (RRows selected_column_names filtered_rows)
          end
      end
  end.

(** The column-list loop of [_execute_insert]. *)
Fixpoint insert_columns (table : Table) (table_name : string)
    (cols : list ASTNode) : message + list nat :=
  match cols with
  | [] => inr []
  | IDENTIFIER col_name :: cols' =>
      match get_column_index table col_name with
      | None => inl (ColumnNotFound col_name table_name)
      | Some col_idx =>
          match insert_columns table table_name cols' with
          | inl m => inl m
          | inr column_indices => inr (col_idx :: column_indices)
          end
      end
  | _ :: _ => inl UnsupportedColumnReference
  end.

(** [row_values[col_idx] = values_to_insert[i]] for every listed column, in
    order. *)
Fixpoint fill_row (row_values : Row) (column_indices : list nat)
    (values_to_insert : list value) : Row :=
  match column_indices, values_to_insert with
  | col_idx :: column_indices', v :: values' =>
      fill_row (<[col_idx := v]> row_values) column_indices' values'
  | _, _ => row_values
  end.

(** The effect of [table.add_row(row)] on the catalog, [table] being the
    object stored under [lower table_name]. *)
Definition insert_row (self : Database) (table_name : string) (table : Table)
    (row : Row) : outcome result * Database :=
  match add_row table row with
  | (_, inl m) => (Return (RFalse m), self)
  | (table', inr _) =>
      (Return (RTrue RowInserted), <[lower table_name := table']> self)
  end.

(** [Database._execute_insert] *)
Definition _execute_insert (self : Database) (table_name : string)
    (cols values : list ASTNode) : outcome result * Database :=
  match get_table self table_name with
  | None => (Return (RFalse (TableNotFound table_name)), self)
  | Some table =>
      match comprehension (fun expr => _evaluate_expression expr None None)
                          values with
      | Raise e => (Raise e, self)
      | Return values_to_insert =>
          match cols with
          | _ :: _ =>
              match insert_columns table table_name cols with
              | inl m => (Return (RFalse m), self)
              | inr column_indices =>
                  let row_values := replicate (length (columns table)) VNone in
                  if negb (length column_indices =? length values_to_insert)%nat
                  then (Return (RFalse (ColumnValueCountMismatch
                                          (length column_indices)
                                          (length values_to_insert))), self)
                  else
                    insert_row self table_name table
                      (fill_row row_values column_indices values_to_insert)
              end
          | [] =>
              if negb (length values_to_insert =? length (columns table))%nat
              then (Return (RFalse (ValueCountMismatch
                                      (length (columns table))
                                      (length values_to_insert))), self)
              else insert_row self table_name table values_to_insert
          end
      end
  end.

(** The loop of [_execute_update] over [ast.data['set_clauses']]: every
    target column is resolved and every new value evaluated, with neither
    table nor row, before the scan starts. *)
Fixpoint resolve_set_clauses (table : Table) (table_name : string)
    (set_nodes : list (ASTNode * ASTNode))
  : outcome (message + list (nat * value)) :=
  match set_nodes with
  | [] => Return (inr [])
  | (IDENTIFIER col_name, right_node) :: set_nodes' =>
      match get_column_index table col_name with
      | None => Return (inl (ColumnNotFound col_name table_name))
      | Some col_idx =>
          let! value := _evaluate_expression right_node None None in
          let! rest := resolve_set_clauses table table_name set_nodes' in
          match rest with
          | inl m => Return (inl m)
          | inr set_clauses => Return (inr ((col_idx, value) :: set_clauses))
          end
      end
  | _ :: _ => Return (inl UnsupportedColumnReference)
  end.

(** The inner loop of the scan, [for col_idx, value in set_clauses], on one
    qualifying row: the row as the loop leaves it, and [Return None] when
    the loop ran to its end, [Return (Some m)] when it hit [return False]. *)
Fixpoint apply_set_clauses (cols : list ColumnDef)
    (set_clauses : list (nat * value)) (row : Row)
  : Row * outcome (option message) :=
  match set_clauses with
  | [] => (row, Return None)
  | (col_idx, value) :: set_clauses' =>
      match getitem cols col_idx with
      | Raise e => (row, Raise e)
      | Return col =>
          if negb (_validate_type value (col_type col)) then
            (row, Return (Some (UpdateTypeMismatch (col_name col) (col_type col))))
          else
            match setitem row col_idx value with
            | Raise e => (row, Raise e)
            | Return row' => apply_set_clauses cols set_clauses' row'
            end
      end
  end.

(** The scan of [_execute_update], [for row in table.rows]: the rows as the
    scan leaves them, and how it ended: [inr rows_updated] at the end of the
    table, [inl m] on [return False], or an exception. *)
Fixpoint update_rows (where_clause : option ASTNode) (table : Table)
    (set_clauses : list (nat * value)) (rows : list Row) (rows_updated : nat)
  : list Row * outcome (message + nat) :=
  match rows with
  | [] => ([], Return (inr rows_updated))
  | row :: rows' =>
      match qualifies where_clause table row with
      | Raise e => (rows, Raise e)
      | Return false =>
          let '(scanned, ending) :=
            update_rows where_clause table set_clauses rows' rows_updated in
          (row :: scanned, ending)
      | Return true =>
          match apply_set_clauses (columns table) set_clauses row with
          | (row', Return None) =>
              let '(scanned, ending) :=
                update_rows where_clause table set_clauses rows'
                            (S rows_updated) in
              (row' :: scanned, ending)
          | (row', Return (Some m)) => (row' :: rows', Return (inl m))
          | (row', Raise e) => (row' :: rows', Raise e)
          end
      end
  end.

Definition with_rows (table : Table) (rows' : list Row) : Table :=
  mkTable (name table) (title table) (columns table) rows'.

(** [Database._execute_update] *)
Definition _execute_update (self : Database) (table_name : string)
    (set_nodes : list (ASTNode * ASTNode)) (where_clause : option ASTNode)
  : outcome result * Database :=
  match get_table self table_name with
  | None => (Return (RFalse (TableNotFound table_name)), self)
  | Some table =>
      match resolve_set_clauses table table_name set_nodes with
      | Raise e => (Raise e, self)
      | Return (inl m) => (Return (RFalse m), self)
      | Return (inr set_clauses) =>
          let '(rows', ending) :=
            update_rows where_clause table set_clauses (rows table) 0 in
          let self' := <[lower table_name := with_rows table rows']> self in
          match ending with
          | Raise e => (Raise e, self')
          | Return (inl m) => (Return (RFalse m), self')
          | Return (inr rows_updated) =>
              (Return (RTrue (RowsUpdated rows_updated)), self')
          end
      end
  end.

(** The scan of [_execute_delete]: [rows_to_keep] and [rows_deleted]. *)
Fixpoint delete_rows (where_clause : option ASTNode) (table : Table)
    (rows : list Row) : outcome (list Row * nat) :=
  match rows with
  | [] => Return ([], 0%nat)
  | row :: rows' =>
      let! keep :=
        match where_clause with
        | None => Return false
        | Some w =>
            let! c := _evaluate_condition w table row in
            Return (negb (truthy c))
        end in
      let! rest := delete_rows where_clause table rows' in
      let '(rows_to_keep, rows_deleted) := rest in
      if keep then Return (row :: rows_to_keep, rows_deleted)
      else Return (rows_to_keep, S rows_deleted)
  end.

(** [Database._execute_delete] *)
Definition _execute_delete (self : Database) (table_name : string)
    (where_clause : option ASTNode) : outcome result * Database :=
  match get_table self table_name with
  | None => (Return (RFalse (TableNotFound table_name)), self)
  | Some table =>
      match delete_rows where_clause table (rows table) with
      | Raise e => (Raise e, self)
      | Return (rows_to_keep, rows_deleted) =>
          (Return (RTrue (RowsDeleted rows_deleted)),
           <[lower table_name := with_rows table rows_to_keep]> self)
      end
  end.

(** The loop of [_execute_create] over the column definitions. *)
Fixpoint create_columns (cols : list (ASTNode * TokenType))
  : message + list ColumnDef :=
  match cols with
  | [] => inr []
  | (IDENTIFIER col_name, col_type) :: cols' =>
      match create_columns cols' with
      | inl m => inl m
      | inr columns => inr (mkColumnDef col_name col_type :: columns)
      end
  | _ :: _ => inl UnsupportedColumnName
  end.

(** [Database._execute_create] *)
Definition _execute_create (self : Database) (table_name : string)
    (cols : list (ASTNode * TokenType)) (title : option string)
  : outcome result * Database :=
  match create_columns cols with
  | inl m => (Return (RFalse m), self)
  | inr columns =>
      match create_table self table_name columns title with
      | (self', true) => (Return (RTrue (TableCreated table_name)), self')
      | (self', false) => (Return (RFalse (TableAlreadyExists table_name)), self')
      end
  end.

(** [Database._execute_drop] *)
Definition _execute_drop (self : Database) (table_name : string)
  : outcome result * Database :=
  match drop_table self table_name with
  | (self', true) => (Return (RTrue (TableDropped table_name)), self')
  | (self', false) => (Return (RFalse (TableDoesNotExist table_name)), self')
  end.

(** [Database.execute_query]: what the call returns or raises, and the
    catalog it leaves behind. *)
Definition execute_query (self : Database) (ast : Statement)
  : outcome result * Database :=
  match ast with
  | SELECT_STMT tables cols where_clause =>
      (_execute_select self tables cols where_clause, self)
  | INSERT_STMT table cols values => _execute_insert self table cols values
  | UPDATE_STMT table set_clauses where_clause =>
      _execute_update self table set_clauses where_clause
  | DELETE_STMT table where_clause => _execute_delete self table where_clause
  | CREATE_STMT table cols title => _execute_create self table cols title
  | DROP_STMT table => _execute_drop self table
  | OTHER_STMT => (Return (RFalse UnsupportedQueryType), self)
  end.

(* ===================================================================== *)
(** ** Auxiliary definitions used in the statements below *)
(* ===================================================================== *)

(** The evaluation of the VALUES list: no table, no row. *)
Definition evaluate_values (values : list ASTNode) : outcome (list value) :=
  comprehension (fun expr => _evaluate_expression expr None None) values.

(** A statement fails when [execute_query] returns [False] or raises (the
    entry point [execute_without_cursor] turns an exception into [False]). *)
Definition failed (o : outcome result) : Prop :=
  match o with
  | Return (RFalse _) | Raise _ => True
  | _ => False
  end.

(** The running example of the design document: [t(id INT, name TEXT)]
    holding [[1,'Alice']] and [[2,NULL]]. *)
Definition example_table : Table :=
  mkTable "t" "t" [mkColumnDef "id" INT; mkColumnDef "name" TEXT]
          [[VInt 1; VStr "Alice"]; [VInt 2; VNone]].

Definition example_db : Database := {[ "t" := example_table ]}.

(** Every entry of the column list is an identifier that names a column. *)
Definition resolves (table : Table) (col_node : ASTNode) (col_idx : nat) : Prop :=
  exists n, col_node = IDENTIFIER n /\ get_column_index table n = Some col_idx.

(** Whether the SELECT and UPDATE scans take a row: there is no WHERE clause
    or its value is truthy. *)
Definition keeps (where_clause : option ASTNode) (table : Table) (row : Row)
  : bool :=
  match where_clause with
  | None => true
  | Some w =>
      match _evaluate_condition w table row with
      | Return c => truthy c
      | Raise _ => false
      end
  end.

(** The reading of the WHERE test under which only the boolean [True]
    keeps a row. *)
Definition keeps_on_boolean_true (where_clause : option ASTNode)
    (table : Table) (row : Row) : bool :=
  match where_clause with
  | None => true
  | Some w =>
      match _evaluate_condition w table row with
      | Return (PBool true) => true
      | _ => false
      end
  end.

(** [WHERE id = 5/0], [WHERE id = 1] and [WHERE name = 5] *)
Definition where_id_is_5_div_0 : ASTNode :=
  CONDITION (Some (IDENTIFIER "id")) (Some EQUALS)
            (Some (EXPRESSION (LITERAL (VInt 5) INTEGER) DIVIDE
                              (LITERAL (VInt 0) INTEGER))).

Definition where_id_is_1 : ASTNode :=
  CONDITION (Some (IDENTIFIER "id")) (Some EQUALS)
            (Some (LITERAL (VInt 1) INTEGER)).

Definition where_name_is_5 : ASTNode :=
  CONDITION (Some (IDENTIFIER "name")) (Some EQUALS)
            (Some (LITERAL (VInt 5) INTEGER)).

(** [row[col_idx] = value] for every SET clause, in order. *)
Definition assign (set_clauses : list (nat * value)) (row : Row) : Row :=
  fold_left (fun r clause => <[fst clause := snd clause]> r) set_clauses row.



(** The new value of a SET clause passes the type check of its column. *)
Definition passes_validation (cols : list ColumnDef) (clause : nat * value)
  : Prop :=
  exists col,
    cols !! fst clause = Some col
    /\ _validate_type (snd clause) (col_type col) = true.


Definition set_name_then_bad_id : list (ASTNode * ASTNode) :=
  [(IDENTIFIER "name", LITERAL (VStr "Bob") STRING);
   (IDENTIFIER "id", LITERAL (VStr "x") STRING)].

(** The runtime value satisfies the declared type: INT is an integer, FLOAT
    an integer or a floating value, TEXT and DATE a string. *)
Definition satisfies (v : value) (declared : TokenType) : Prop :=
  match declared with
  | INT => exists z, v = VInt z
  | FLOAT => (exists z, v = VInt z) \/ (exists f, v = VFloat f)
  | TEXT | DATE => exists s, v = VStr s
  | _ => False
  end.

(** A row has one cell per column and every cell that is not NULL
    satisfies the declared type of its column. *)
Definition row_well_typed (cols : list ColumnDef) (row : Row) : Prop :=
  length row = length cols
  /\ forall i v col,
      row !! i = Some v -> cols !! i = Some col -> v <> VNone ->
      satisfies v (col_type col).

(** The invariants of the catalog. *)
Definition catalog_invariant (db : Database) : Prop :=
  (forall k1 k2 t1 t2,
      db !! k1 = Some t1 -> db !! k2 = Some t2 ->
      lower (name t1) = lower (name t2) -> k1 = k2)
  /\ (forall k t, db !! k = Some t ->
                  Forall (row_well_typed (columns t)) (rows t)).

(** The catalogs an engine can be in: it starts empty and every call of
    [execute_query], whatever it returns or raises, leaves the next one. *)
Inductive reachable : Database -> Prop :=
  | reachable_empty : reachable ∅
  | reachable_step (db : Database) (ast : Statement) (r : outcome result)
                   (db' : Database) :
      reachable db -> execute_query db ast = (r, db') -> reachable db'.

(** The invariant in the form the code maintains it: every cell passes
    [_validate_type] and every table is stored under its lower-cased
    name. *)
Definition valid_row (cols : list ColumnDef) (row : Row) : Prop :=
  Forall2 (fun v col => _validate_type v (col_type col) = true) row cols.

Definition stored_well (db : Database) : Prop :=
  forall k t, db !! k = Some t ->
              k = lower (name t) /\ Forall (valid_row (columns t)) (rows t).

(* ===================================================================== *)
(** ** Further definitions used in the statements below *)
(* ===================================================================== *)

(** [WHERE name > name]: unordered, hence an exception, on a row whose
    [name] is NULL. *)
Definition where_name_gt_name : ASTNode :=
  CONDITION (Some (IDENTIFIER "name")) (Some GREATER) (Some (IDENTIFIER "name")).

(** The WHERE clause evaluates on every one of the rows and holds on
    none. *)
Definition qualifies_nowhere (where_clause : option ASTNode) (table : Table)
    (rows : list Row) : Prop :=
  Forall (fun row => qualifies where_clause table row = Return false) rows.

(** [WHERE name >= name]: true on a row whose [name] is a string, an
    exception on a row whose [name] is NULL. *)
Definition where_name_ge_name : ASTNode :=
  CONDITION (Some (IDENTIFIER "name")) (Some GREATER_EQUALS)
            (Some (IDENTIFIER "name")).

(** The column a projection entry of SELECT refers to: an identifier, or
    the column part of a qualified [table.column]. *)
Definition referenced_column (col_node : ASTNode) : option string :=
  match col_node with
  | IDENTIFIER n => Some n
  | EXPRESSION _ DOT (IDENTIFIER n) => Some n
  | _ => None
  end.

(** The cells of a row at the given indices, in that order. *)
Definition project (indices : list nat) (row : Row) : Row :=
  map (fun i => default VNone (row !! i)) indices.

(** The type guard of a comparison: the operands have the same runtime
    type or are both numeric. *)
Definition comparable (left_value right_value : value) : bool :=
  same_type left_value right_value
  || (is_numeric left_value && is_numeric right_value).

(** The expression mentions no identifier. *)
Fixpoint identifier_free (expr : ASTNode) : bool :=
  match expr with
  | IDENTIFIER _ => false
  | EXPRESSION l _ r => identifier_free l && identifier_free r
  | _ => true
  end.

(** The value the SET clauses leave at an index: that of the last clause
    that targets it, if any. *)
Fixpoint last_assigned (set_clauses : list (nat * value)) (j : nat)
  : option value :=
  match set_clauses with
  | [] => None
  | (i, v) :: set_clauses' =>
      match last_assigned set_clauses' j with
      | Some w => Some w
      | None => if decide (i = j) then Some v else None
      end
  end.

(* ===================================================================== *)
(** ** [Database.get_schema] *)
(* ===================================================================== *)

(** Modelled from the spec: the name of a member of [TokenType], which is
    what [str(member)] shows after the prefix [TokenType.]. *)
Definition token_name (t : TokenType) : string :=
  match t with
  | SELECT => "SELECT" | FROM => "FROM" | WHERE => "WHERE"
  | INSERT => "INSERT" | INTO => "INTO" | VALUES => "VALUES"
  | UPDATE => "UPDATE" | SET => "SET" | DELETE => "DELETE"
  | CREATE => "CREATE" | TABLE => "TABLE" | DROP => "DROP"
  | JOIN => "JOIN" | ON => "ON" | AND => "AND" | OR => "OR" | NOT => "NOT"
  | NULL => "NULL" | INT => "INT" | TEXT => "TEXT" | FLOAT => "FLOAT"
  | DATE => "DATE" | EQUALS => "EQUALS" | GREATER => "GREATER"
  | LESS => "LESS" | GREATER_EQUALS => "GREATER_EQUALS"
  | LESS_EQUALS => "LESS_EQUALS" | NOT_EQUALS => "NOT_EQUALS"
  | PLUS => "PLUS" | MINUS => "MINUS" | ASTERISK => "ASTERISK"
  | DIVIDE => "DIVIDE" | COMMA => "COMMA" | SEMICOLON => "SEMICOLON"
  | LEFT_PAREN => "LEFT_PAREN" | RIGHT_PAREN => "RIGHT_PAREN" | DOT => "DOT"
  | INTEGER => "INTEGER" | FLOAT_LITERAL => "FLOAT_LITERAL"
  | STRING => "STRING" | IDENTIFIER_TOKEN => "IDENTIFIER" | EOF => "EOF"
  end.

(** One entry of a table's schema: the dictionary with the keys [name],
    [type] and [index]. *)
Record column_info : Type := mkColumnInfo {
  info_name : string;
  info_type : string;
  info_index : nat
}.

(** The inner loop of [get_schema] over [enumerate(table.columns)]. *)
Definition schema_columns (table : Table) : list column_info :=
  imap (fun idx col =>
          mkColumnInfo (col_name col) (token_name (col_type col)) idx)
       (columns table).

(** [Database.get_schema]: for every table of the catalog,
    [schema_dict[table.name] = columns].  The order in which the loop
    visits the tables is immaterial for the resulting dictionary as long
    as no two tables have the same [name]; [create_table] stores a table
    under its lower-cased name, so this holds in every catalog it
    builds. *)
Definition get_schema (self : Database) : gmap string (list column_info) :=
  map_fold (fun _ table schema_dict =>
              <[name table := schema_columns table]> schema_dict)
           ∅ self.

(* ===================================================================== *)
(** ** [SQLGenerator]: from a syntax tree back to SQL text *)
(* ===================================================================== *)

(** What stops the generator: a [ValueError], which it raises itself on a
    node it does not support and which [str] raises on an [int] that is too
    long, or the [KeyError] of a missing field. *)
Inductive gen_error : Set := GenValueError | GenKeyError.

Inductive generation (A : Type) : Type :=
  | Generated (a : A)
  | NotGenerated (e : gen_error).
Arguments Generated {A} a.
Arguments NotGenerated {A} e.

Definition gen_bind {A B : Type} (m : generation A) (k : A -> generation B)
  : generation B :=
  match m with
  | Generated a => k a
  | NotGenerated e => NotGenerated e
  end.

Notation "'gen!' x ':=' m 'in' k" := (gen_bind m (fun x => k))
  (at level 10, x pattern, m at level 100, k at level 200).

(** A list comprehension over a generator: left to right, the first
    failure aborts it. *)
Fixpoint generate_all {A : Type} (f : A -> generation string) (l : list A)
  : generation (list string) :=
  match l with
  | [] => Generated []
  | a :: l' =>
      gen! s := f a in
      gen! ss := generate_all f l' in
      Generated (s :: ss)
  end.

(** [str(z)] for an [int]: its decimal digits; [None] stands for the
    [ValueError] of an [int] of more than [int_max_str_digits] digits. *)
Definition str_int (z : Z) : option string :=
  if exceeds_max_str_digits z then None
  else Some (NilZero.string_of_int (Z.to_int z)).

(** [str(v)], which is also what an f-string puts for a value; the text of
    a [float] is Python's shortest representation that reads back as the
    same float, taken as given in [float_repr]. *)
Definition py_str (float_repr : float -> string) (v : value) : option string :=
  match v with
  | VNone => Some "None"
  | VInt z => str_int z
  | VFloat f => Some (float_repr f)
  | VStr s => Some s
  end.

(** [SQLGenerator.token_type_to_string]; a token kind that is not in the
    table is shown as [str(token_type)]. *)
Definition token_type_to_string (token_type : TokenType) : string :=
  match token_type with
  | SELECT => "SELECT" | FROM => "FROM" | WHERE => "WHERE"
  | INSERT => "INSERT" | INTO => "INTO" | VALUES => "VALUES"
  | UPDATE => "UPDATE" | SET => "SET" | DELETE => "DELETE"
  | CREATE => "CREATE" | TABLE => "TABLE" | DROP => "DROP"
  | JOIN => "JOIN" | ON => "ON" | AND => "AND" | OR => "OR" | NOT => "NOT"
  | NULL => "NULL" | INT => "INT" | TEXT => "TEXT" | FLOAT => "FLOAT"
  | DATE => "DATE"
  | EQUALS => "=" | GREATER => ">" | LESS => "<" | GREATER_EQUALS => ">="
  | LESS_EQUALS => "<=" | NOT_EQUALS => "!="
  | PLUS => "+" | MINUS => "-" | ASTERISK => "*" | DIVIDE => "/"
  | COMMA => "," | SEMICOLON => ";" | LEFT_PAREN => "("
  | RIGHT_PAREN => ")" | DOT => "."
  | INTEGER | FLOAT_LITERAL | STRING | IDENTIFIER_TOKEN | EOF =>
      "TokenType." +:+ token_name token_type
  end.

Section Generator.

(** [str(f)] for a [float]: Python's shortest representation that reads
    back as [f], taken as given. *)
Variable float_repr : float -> string.

(** [SQLGenerator.generate_literal]: the text depends on the [value_type]
    of the node, whatever value the node holds. *)
Definition generate_literal (val : value) (value_type : TokenType)
  : generation string :=
  match value_type with
  | INTEGER | FLOAT_LITERAL =>
      match py_str float_repr val with
      | Some s => Generated s
      | None => NotGenerated GenValueError
      end
  | STRING =>
      match py_str float_repr val with
      | Some s => Generated ("'" +:+ s +:+ "'")
      | None => NotGenerated GenValueError
      end
  | NULL => Generated "NULL"
  | _ => NotGenerated GenValueError
  end.

(** [SQLGenerator.generate_expression] *)
Fixpoint generate_expression (expr : ASTNode) : generation string :=
  match expr with
  | IDENTIFIER n => Generated n
  | LITERAL v value_type => generate_literal v value_type
  | EXPRESSION l op r =>
      gen! left_sql := generate_expression l in
      let operator := token_type_to_string op in
      gen! right_sql := generate_expression r in
      Generated (left_sql +:+ " " +:+ operator +:+ " " +:+ right_sql)
  | _ => NotGenerated GenValueError
  end.

(** [SQLGenerator.generate_condition] *)
Definition generate_condition (condition : ASTNode) : generation string :=
  match condition with
  | CONDITION l op r =>
      match l with
      | None => NotGenerated GenKeyError
      | Some ln =>
          gen! left_sql := generate_expression ln in
          match op, r with
          | Some o, Some rn =>
              let operator := token_type_to_string o in
              gen! right_sql := generate_expression rn in
              Generated (left_sql +:+ " " +:+ operator +:+ " " +:+ right_sql)
          | _, _ => Generated left_sql
          end
      end
  | _ => generate_expression condition
  end.

(** [SQLGenerator.generate_column_list] *)
Definition generate_column_list (cols : list ASTNode) : generation string :=
  match cols with
  | [] => Generated "*"
  | _ :: _ =>
      gen! column_strs := generate_all generate_expression cols in
      Generated (String.concat ", " column_strs)
  end.

(** [SQLGenerator.generate_table_list] over table references, each
    generated by [generate_table_reference] as its name. *)
Definition generate_table_list (tables : list string) : string :=
  String.concat ", " tables.

(** The optional [WHERE] part common to SELECT, UPDATE and DELETE. *)
Definition generate_where (sql : string) (where_clause : option ASTNode)
  : generation string :=
  match where_clause with
  | None => Generated sql
  | Some w =>
      gen! condition := generate_condition w in
      Generated (sql +:+ " WHERE " +:+ condition)
  end.

(** [SQLGenerator.generate_select], for a statement without JOIN clause
    (the statement nodes of this development carry none). *)
Definition generate_select (tables : list string) (cols : list ASTNode)
    (where_clause : option ASTNode) : generation string :=
  gen! column_list := generate_column_list cols in
  generate_where
    ("SELECT " +:+ column_list +:+ " FROM " +:+ generate_table_list tables)
    where_clause.

(** [SQLGenerator.generate_insert] *)
Definition generate_insert (table : string) (cols values : list ASTNode)
  : generation string :=
  gen! sql :=
    match cols with
    | [] => Generated ("INSERT INTO " +:+ table)
    | _ :: _ =>
        gen! column_list := generate_column_list cols in
        Generated ("INSERT INTO " +:+ table +:+ " (" +:+ column_list +:+ ")")
    end in
  gen! value_strs := generate_all generate_expression values in
  Generated (sql +:+ " VALUES (" +:+ String.concat ", " value_strs +:+ ")").

(** [SQLGenerator.generate_update] *)
Definition generate_update (table : string)
    (set_clauses : list (ASTNode * ASTNode)) (where_clause : option ASTNode)
  : generation string :=
  gen! set_strs :=
    generate_all
      (fun set_clause =>
         gen! left_sql := generate_expression (fst set_clause) in
         gen! right_sql := generate_expression (snd set_clause) in
         Generated (left_sql +:+ " = " +:+ right_sql))
      set_clauses in
  generate_where
    ("UPDATE " +:+ table +:+ " SET " +:+ String.concat ", " set_strs)
    where_clause.

(** [SQLGenerator.generate_delete] *)
Definition generate_delete (table : string) (where_clause : option ASTNode)
  : generation string :=
  generate_where ("DELETE FROM " +:+ table) where_clause.

(** [SQLGenerator.generate_column_definition] *)
Definition generate_column_definition (column : ASTNode * TokenType)
  : generation string :=
  match fst column with
  | IDENTIFIER n => Generated (n +:+ " " +:+ token_type_to_string (snd column))
  | _ => NotGenerated GenValueError
  end.

(** [SQLGenerator.generate_create] *)
Definition generate_create (table : string)
    (cols : list (ASTNode * TokenType)) : generation string :=
  gen! column_strs := generate_all generate_column_definition cols in
  Generated ("CREATE TABLE " +:+ table +:+ " ("
             +:+ String.concat ", " column_strs +:+ ")").

(** [SQLGenerator.generate_drop] *)
Definition generate_drop (table : string) : string := "DROP TABLE " +:+ table.

(** [SQLGenerator.generate_sql] *)
Definition generate_sql (ast : Statement) : generation string :=
  match ast with
  | SELECT_STMT tables cols where_clause =>
      generate_select tables cols where_clause
  | INSERT_STMT table cols values => generate_insert table cols values
  | UPDATE_STMT table set_clauses where_clause =>
      generate_update table set_clauses where_clause
  | DELETE_STMT table where_clause => generate_delete table where_clause
  | CREATE_STMT table cols _ => generate_create table cols
  | DROP_STMT table => Generated (generate_drop table)
  | OTHER_STMT => NotGenerated GenValueError
  end.

End Generator.

(** The literal is one [generate_literal] has a text for: its
    [value_type] is one of the four literal kinds and, unless that is NULL,
    its value is not an [int] that is too long for [str]. *)
Definition literal_has_text (val : value) (value_type : TokenType) : bool :=
  match value_type with
  | INTEGER | FLOAT_LITERAL | STRING => negb (str_raises val)
  | NULL => true
  | _ => false
  end.

(** The tree is made of identifiers, literals that have a text and binary
    expressions only. *)
Fixpoint expression_tree (expr : ASTNode) : bool :=
  match expr with
  | IDENTIFIER _ => true
  | LITERAL v value_type => literal_has_text v value_type
  | EXPRESSION l _ r => expression_tree l && expression_tree r
  | _ => false
  end.

(** Two tables have the same schema: name, title and columns. *)
Definition same_schema (t t' : Table) : Prop :=
  name t' = name t /\ title t' = title t /\ columns t' = columns t.

(** The statement is neither CREATE nor DROP. *)
Definition is_data_statement (ast : Statement) : bool :=
  match ast with
  | CREATE_STMT _ _ _ | DROP_STMT _ => false
  | _ => true
  end.

(* ===================================================================== *)
(** ** [Table.print_table] *)
(* ===================================================================== *)

Definition newline : string := String (ascii_of_nat 10) EmptyString.

(** [s * k] for a string and an [int]: empty when [k] is not positive. *)
Fixpoint repeat_string (s : string) (k : nat) : string :=
  match k with
  | O => EmptyString
  | S k' => s +:+ repeat_string s k'
  end.

(** The cell as [print_table] shows it: ["NULL"] for [None], [str(v)]
    otherwise, which raises on an [int] that is too long. *)
Definition show_cell (float_repr : float -> string) (v : value)
  : outcome string :=
  match v with
  | VNone => Return "NULL"
  | _ =>
      match py_str float_repr v with
      | Some s => Return s
      | None => Raise ValueError
      end
  end.

(** The loop of [print_table] over the rows: the lines printed, and
    whether the loop ended or raised. *)
Fixpoint print_rows (float_repr : float -> string) (cols : list nat)
    (rows : list Row) : list string * outcome unit :=
  match rows with
  | [] => ([], Return tt)
  | row :: rows' =>
      match comprehension
              (fun i => let! cell := getitem row i in
                        show_cell float_repr cell) cols with
      | Raise e => ([], Raise e)
      | Return row_data =>
          let '(lines, ending) := print_rows float_repr cols rows' in
          (String.concat " | " row_data :: lines, ending)
      end
  end.

(** [Table.print_table]: the arguments of the successive [print] calls,
    and whether the method returned or raised.  The indices in [cols] are
    taken to be non-negative. *)
Definition print_table (float_repr : float -> string) (self : Table)
    (cols : option (list nat)) : list string * outcome unit :=
  let heading := newline +:+ "Table: " +:+ title self +:+ newline in
  let cols :=
    match cols with
    | None | Some [] => seq 0 (length (columns self))
    | Some cols => cols
    end in
  match comprehension
          (fun i => let! col := getitem (columns self) i in
                    Return (col_name col)) cols with
  | Raise e => ([heading], Raise e)
  | Return header =>
      let rule :=
        repeat_string "-"
          (Z.to_nat (fold_right Z.add 0
                                (map (fun h => Z.of_nat (String.length h)) header)
                     + 3 * (Z.of_nat (length header) - 1))) in
      let '(lines, ending) := print_rows float_repr cols (rows self) in
      (heading :: String.concat " | " header :: rule :: lines, ending)
  end.

(* ===================================================================== *)
(** ** Basic facts *)
(* ===================================================================== *)

Lemma bind_Return {A B : Type} (m : outcome A) (k : A -> outcome B) (b : B) :
  bind m k = Return b -> exists a, m = Return a /\ k a = Return b.
Proof. destruct m as [a|e]; simpl; [eauto | discriminate]. Qed.

Lemma comprehension_length {A B : Type} (f : A -> outcome B) (l : list A)
    (bs : list B) :
  comprehension f l = Return bs -> length bs = length l.
Proof.
  revert bs. induction l as [|a l IH]; simpl; intros bs H.
  - injection H as <-. reflexivity.
  - destruct (f a) as [b|]; simpl in H; [|discriminate].
    destruct (comprehension f l) as [bs'|]; simpl in H; [|discriminate].
    injection H as <-. simpl. f_equal. apply IH. reflexivity.
Qed.

Lemma comprehension_app {A B : Type} (f : A -> outcome B) (l1 l2 : list A) :
  comprehension f (l1 ++ l2) =
  (let! bs1 := comprehension f l1 in
   let! bs2 := comprehension f l2 in
   Return (bs1 ++ bs2)).
Proof.
  induction l1 as [|a l1 IH]; simpl.
  - destruct (comprehension f l2); reflexivity.
  - destruct (f a) as [b|]; simpl; [|reflexivity].
    rewrite IH. destruct (comprehension f l1) as [bs1|]; simpl; [|reflexivity].
    destruct (comprehension f l2); reflexivity.
Qed.

(* ===================================================================== *)
(** ** The row-level type check *)
(* ===================================================================== *)

(** C9.  [_validate_type] accepts NULL for every declared type; an integer
    value exactly for INT and FLOAT columns (FLOAT widens integers); a
    floating value exactly for FLOAT columns (so INT rejects it); a string
    exactly for TEXT and DATE columns. *)
Theorem validate_type_categories (expected_type : TokenType) :
  _validate_type VNone expected_type = true
  /\ (forall z, _validate_type (VInt z) expected_type = true
                <-> expected_type = INT \/ expected_type = FLOAT)
  /\ (forall f, _validate_type (VFloat f) expected_type = true
                <-> expected_type = FLOAT)
  /\ (forall s, _validate_type (VStr s) expected_type = true
                <-> expected_type = TEXT \/ expected_type = DATE).
Proof.
  split; [reflexivity|].
  repeat split; destruct expected_type; simpl; intros;
    try discriminate; try tauto;
    repeat match goal with
           | H : _ \/ _ |- _ => destruct H
           end; discriminate.
Qed.

(* ===================================================================== *)
(** ** INSERT *)
(* ===================================================================== *)

Lemma evaluate_values_identifier (before after : list ASTNode) (n : string)
    (value_type : TokenType) :
  evaluate_values (before ++ IDENTIFIER n :: after) =
  evaluate_values (before ++ LITERAL (VStr n) value_type :: after).
Proof.
  unfold evaluate_values. rewrite !comprehension_app. reflexivity.
Qed.

Lemma execute_insert_unfold (self : Database) (table_name : string)
    (cols values : list ASTNode) (table : Table) :
  get_table self table_name = Some table ->
  _execute_insert self table_name cols values =
  match evaluate_values values with
  | Raise e => (Raise e, self)
  | Return values_to_insert =>
      match cols with
      | _ :: _ =>
          match insert_columns table table_name cols with
          | inl m => (Return (RFalse m), self)
          | inr column_indices =>
              if negb (length column_indices =? length values_to_insert)%nat
              then (Return (RFalse (ColumnValueCountMismatch
                                      (length column_indices)
                                      (length values_to_insert))), self)
              else
                insert_row self table_name table
                  (fill_row (replicate (length (columns table)) VNone)
                            column_indices values_to_insert)
          end
      | [] =>
          if negb (length values_to_insert =? length (columns table))%nat
          then (Return (RFalse (ValueCountMismatch
                                  (length (columns table))
                                  (length values_to_insert))), self)
          else insert_row self table_name table values_to_insert
      end
  end.
Proof. intros H. unfold _execute_insert. rewrite H. reflexivity. Qed.

Lemma valid_row_first_invalid (cols : list ColumnDef) (values : Row) :
  valid_row cols values ->
  length values = length cols /\ first_invalid values cols = None.
Proof.
  intros H. split; [exact (Forall2_length _ _ _ H)|].
  induction H as [|v c values cols Hv _ IH]; simpl; [reflexivity|].
  rewrite Hv. exact IH.
Qed.

(** The loop of [add_row] gets past the values that pass the check. *)
Lemma first_invalid_at (cols1 cols2 : list ColumnDef) (col : ColumnDef)
    (vs1 vs2 : Row) (v : value) :
  valid_row cols1 vs1 ->
  first_invalid (vs1 ++ v :: vs2) (cols1 ++ col :: cols2)
  = if _validate_type v (col_type col) then first_invalid vs2 cols2
    else Some col.
Proof.
  intros H. induction H as [|w c vs1 cols1 Hw _ IH]; simpl; [reflexivity|].
  rewrite Hw. exact IH.
Qed.

Lemma first_invalid_None (cols : list ColumnDef) (values : Row) :
  length values = length cols ->
  first_invalid values cols = None -> valid_row cols values.
Proof.
  revert cols. induction values as [|v values IH]; intros [|c cols] Hlen H;
    try discriminate; [constructor|].
  simpl in H. destruct (_validate_type v (col_type c)) eqn:Ev; [|discriminate].
  constructor; [exact Ev|]. apply IH; [simpl in Hlen; lia | exact H].
Qed.

Lemma first_invalid_Some (cols : list ColumnDef) (values : Row)
    (c : ColumnDef) :
  first_invalid values cols = Some c -> c ∈ cols.
Proof.
  revert cols. induction values as [|v values IH]; intros [|c' cols] H;
    try discriminate.
  simpl in H. destruct (_validate_type v (col_type c')).
  - apply elem_of_cons. right. exact (IH _ H).
  - injection H as ->. apply elem_of_cons. left. reflexivity.
Qed.

Lemma validate_type_string (s : string) (expected_type : TokenType) :
  _validate_type (VStr s) expected_type
  = bool_decide (expected_type = TEXT \/ expected_type = DATE).
Proof.
  destruct expected_type; reflexivity.
Qed.

Lemma insert_row_failed (self : Database) (table_name : string) (table : Table)
    (row : Row) (r : outcome result) (self' : Database) :
  insert_row self table_name table row = (r, self') ->
  failed r -> self' = self.
Proof.
  unfold insert_row. destruct (add_row table row) as [table' [m|[]]];
    intros H F; injection H as <- <-; [reflexivity | contradiction].
Qed.

Lemma execute_insert_failed (self : Database) (table_name : string)
    (cols values : list ASTNode) (r : outcome result) (self' : Database) :
  _execute_insert self table_name cols values = (r, self') ->
  failed r -> self' = self.
Proof.
  unfold _execute_insert.
  destruct (get_table self table_name) as [table|];
    [|intros H _; injection H as _ <-; reflexivity].
  destruct (comprehension _ values) as [vs|e];
    [|intros H _; injection H as _ <-; reflexivity].
  destruct cols as [|c cols].
  - destruct (negb _).
    + intros H _; injection H as _ <-; reflexivity.
    + apply insert_row_failed.
  - destruct (insert_columns table table_name (c :: cols)) as [m|idxs].
    + intros H _; injection H as _ <-; reflexivity.
    + destruct (negb _).
      * intros H _; injection H as _ <-; reflexivity.
      * apply insert_row_failed.
Qed.

(** C6 (as amended).  A positional INSERT into an existing table whose
    value count differs from the table's column count fails and leaves the
    catalog as it was.  The value expressions are evaluated before the
    count is looked at: when they all evaluate, the statement returns
    [False] after reporting the value-count mismatch; when one of them
    raises, the statement fails with that exception instead.  More
    generally an INSERT that fails, for whatever reason, leaves the catalog
    unchanged: no partial row is appended. *)
Theorem insert_failure_appends_nothing :
  (forall self table_name table values,
      get_table self table_name = Some table ->
      length values <> length (columns table) ->
      (forall vs, evaluate_values values = Return vs ->
                  _execute_insert self table_name [] values
                  = (Return (RFalse (ValueCountMismatch
                                       (length (columns table))
                                       (length values))), self))
      /\ (forall e, evaluate_values values = Raise e ->
                    _execute_insert self table_name [] values
                    = (Raise e, self)))
  /\ (forall self table_name cols values r self',
         _execute_insert self table_name cols values = (r, self') ->
         failed r -> self' = self).
Proof.
  split; [|exact execute_insert_failed].
  intros self table_name table values Ht Hlen.
  rewrite (execute_insert_unfold _ _ _ _ _ Ht). split.
  - intros vs E. rewrite E. apply comprehension_length in E.
    assert (Hne : (length vs =? length (columns table))%nat = false)
      by (apply Nat.eqb_neq; congruence).
    rewrite Hne, E. reflexivity.
  - intros e E. rewrite E. reflexivity.
Qed.

Lemma insert_failure_witness :
  _execute_insert example_db "t" [] [LITERAL (VInt 1) INTEGER]
  = (Return (RFalse (ValueCountMismatch 2 1)), example_db)
  /\ _execute_insert example_db "t" []
       [EXPRESSION (LITERAL (VFloat (S754_zero false)) FLOAT_LITERAL) PLUS
                   (LITERAL (VInt (2 ^ 1024)) INTEGER)]
     = (Raise OverflowError, example_db).
Proof.
  split.
  - apply (proj1 (proj1 insert_failure_appends_nothing example_db "t"
                    example_table [LITERAL (VInt 1) INTEGER]
                    eq_refl ltac:(simpl; lia)) [VInt 1]).
    reflexivity.
  - apply (proj2 (proj1 insert_failure_appends_nothing example_db "t"
                    example_table
                    [EXPRESSION (LITERAL (VFloat (S754_zero false))
                                         FLOAT_LITERAL)
                                PLUS (LITERAL (VInt (2 ^ 1024)) INTEGER)]
                    eq_refl ltac:(simpl; lia)) OverflowError).
    vm_compute. reflexivity.
Defined.

(** C6, as first stated, fails when a value expression raises:
    [INSERT INTO t VALUES (0.0 + N)], with [N] the integer [2 ^ 1024], has
    one value for two columns, yet the statement does not end in the
    count-mismatch report: converting [N] to a float raises
    [OverflowError] while the values are evaluated, before the count is
    compared. *)
Lemma insert_overflow_counterexample :
  length [EXPRESSION (LITERAL (VFloat (S754_zero false)) FLOAT_LITERAL) PLUS
                     (LITERAL (VInt (2 ^ 1024)) INTEGER)]
  <> length (columns example_table)
  /\ execute_query example_db
       (INSERT_STMT "t" []
          [EXPRESSION (LITERAL (VFloat (S754_zero false)) FLOAT_LITERAL) PLUS
                      (LITERAL (VInt (2 ^ 1024)) INTEGER)])
     = (Raise OverflowError, example_db)
  /\ Raise OverflowError
     <> Return (RFalse (ValueCountMismatch 2 1)).
Proof.
  split; [simpl; lia|]. split; [vm_compute; reflexivity | discriminate].
Qed.

Lemma index_from_bound (cols : list ColumnDef) (column_name : string)
    (i col_idx : nat) :
  index_from i cols column_name = Some col_idx ->
  (i <= col_idx < i + length cols)%nat.
Proof.
  revert i. induction cols as [|col cols IH]; simpl; intros i H.
  - discriminate.
  - destruct (String.eqb _ _).
    + injection H as <-. lia.
    + apply IH in H. lia.
Qed.

Lemma get_column_index_bound (table : Table) (column_name : string)
    (col_idx : nat) :
  get_column_index table column_name = Some col_idx ->
  (col_idx < length (columns table))%nat.
Proof. intros H. apply index_from_bound in H. lia. Qed.

Lemma insert_columns_resolves (table : Table) (table_name : string)
    (cols : list ASTNode) (column_indices : list nat) :
  insert_columns table table_name cols = inr column_indices ->
  Forall2 (resolves table) cols column_indices.
Proof.
  revert column_indices.
  induction cols as [|c cols IH]; simpl; intros idxs H.
  - injection H as <-. constructor.
  - destruct c as [n| | | |]; try discriminate.
    destruct (get_column_index table n) as [i|] eqn:Ei; [|discriminate].
    destruct (insert_columns table table_name cols) as [m|idxs'];
      [discriminate|].
    injection H as <-. constructor; [exists n; auto | apply IH; reflexivity].
Qed.

Lemma fill_row_unmentioned (column_indices : list nat) (vs : list value)
    (r : Row) (j : nat) :
  j ∉ column_indices -> fill_row r column_indices vs !! j = r !! j.
Proof.
  revert r vs. induction column_indices as [|i idxs IH]; intros r vs Hj; simpl.
  - reflexivity.
  - destruct vs as [|v vs]; [reflexivity|].
    apply not_elem_of_cons in Hj as [Hne Hj].
    rewrite IH by exact Hj. apply list_lookup_insert_ne. congruence.
Qed.

Lemma fill_row_last_wins (column_indices : list nat) (vs : list value)
    (r : Row) (k col_idx : nat) (v : value) :
  column_indices !! k = Some col_idx ->
  vs !! k = Some v ->
  (col_idx < length r)%nat ->
  (forall k', (k < k')%nat -> column_indices !! k' <> Some col_idx) ->
  fill_row r column_indices vs !! col_idx = Some v.
Proof.
  revert r vs k.
  induction column_indices as [|i idxs IH]; intros r vs k Hk Hv Hlt Hlast.
  - discriminate.
  - destruct vs as [|w vs]; [discriminate|]. simpl.
    destruct k as [|k]; simpl in Hk, Hv.
    + injection Hk as ->. injection Hv as ->.
      rewrite fill_row_unmentioned.
      * apply list_lookup_insert_eq. exact Hlt.
      * intros Hin. apply list_elem_of_lookup in Hin as [k' Hk'].
        apply (Hlast (S k')); [lia | exact Hk'].
    + apply (IH _ _ k); [exact Hk | exact Hv | |].
      * rewrite length_insert. exact Hlt.
      * intros k' Hk'. apply (Hlast (S k')). lia.
Qed.

Lemma insert_row_success (self : Database) (table_name : string)
    (table : Table) (row : Row) (m : message) (self' : Database) :
  insert_row self table_name table row = (Return (RTrue m), self') ->
  length row = length (columns table)
  /\ first_invalid row (columns table) = None
  /\ self' = <[lower table_name := with_rows table (rows table ++ [row])]> self.
Proof.
  unfold insert_row, add_row.
  destruct (length row =? length (columns table))%nat eqn:El; simpl;
    [|discriminate].
  destruct (first_invalid row (columns table)); [discriminate|].
  intros H. injection H as _ <-. apply Nat.eqb_eq in El. auto.
Qed.

(** C5 (as amended).  An INSERT with an explicit column list into an
    existing table succeeds only if the column list and the value list have
    the same length and every entry of the column list names a column of
    the table.  On success exactly one row is appended; it has the table's
    width and passes the type check, holds NULL in every column the list
    does not mention, and holds at a named column's storage index the value
    listed at the last position that names this column (so, when no column
    is named twice, every listed value is at its column's index). *)
Theorem insert_with_column_list
    (self : Database) (table_name : string) (table : Table)
    (cols values : list ASTNode) (self' : Database) :
  get_table self table_name = Some table ->
  cols <> [] ->
  _execute_insert self table_name cols values
    = (Return (RTrue RowInserted), self') ->
  exists column_indices values_to_insert row,
    length cols = length values
    /\ Forall2 (resolves table) cols column_indices
    /\ evaluate_values values = Return values_to_insert
    /\ self' = <[lower table_name := with_rows table (rows table ++ [row])]> self
    /\ length row = length (columns table)
    /\ first_invalid row (columns table) = None
    /\ (forall j, (j < length (columns table))%nat ->
                  j ∉ column_indices -> row !! j = Some VNone)
    /\ (forall k col_idx v,
           column_indices !! k = Some col_idx ->
           values_to_insert !! k = Some v ->
           (forall k', (k < k')%nat -> column_indices !! k' <> Some col_idx) ->
           row !! col_idx = Some v).
Proof.
  intros Ht Hcols H.
  rewrite (execute_insert_unfold _ _ _ _ _ Ht) in H.
  destruct (evaluate_values values) as [vs|e] eqn:Ev; [|discriminate].
  destruct cols as [|c cols]; [contradiction|].
  destruct (insert_columns table table_name (c :: cols)) as [m|idxs] eqn:Ei;
    [discriminate|].
  destruct (length idxs =? length vs)%nat eqn:El; simpl in H; [|discriminate].
  apply Nat.eqb_eq in El.
  apply insert_row_success in H as (Hlen & Hvalid & ->).
  apply insert_columns_resolves in Ei.
  exists idxs, vs, (fill_row (replicate (length (columns table)) VNone) idxs vs).
  repeat split; auto.
  - rewrite (Forall2_length _ _ _ Ei), El.
    apply (comprehension_length _ _ _ Ev).
  - intros j Hj Hnot. rewrite fill_row_unmentioned by exact Hnot.
    apply lookup_replicate_2. exact Hj.
  - intros k col_idx v Hk Hv Hlast.
    apply (fill_row_last_wins _ _ _ k); auto.
    rewrite length_replicate.
    destruct (Forall2_lookup_r _ _ _ _ _ Ei Hk) as (cn & _ & n & _ & Hn).
    exact (get_column_index_bound _ _ _ Hn).
Qed.

Lemma insert_with_column_list_witness :
  exists column_indices values_to_insert row,
    length [IDENTIFIER "id"] = length [LITERAL (VInt 2) INTEGER]
    /\ Forall2 (resolves example_table) [IDENTIFIER "id"] column_indices
    /\ evaluate_values [LITERAL (VInt 2) INTEGER] = Return values_to_insert
    /\ <["t" := with_rows example_table
                  (rows example_table ++ [[VInt 2; VNone]])]> example_db
       = <[lower "t" := with_rows example_table (rows example_table ++ [row])]>
           example_db
    /\ length row = length (columns example_table)
    /\ first_invalid row (columns example_table) = None
    /\ (forall j, (j < length (columns example_table))%nat ->
                  j ∉ column_indices -> row !! j = Some VNone)
    /\ (forall k col_idx v,
           column_indices !! k = Some col_idx ->
           values_to_insert !! k = Some v ->
           (forall k', (k < k')%nat -> column_indices !! k' <> Some col_idx) ->
           row !! col_idx = Some v).
Proof.
  apply (insert_with_column_list example_db "t" example_table
           [IDENTIFIER "id"] [LITERAL (VInt 2) INTEGER]);
    [reflexivity | discriminate | reflexivity].
Defined.

(** C5, as first stated, fails when the column list names a column twice:
    [INSERT INTO t (id, id) VALUES (1, 2)] succeeds and appends [[2, NULL]],
    so the listed value [1] is not at the storage index of [id]. *)
Lemma insert_duplicate_column_counterexample :
  _execute_insert example_db "t" [IDENTIFIER "id"; IDENTIFIER "id"]
                  [LITERAL (VInt 1) INTEGER; LITERAL (VInt 2) INTEGER]
  = (Return (RTrue RowInserted),
     <["t" := with_rows example_table
                (rows example_table ++ [[VInt 2; VNone]])]> example_db)
  /\ get_column_index example_table "id" = Some 0%nat
  /\ [VInt 2; VNone] !! 0%nat <> Some (VInt 1).
Proof. split; [reflexivity|]. split; [reflexivity|]. discriminate. Qed.

Lemma fill_row_length (column_indices : list nat) (vs : list value) (r : Row) :
  length (fill_row r column_indices vs) = length r.
Proof.
  revert r vs. induction column_indices as [|i idxs IH]; intros r vs; simpl;
    [reflexivity|].
  destruct vs as [|v vs]; [reflexivity|].
  rewrite IH. apply length_insert.
Qed.

Lemma resolves_insert_columns (table : Table) (table_name : string)
    (cols : list ASTNode) (column_indices : list nat) :
  Forall2 (resolves table) cols column_indices ->
  insert_columns table table_name cols = inr column_indices.
Proof.
  induction 1 as [|c i cols idxs (n & -> & Hn) _ IH]; simpl; [reflexivity|].
  rewrite Hn, IH. reflexivity.
Qed.

(** C10.  INSERT evaluates its VALUES with neither table nor row, so a bare
    identifier evaluates to its own name as a string and is never an
    unknown-column error; the statement behaves exactly as if a literal
    holding that string had been written.  The string is then type-checked
    against its target column like any other value.  In a positional
    INSERT whose earlier values pass the check, a column that is neither
    TEXT nor DATE refuses the row, which is reported as the type mismatch
    of that column and leaves the catalog as it was; a TEXT or DATE column
    accepts the string, and when the remaining values pass too the row
    holding the name in that position is appended.  In an INSERT with a
    column list, a target column that is neither TEXT nor DATE makes the
    statement end in a type mismatch as well, the catalog unchanged. *)
Theorem insert_identifier_is_its_name :
  (forall n, _evaluate_expression (IDENTIFIER n) None None = Return (VStr n))
  /\ (forall self table_name cols before after n value_type,
        _execute_insert self table_name cols (before ++ IDENTIFIER n :: after) =
        _execute_insert self table_name cols
                        (before ++ LITERAL (VStr n) value_type :: after))
  /\ (forall self table_name table before after n vs1 vs2 cols1 col cols2,
        get_table self table_name = Some table ->
        evaluate_values before = Return vs1 ->
        evaluate_values after = Return vs2 ->
        columns table = cols1 ++ col :: cols2 ->
        valid_row cols1 vs1 ->
        length vs2 = length cols2 ->
        (col_type col <> TEXT -> col_type col <> DATE ->
         _execute_insert self table_name [] (before ++ IDENTIFIER n :: after)
         = (Return (RFalse (TypeMismatch (col_name col) (col_type col))), self))
        /\ (col_type col = TEXT \/ col_type col = DATE ->
            valid_row cols2 vs2 ->
            _execute_insert self table_name [] (before ++ IDENTIFIER n :: after)
            = (Return (RTrue RowInserted),
               <[lower table_name :=
                  with_rows table (rows table ++ [vs1 ++ VStr n :: vs2])]>
                 self)))
  /\ (forall self table_name table cols before after n vs1 vs2
             column_indices col_idx col,
        get_table self table_name = Some table ->
        cols <> [] ->
        Forall2 (resolves table) cols column_indices ->
        evaluate_values before = Return vs1 ->
        evaluate_values after = Return vs2 ->
        length cols = length (before ++ IDENTIFIER n :: after) ->
        column_indices !! length vs1 = Some col_idx ->
        (forall k', (length vs1 < k')%nat ->
                    column_indices !! k' <> Some col_idx) ->
        columns table !! col_idx = Some col ->
        col_type col <> TEXT -> col_type col <> DATE ->
        exists c,
          c ∈ columns table
          /\ _execute_insert self table_name cols
                             (before ++ IDENTIFIER n :: after)
             = (Return (RFalse (TypeMismatch (col_name c) (col_type c))),
                self)).
Proof.
  split; [reflexivity|]. split; [|split].
  - intros self table_name cols before after n value_type.
    unfold _execute_insert. destruct (get_table self table_name); [|reflexivity].
    fold (evaluate_values (before ++ IDENTIFIER n :: after)).
    fold (evaluate_values (before ++ LITERAL (VStr n) value_type :: after)).
    rewrite (evaluate_values_identifier _ _ _ value_type). reflexivity.
  - intros self table_name table before after n vs1 vs2 cols1 col cols2
           Ht H1 H2 Hcols Hv1 Hlen2.
    assert (E : _execute_insert self table_name []
                                (before ++ IDENTIFIER n :: after)
                = match first_invalid (vs1 ++ VStr n :: vs2) (columns table) with
                  | Some c =>
                      (Return (RFalse (TypeMismatch (col_name c) (col_type c))),
                       self)
                  | None =>
                      (Return (RTrue RowInserted),
                       <[lower table_name :=
                          with_rows table
                            (rows table ++ [vs1 ++ VStr n :: vs2])]> self)
                  end).
    { rewrite (execute_insert_unfold _ _ _ _ _ Ht).
      unfold evaluate_values in *. rewrite comprehension_app, H1. simpl.
      rewrite H2. simpl.
      assert (Hlen : (length (vs1 ++ VStr n :: vs2) =? length (columns table))%nat
                     = true).
      { apply Nat.eqb_eq. rewrite Hcols, !length_app. simpl.
        rewrite (Forall2_length _ _ _ Hv1), Hlen2. reflexivity. }
      rewrite Hlen. simpl. unfold insert_row, add_row. rewrite Hlen. simpl.
      destruct (first_invalid (vs1 ++ VStr n :: vs2) (columns table));
        reflexivity. }
    rewrite E, Hcols, (first_invalid_at _ _ _ _ _ _ Hv1), validate_type_string.
    split.
    + intros Ht1 Ht2. rewrite bool_decide_eq_false_2; [reflexivity|].
      intros [H|H]; contradiction.
    + intros Hty Hv2. rewrite bool_decide_eq_true_2 by exact Hty.
      rewrite (proj2 (valid_row_first_invalid _ _ Hv2)). reflexivity.
  - intros self table_name table cols before after n vs1 vs2 idxs i col
           Ht Hne Hres H1 H2 Hlen Hk Hlast Hcol Ht1 Ht2.
    rewrite (execute_insert_unfold _ _ _ _ _ Ht).
    pose proof (comprehension_length _ _ _ H1) as L1.
    pose proof (comprehension_length _ _ _ H2) as L2.
    unfold evaluate_values in *. rewrite comprehension_app, H1. simpl.
    rewrite H2. simpl.
    destruct cols as [|c0 cols]; [contradiction|].
    rewrite (resolves_insert_columns _ table_name _ _ Hres).
    assert (El : (length idxs =? length (vs1 ++ VStr n :: vs2))%nat = true).
    { apply Nat.eqb_eq. rewrite <- (Forall2_length _ _ _ Hres), Hlen.
      rewrite !length_app. simpl. lia. }
    rewrite El. simpl. unfold insert_row, add_row.
    rewrite fill_row_length, length_replicate, Nat.eqb_refl. simpl.
    destruct (first_invalid _ (columns table)) as [c|] eqn:Ef.
    + exists c. split; [exact (first_invalid_Some _ _ _ Ef) | reflexivity].
    + exfalso. apply first_invalid_None in Ef;
        [|rewrite fill_row_length, length_replicate; reflexivity].
      assert (Hrow : fill_row (replicate (length (columns table)) VNone) idxs
                              (vs1 ++ VStr n :: vs2) !! i = Some (VStr n)).
      { apply (fill_row_last_wins _ _ _ (length vs1)); auto.
        - rewrite lookup_app_r, Nat.sub_diag by lia. reflexivity.
        - rewrite length_replicate. exact (lookup_lt_Some _ _ _ Hcol). }
      pose proof (Forall2_lookup_lr _ _ _ _ _ _ Ef Hrow Hcol) as Hv.
      cbv beta in Hv. rewrite validate_type_string in Hv.
      apply bool_decide_eq_true in Hv as [Hv|Hv]; contradiction.
Qed.

Lemma insert_identifier_witness :
  _execute_insert example_db "t" []
                  ([LITERAL (VInt 3) INTEGER] ++ IDENTIFIER "bob" :: [])
  = (Return (RTrue RowInserted),
     <[lower "t" :=
        with_rows example_table
          (rows example_table ++ [[VInt 3] ++ VStr "bob" :: []])]> example_db)
  /\ _execute_insert example_db "t" []
                     ([] ++ IDENTIFIER "bob" :: [LITERAL (VStr "x") STRING])
     = (Return (RFalse (TypeMismatch "id" INT)), example_db)
  /\ exists c,
       c ∈ columns example_table
       /\ _execute_insert example_db "t" [IDENTIFIER "id"]
                          ([] ++ IDENTIFIER "bob" :: [])
          = (Return (RFalse (TypeMismatch (col_name c) (col_type c))),
             example_db).
Proof.
  split; [|split].
  - apply (proj1 (proj2 (proj2 insert_identifier_is_its_name)) example_db "t"
             example_table [LITERAL (VInt 3) INTEGER] [] "bob" [VInt 3] []
             [mkColumnDef "id" INT] (mkColumnDef "name" TEXT) []).
    + reflexivity.
    + reflexivity.
    + reflexivity.
    + reflexivity.
    + repeat constructor.
    + reflexivity.
    + left. reflexivity.
    + constructor.
  - apply (proj1 (proj2 (proj2 insert_identifier_is_its_name)) example_db "t"
             example_table [] [LITERAL (VStr "x") STRING] "bob" [] [VStr "x"]
             [] (mkColumnDef "id" INT) [mkColumnDef "name" TEXT]).
    + reflexivity.
    + reflexivity.
    + reflexivity.
    + reflexivity.
    + constructor.
    + reflexivity.
    + discriminate.
    + discriminate.
  - apply (proj2 (proj2 (proj2 insert_identifier_is_its_name)) example_db "t"
             example_table [IDENTIFIER "id"] [] [] "bob" [] [] [0%nat] 0%nat
             (mkColumnDef "id" INT)).
    + reflexivity.
    + discriminate.
    + constructor; [|constructor]. exists "id". split; reflexivity.
    + reflexivity.
    + reflexivity.
    + reflexivity.
    + reflexivity.
    + intros [|k'] Hk'; [simpl in Hk'; lia | discriminate].
    + reflexivity.
    + discriminate.
    + discriminate.
Defined.

(* ===================================================================== *)
(** ** Expressions and conditions *)
(* ===================================================================== *)

Lemma evaluate_division_by_zero (l r : ASTNode) (table : option Table)
    (row : option Row) (left_value right_value : value) :
  _evaluate_expression l table row = Return left_value ->
  _evaluate_expression r table row = Return right_value ->
  equals_zero right_value = true ->
  _evaluate_expression (EXPRESSION l DIVIDE r) table row = Return VNone.
Proof.
  intros Hl Hr Hz. simpl. rewrite Hl. simpl. rewrite Hr. simpl.
  rewrite Hz. destruct (is_numeric left_value && is_numeric right_value);
    reflexivity.
Qed.

Lemma evaluate_comparison (l r : ASTNode) (op : TokenType) (table : Table)
    (row : Row) (left_value right_value : value) :
  op <> AND -> op <> OR -> op <> NOT ->
  _evaluate_expression l (Some table) (Some row) = Return left_value ->
  _evaluate_expression r (Some table) (Some row) = Return right_value ->
  _evaluate_condition (CONDITION (Some l) (Some op) (Some r)) table row
  = compare_values op left_value right_value.
Proof.
  intros H1 H2 H3 Hl Hr.
  destruct op; try contradiction; simpl; rewrite Hl; simpl; rewrite Hr;
    reflexivity.
Qed.

Lemma compare_values_mismatch (op : TokenType) (left_value right_value : value) :
  same_type left_value right_value = false ->
  is_numeric left_value && is_numeric right_value = false ->
  compare_values op left_value right_value = Return (PBool false).
Proof. intros Hs Hn. unfold compare_values. rewrite Hs, Hn. reflexivity. Qed.

(** C1 (as amended).  A division whose right operand is zero does not
    raise: whenever its two operands evaluate, the expression evaluates to
    NULL ([None]).  A comparison of a value other than NULL with such a
    quotient therefore evaluates to false (the operand types differ), and
    when that comparison is the whole WHERE clause the row does not
    qualify.  A SELECT, whatever it returns or raises, leaves the catalog
    as it was. *)
Theorem division_by_zero_is_null :
  (forall l r table row left_value right_value,
      _evaluate_expression l table row = Return left_value ->
      _evaluate_expression r table row = Return right_value ->
      equals_zero right_value = true ->
      _evaluate_expression (EXPRESSION l DIVIDE r) table row = Return VNone)
  /\ (forall c l r op table row cell left_value right_value,
         op <> AND -> op <> OR -> op <> NOT ->
         _evaluate_expression c (Some table) (Some row) = Return cell ->
         cell <> VNone ->
         _evaluate_expression l (Some table) (Some row) = Return left_value ->
         _evaluate_expression r (Some table) (Some row) = Return right_value ->
         equals_zero right_value = true ->
         _evaluate_condition (CONDITION (Some c) (Some op)
                                        (Some (EXPRESSION l DIVIDE r)))
                             table row
         = Return (PBool false)
         /\ qualifies (Some (CONDITION (Some c) (Some op)
                                       (Some (EXPRESSION l DIVIDE r))))
                      table row
            = Return false)
  /\ (forall self tables cols where_clause,
         snd (execute_query self (SELECT_STMT tables cols where_clause)) = self).
Proof.
  split; [exact evaluate_division_by_zero|]. split; [|reflexivity].
  intros c l r op table row cell lv rv H1 H2 H3 Hc Hcell Hl Hr Hz.
  assert (E : _evaluate_condition (CONDITION (Some c) (Some op)
                                             (Some (EXPRESSION l DIVIDE r)))
                                  table row = Return (PBool false)).
  { rewrite (evaluate_comparison _ _ _ _ _ cell VNone H1 H2 H3 Hc
               (evaluate_division_by_zero _ _ _ _ _ _ Hl Hr Hz)).
    apply compare_values_mismatch.
    - destruct cell; [contradiction|reflexivity..].
    - destruct cell; reflexivity. }
  split; [exact E|]. unfold qualifies. rewrite E. reflexivity.
Qed.

Lemma division_by_zero_witness :
  _evaluate_expression
    (EXPRESSION (LITERAL (VInt 5) INTEGER) DIVIDE (LITERAL (VInt 0) INTEGER))
    None None = Return VNone
  /\ _evaluate_condition where_id_is_5_div_0 example_table
                         [VInt 1; VStr "Alice"]
     = Return (PBool false)
  /\ qualifies (Some where_id_is_5_div_0) example_table [VInt 1; VStr "Alice"]
     = Return false.
Proof.
  split.
  - apply (proj1 division_by_zero_is_null _ _ None None (VInt 5) (VInt 0));
      reflexivity.
  - apply (proj1 (proj2 division_by_zero_is_null) _ _ _ _ _ _
             (VInt 1) (VInt 5) (VInt 0));
      (discriminate || reflexivity).
Defined.

(** C1, as first stated, fails on its own example: [SELECT id FROM t WHERE
    id = 5/0] does not fail, it returns the column [id] and no rows; and
    [INSERT INTO t VALUES (5/0, 'x')] succeeds too and appends
    [[NULL, 'x']]. *)
Lemma division_by_zero_counterexample :
  execute_query example_db
                (SELECT_STMT ["t"] [IDENTIFIER "id"] (Some where_id_is_5_div_0))
  = (Return (RRows ["id"] []), example_db)
  /\ ~ failed (Return (RRows ["id"] []))
  /\ execute_query example_db
       (INSERT_STMT "t" []
          [EXPRESSION (LITERAL (VInt 5) INTEGER) DIVIDE
                      (LITERAL (VInt 0) INTEGER);
           LITERAL (VStr "x") STRING])
     = (Return (RTrue RowInserted),
        <["t" := with_rows example_table
                   (rows example_table ++ [[VNone; VStr "x"]])]> example_db).
Proof.
  split; [reflexivity|]. split; [|reflexivity]. intros F. exact F.
Qed.

(** C2 (as amended).  A comparison whose two operands evaluate to values of
    different runtime types that are not both numeric does not fail: it
    evaluates to [False].  When that comparison is the whole WHERE clause,
    the row does not qualify. *)
Theorem comparison_type_mismatch_is_false
    (l r : ASTNode) (op : TokenType) (table : Table) (row : Row)
    (left_value right_value : value) :
  op <> AND -> op <> OR -> op <> NOT ->
  _evaluate_expression l (Some table) (Some row) = Return left_value ->
  _evaluate_expression r (Some table) (Some row) = Return right_value ->
  same_type left_value right_value = false ->
  is_numeric left_value && is_numeric right_value = false ->
  _evaluate_condition (CONDITION (Some l) (Some op) (Some r)) table row
  = Return (PBool false)
  /\ qualifies (Some (CONDITION (Some l) (Some op) (Some r))) table row
     = Return false.
Proof.
  intros H1 H2 H3 Hl Hr Hs Hn.
  assert (E : _evaluate_condition (CONDITION (Some l) (Some op) (Some r))
                                  table row = Return (PBool false)).
  { rewrite (evaluate_comparison _ _ _ _ _ _ _ H1 H2 H3 Hl Hr).
    apply compare_values_mismatch; assumption. }
  split; [exact E|]. unfold qualifies. rewrite E. reflexivity.
Qed.

Lemma comparison_type_mismatch_witness :
  _evaluate_condition where_name_is_5 example_table [VInt 1; VStr "Alice"]
  = Return (PBool false)
  /\ qualifies (Some where_name_is_5) example_table [VInt 1; VStr "Alice"]
     = Return false.
Proof.
  apply (comparison_type_mismatch_is_false _ _ _ _ _ (VStr "Alice") (VInt 5));
    (discriminate || reflexivity).
Defined.

(** C2, as first stated, fails on its own example: [SELECT id FROM t WHERE
    name = 5] on a TEXT column [name] does not fail, it succeeds with the
    condition false for every row. *)
Lemma comparison_type_mismatch_counterexample :
  execute_query example_db
                (SELECT_STMT ["t"] [IDENTIFIER "id"] (Some where_name_is_5))
  = (Return (RRows ["id"] []), example_db)
  /\ ~ failed (Return (RRows ["id"] [])).
Proof. split; [reflexivity|]. intros F. exact F. Qed.

(* ===================================================================== *)
(** ** SELECT *)
(* ===================================================================== *)

Lemma comprehension_getitem_seq {A : Type} (pre l : list A) :
  comprehension (getitem (pre ++ l)) (seq (length pre) (length l)) = Return l.
Proof.
  revert pre. induction l as [|a l IH]; intros pre; simpl; [reflexivity|].
  unfold getitem at 1.
  rewrite lookup_app_r, Nat.sub_diag by lia. simpl.
  replace (pre ++ a :: l) with ((pre ++ [a]) ++ l)
    by (rewrite <- app_assoc; reflexivity).
  replace (S (length pre)) with (length (pre ++ [a]))
    by (rewrite length_app; simpl; lia).
  rewrite IH. reflexivity.
Qed.

Lemma project_all_columns {A : Type} (row : list A) :
  comprehension (getitem row) (seq 0 (length row)) = Return row.
Proof. exact (comprehension_getitem_seq [] row). Qed.

Lemma qualifies_keeps (where_clause : option ASTNode) (table : Table)
    (row : Row) (b : bool) :
  qualifies where_clause table row = Return b -> keeps where_clause table row = b.
Proof.
  destruct where_clause as [w|]; simpl.
  - destruct (_evaluate_condition w table row); simpl; congruence.
  - congruence.
Qed.

Lemma select_rows_all_columns (where_clause : option ASTNode) (table : Table)
    (n : nat) (rows : list Row) :
  Forall (fun row => length row = n) rows ->
  Forall (fun row => exists b, qualifies where_clause table row = Return b) rows ->
  select_rows where_clause table (seq 0 n) rows
  = Return (List.filter (keeps where_clause table) rows).
Proof.
  induction rows as [|row rows IH]; intros Hlen Hq; simpl; [reflexivity|].
  apply Forall_cons in Hlen as [Hrow Hlen].
  apply Forall_cons in Hq as [[b Hb] Hq].
  rewrite Hb, (qualifies_keeps _ _ _ _ Hb), (IH Hlen Hq). simpl.
  destruct b; [|reflexivity].
  rewrite <- Hrow, project_all_columns. reflexivity.
Qed.

Lemma select_rows_raises (where_clause : option ASTNode) (table : Table)
    (n : nat) (before : list Row) (row : Row) (after : list Row) (e : exn) :
  Forall (fun row => length row = n) before ->
  Forall (fun row => exists b, qualifies where_clause table row = Return b)
         before ->
  qualifies where_clause table row = Raise e ->
  select_rows where_clause table (seq 0 n) (before ++ row :: after) = Raise e.
Proof.
  intros Hlen Hq He.
  induction before as [|r before IH]; simpl.
  - rewrite He. reflexivity.
  - apply Forall_cons in Hlen as [Hr Hlen].
    apply Forall_cons in Hq as [[b Hb] Hq].
    rewrite Hb, (IH Hlen Hq). simpl.
    destruct b; [|reflexivity].
    rewrite <- Hr, project_all_columns. reflexivity.
Qed.

Lemma non_boolean_warning_Return (operands : list pyobj) (c : pyobj) :
  non_boolean_warning operands = Return c -> c = PBool false.
Proof.
  unfold non_boolean_warning.
  destruct (existsb format_raises operands); congruence.
Qed.

Lemma condition_with_operator_is_boolean (l r : option ASTNode)
    (op : TokenType) (table : Table) (row : Row) (c : pyobj) :
  _evaluate_condition (CONDITION l (Some op) r) table row = Return c ->
  exists b, c = PBool b.
Proof.
  assert (Hcmp : forall lv rv, compare_values op lv rv = Return c ->
                               exists b, c = PBool b).
  { intros lv rv. unfold compare_values.
    destruct (negb (same_type lv rv) && negb (is_numeric lv && is_numeric rv)).
    - intros H; injection H as <-; eauto.
    - destruct op; try (intros H; injection H as <-; eauto; fail);
        destruct (py_compare lv rv); simpl;
        try discriminate; intros H; injection H as <-; eauto. }
  assert (Hlog : forall (f : bool -> bool -> bool),
             match l with
             | None => Raise KeyError
             | Some ln =>
                 let! left_eval := _evaluate_condition ln table row in
                 match r with
                 | None => Raise KeyError
                 | Some rn =>
                     let! right_eval := _evaluate_condition rn table row in
                     match left_eval, right_eval with
                     | PBool a, PBool b => Return (PBool (f a b))
                     | _, _ => non_boolean_warning [left_eval; right_eval]
                     end
                 end
             end = Return c -> exists b, c = PBool b).
  { intros f. destruct l as [ln|]; [|discriminate].
    destruct (_evaluate_condition ln table row) as [le|]; simpl; [|discriminate].
    destruct r as [rn|]; [|discriminate].
    destruct (_evaluate_condition rn table row) as [re|]; simpl; [|discriminate].
    destruct le, re; intros H;
      first [ injection H as <-; eauto
            | apply non_boolean_warning_Return in H; eauto ]. }
  assert (Hexp :
             match l with
             | None => Raise KeyError
             | Some ln =>
                 let! left_value :=
                   _evaluate_expression ln (Some table) (Some row) in
                 match r with
                 | None => Raise KeyError
                 | Some rn =>
                     let! right_value :=
                       _evaluate_expression rn (Some table) (Some row) in
                     compare_values op left_value right_value
                 end
             end = Return c -> exists b, c = PBool b).
  { destruct l as [ln|]; [|discriminate].
    destruct (_evaluate_expression ln _ _) as [lv|]; simpl; [|discriminate].
    destruct r as [rn|]; [|discriminate].
    destruct (_evaluate_expression rn _ _) as [rv|]; simpl; [|discriminate].
    apply Hcmp. }
  destruct op; try exact Hexp.
  - exact (Hlog andb).
  - exact (Hlog orb).
  - simpl. destruct r as [rn|]; [|discriminate].
    destruct (_evaluate_condition rn table row) as [re|]; simpl; [|discriminate].
    destruct re; intros H;
      first [ injection H as <-; eauto
            | apply non_boolean_warning_Return in H; eauto ].
Qed.

(** C7 (as amended).  On an existing table whose rows have the table's
    width, [SELECT *] takes the names of all columns in declared order and
    scans the rows in storage order.  When the WHERE clause raises an
    exception on some row, the statement raises it at the first such row
    and returns nothing.  Otherwise the scan keeps a row exactly when there
    is no WHERE clause or the value of the WHERE clause is truthy, and the
    statement returns the rows kept, each in full and in storage order;
    except that the statement raises [ValueError], from the line it prints
    about its result, when a cell of a row kept is an integer of more than
    4300 digits.  For a WHERE clause that is a condition node, truthy means
    the boolean true (with an operator its value is a boolean, without one
    it is NULL); a WHERE clause that is a bare expression node keeps the
    row on any non-zero number or non-empty string. *)
Theorem select_star
    (self : Database) (table_name : string) (other_tables : list string)
    (more_columns : list ASTNode) (where_clause : option ASTNode)
    (table : Table) :
  get_table self table_name = Some table ->
  Forall (fun row => length row = length (columns table)) (rows table) ->
  (Forall (fun row => exists b, qualifies where_clause table row = Return b)
          (rows table) ->
   _execute_select self (table_name :: other_tables)
                   (IDENTIFIER "*" :: more_columns) where_clause
   = if debug_print_raises
          (List.filter (keeps where_clause table) (rows table))
     then Raise ValueError
     else Return (RRows (map col_name (columns table))
                        (List.filter (keeps where_clause table) (rows table))))
  /\ (forall before row after e,
         rows table = before ++ row :: after ->
         Forall (fun row => exists b, qualifies where_clause table row = Return b)
                before ->
         qualifies where_clause table row = Raise e ->
         _execute_select self (table_name :: other_tables)
                         (IDENTIFIER "*" :: more_columns) where_clause
         = Raise e)
  /\ (forall l op r row,
         where_clause = Some (CONDITION l op r) ->
         keeps where_clause table row
         = keeps_on_boolean_true where_clause table row).
Proof.
  intros Ht Hlen. split; [|split].
  - intros Hq. unfold _execute_select. rewrite Ht. simpl.
    rewrite (select_rows_all_columns _ _ _ _ Hlen Hq). reflexivity.
  - intros before row after e Hrows Hq He.
    unfold _execute_select. rewrite Ht. simpl. rewrite Hrows in *.
    apply Forall_app in Hlen as [Hlen _].
    rewrite (select_rows_raises _ _ _ _ _ _ _ Hlen Hq He). reflexivity.
  - intros l [op|] r row ->; [|reflexivity].
    unfold keeps, keeps_on_boolean_true.
    destruct (_evaluate_condition (CONDITION l (Some op) r) table row)
      as [c|e] eqn:Hc; [|reflexivity].
    destruct (condition_with_operator_is_boolean _ _ _ _ _ _ Hc) as [b ->].
    destruct b; reflexivity.
Qed.

Lemma select_star_witness :
  _execute_select example_db ("t" :: []) (IDENTIFIER "*" :: [])
                  (Some where_id_is_1)
  = (if debug_print_raises
          (List.filter (keeps (Some where_id_is_1) example_table)
                       (rows example_table))
     then Raise ValueError
     else Return (RRows (map col_name (columns example_table))
                        (List.filter (keeps (Some where_id_is_1) example_table)
                                     (rows example_table))))
  /\ _execute_select example_db ("t" :: []) (IDENTIFIER "*" :: [])
                     (Some where_name_ge_name)
     = Raise TypeError.
Proof.
  split.
  - apply (select_star example_db "t" [] [] (Some where_id_is_1) example_table).
    + reflexivity.
    + repeat constructor.
    + constructor; [exists true; reflexivity|].
      constructor; [exists false; reflexivity|]. constructor.
  - apply (proj1 (proj2 (select_star example_db "t" [] []
                           (Some where_name_ge_name) example_table
                           eq_refl ltac:(repeat constructor)))
             [[VInt 1; VStr "Alice"]] [VInt 2; VNone] []).
    + reflexivity.
    + constructor; [exists true; reflexivity | constructor].
    + reflexivity.
Defined.

(** C7, as first stated, fails for a WHERE clause that is a plain
    expression: [SELECT * FROM t WHERE name] keeps the row whose [name] is
    ['Alice'], although the clause evaluates to that string and not to the
    boolean true. *)
Lemma select_truthy_counterexample :
  _execute_select example_db ["t"] [IDENTIFIER "*"] (Some (IDENTIFIER "name"))
  = Return (RRows ["id"; "name"] [[VInt 1; VStr "Alice"]])
  /\ _evaluate_condition (IDENTIFIER "name") example_table
                         [VInt 1; VStr "Alice"]
     = Return (PVal (VStr "Alice"))
  /\ List.filter (keeps_on_boolean_true (Some (IDENTIFIER "name")) example_table)
                 (rows example_table)
     = [].
Proof. repeat split; reflexivity. Qed.

(* ===================================================================== *)
(** ** UPDATE *)
(* ===================================================================== *)


Lemma setitem_Return {A : Type} (l l' : list A) (i : nat) (a : A) :
  setitem l i a = Return l' -> l' = <[i := a]> l.
Proof. unfold setitem. destruct (i <? length l)%nat; congruence. Qed.

Lemma setitem_in_range {A : Type} (l : list A) (i : nat) (a : A) :
  (i < length l)%nat -> setitem l i a = Return (<[i := a]> l).
Proof.
  intros H. unfold setitem. apply Nat.ltb_lt in H. rewrite H. reflexivity.
Qed.

Section InnerLoop.

Variable cols : list ColumnDef.

(** How the inner loop can end with [return False]: at the first clause
    whose value fails validation, the clauses before it being applied. *)
Lemma apply_set_clauses_stop (set_clauses : list (nat * value))
    (row row' : Row) (m : message) :
  apply_set_clauses cols set_clauses row = (row', Return (Some m)) ->
  exists done col_idx v rest col,
    set_clauses = done ++ (col_idx, v) :: rest
    /\ Forall (passes_validation cols) done
    /\ cols !! col_idx = Some col
    /\ _validate_type v (col_type col) = false
    /\ m = UpdateTypeMismatch (col_name col) (col_type col)
    /\ row' = assign done row.
Proof.
  revert row. induction set_clauses as [|[i v] cls IH]; simpl; intros row H.
  - discriminate.
  - unfold getitem in H. destruct (cols !! i) as [col|] eqn:Ec;
      [|discriminate].
    destruct (_validate_type v (col_type col)) eqn:Ev; simpl in H.
    + destruct (setitem row i v) as [r1|] eqn:Es; [|discriminate].
      apply setitem_Return in Es as ->.
      destruct (IH _ H) as (done & j & w & rest & c & -> & Hd & Hc & Hw & Hm & Hr).
      exists ((i, v) :: done), j, w, rest, c.
      repeat split; auto.
      constructor; [|exact Hd]. exists col. auto.
    + injection H as <- <-.
      exists [], i, v, cls, col. repeat split; auto.
Qed.

(** How the inner loop runs to its end: every clause passes validation and
    is applied. *)
Lemma apply_set_clauses_done (set_clauses : list (nat * value))
    (row row' : Row) :
  apply_set_clauses cols set_clauses row = (row', Return None) ->
  Forall (passes_validation cols) set_clauses /\ row' = assign set_clauses row.
Proof.
  revert row. induction set_clauses as [|[i v] cls IH]; simpl; intros row H.
  - injection H as <-. split; [constructor | reflexivity].
  - unfold getitem in H. destruct (cols !! i) as [col|] eqn:Ec;
      [|discriminate].
    destruct (_validate_type v (col_type col)) eqn:Ev; simpl in H;
      [|discriminate].
    destruct (setitem row i v) as [r1|] eqn:Es; [|discriminate].
    apply setitem_Return in Es as ->.
    destruct (IH _ H) as [Hd ->]. split; [|reflexivity].
    constructor; [|exact Hd]. exists col. auto.
Qed.

Lemma apply_set_clauses_prefix (done : list (nat * value)) (col_idx : nat)
    (v : value)
    (rest : list (nat * value)) (col : ColumnDef) (row : Row) :
  Forall (passes_validation cols) done ->
  cols !! col_idx = Some col ->
  _validate_type v (col_type col) = false ->
  length row = length cols ->
  apply_set_clauses cols (done ++ (col_idx, v) :: rest) row
  = (assign done row,
     Return (Some (UpdateTypeMismatch (col_name col) (col_type col)))).
Proof.
  intros Hd Hc Hv. revert row.
  induction Hd as [|[i w] done [c [Hi Hw]] Hd IH]; intros row Hlen; simpl.
  - unfold getitem. rewrite Hc, Hv. reflexivity.
  - simpl in Hi, Hw. unfold getitem. rewrite Hi, Hw. simpl.
    rewrite setitem_in_range
      by (rewrite Hlen; apply (lookup_lt_Some _ _ _ Hi)).
    apply IH. rewrite length_insert. exact Hlen.
Qed.

Lemma apply_set_clauses_all_pass (set_clauses : list (nat * value))
    (row row' : Row) (m : message) :
  Forall (passes_validation cols) set_clauses ->
  apply_set_clauses cols set_clauses row <> (row', Return (Some m)).
Proof.
  intros Hp H. apply apply_set_clauses_stop in H
    as (done & i & v & rest & col & -> & _ & Hc & Hv & _).
  apply Forall_app in Hp as [_ Hp]. apply Forall_cons in Hp as [[c [Hi Hw]] _].
  simpl in Hi, Hw. congruence.
Qed.

End InnerLoop.

Section Scan.

Variables (where_clause : option ASTNode) (table : Table)
          (set_clauses : list (nat * value)).

Lemma update_rows_success (rows rows' : list Row) (n n' : nat) :
  update_rows where_clause table set_clauses rows n = (rows', Return (inr n')) ->
  rows' = map (fun row => if keeps where_clause table row
                          then assign set_clauses row else row) rows
  /\ n' = (n + length (List.filter (keeps where_clause table) rows))%nat.
Proof.
  revert rows' n. induction rows as [|row rows IH]; simpl; intros rows' n H.
  - injection H as <- <-. split; [reflexivity | lia].
  - destruct (qualifies where_clause table row) as [[|]|] eqn:Eq;
      [| |discriminate]; rewrite (qualifies_keeps _ _ _ _ Eq).
    + destruct (apply_set_clauses (columns table) set_clauses row)
        as [row1 [[m|]|]] eqn:Ea; try discriminate.
      destruct (update_rows where_clause table set_clauses rows (S n))
        as [scanned ending] eqn:Eu.
      injection H as <- ->. apply IH in Eu as [-> ->].
      apply apply_set_clauses_done in Ea as [_ ->].
      split; [reflexivity | simpl; lia].
    + destruct (update_rows where_clause table set_clauses rows n)
        as [scanned ending] eqn:Eu.
      injection H as <- ->. apply IH in Eu as [-> ->].
      split; [reflexivity | lia].
Qed.

(** A scan that ends with [return False] does so at the first qualifying
    row: the rows before it did not qualify and no row after it is looked
    at. *)
Lemma update_rows_stop (rows rows' : list Row) (n : nat)
    (m : message) :
  update_rows where_clause table set_clauses rows n = (rows', Return (inl m)) ->
  exists before row after row',
    rows = before ++ row :: after
    /\ Forall (fun r => qualifies where_clause table r = Return false) before
    /\ qualifies where_clause table row = Return true
    /\ apply_set_clauses (columns table) set_clauses row = (row', Return (Some m))
    /\ rows' = before ++ row' :: after.
Proof.
  revert rows' n. induction rows as [|row rows IH]; simpl; intros rows' n H.
  - discriminate.
  - destruct (qualifies where_clause table row) as [[|]|] eqn:Eq;
      [| |discriminate].
    + destruct (apply_set_clauses (columns table) set_clauses row)
        as [row1 [[m'|]|]] eqn:Ea; try discriminate.
      * injection H as <- <-.
        exists [], row, rows, row1. repeat split; auto.
      * destruct (update_rows where_clause table set_clauses rows (S n))
          as [scanned ending] eqn:Eu.
        injection H as <- ->.
        apply IH in Eu as (b & r & a & r' & _ & _ & _ & Hstop & _).
        apply apply_set_clauses_done in Ea as [Hpass _].
        exfalso. exact (apply_set_clauses_all_pass _ _ _ _ _ Hpass Hstop).
    + destruct (update_rows where_clause table set_clauses rows n)
        as [scanned ending] eqn:Eu.
      injection H as <- ->.
      apply IH in Eu as (b & r & a & r' & -> & Hb & Hr & Hstop & ->).
      exists (row :: b), r, a, r'. repeat split; auto.
Qed.

Lemma update_rows_first_qualifying (before : list Row) (row : Row)
    (after : list Row) (row' : Row)
    (m : message) (n : nat) :
  Forall (fun r => qualifies where_clause table r = Return false) before ->
  qualifies where_clause table row = Return true ->
  apply_set_clauses (columns table) set_clauses row = (row', Return (Some m)) ->
  update_rows where_clause table set_clauses (before ++ row :: after) n
  = (before ++ row' :: after, Return (inl m)).
Proof.
  intros Hb Hr Ha. induction Hb as [|r before Hq Hb IH]; simpl.
  - rewrite Hr, Ha. reflexivity.
  - rewrite Hq, IH. reflexivity.
Qed.

End Scan.

Lemma execute_update_unfold (self : Database) (table_name : string)
    (set_nodes : list (ASTNode * ASTNode)) (where_clause : option ASTNode)
    (table : Table) (set_clauses : list (nat * value)) :
  get_table self table_name = Some table ->
  resolve_set_clauses table table_name set_nodes = Return (inr set_clauses) ->
  _execute_update self table_name set_nodes where_clause =
  let '(rows', ending) :=
    update_rows where_clause table set_clauses (rows table) 0 in
  let self' := <[lower table_name := with_rows table rows']> self in
  match ending with
  | Raise e => (Raise e, self')
  | Return (inl m) => (Return (RFalse m), self')
  | Return (inr rows_updated) =>
      (Return (RTrue (RowsUpdated rows_updated)), self')
  end.
Proof. intros Ht Hr. unfold _execute_update. rewrite Ht, Hr. reflexivity. Qed.








(** C4 (as amended).  The values an UPDATE assigns are fixed before the
    scan, so a SET value that fails type validation fails at the first
    qualifying row.  The statement then stops at once and returns [False]
    after reporting the type mismatch, with no rows-affected count; the
    rows before that row did not qualify and are unchanged, the rows after
    it are not looked at, and the row itself keeps the assignments of the
    SET clauses that precede the failing one: the update is not atomic. *)
Theorem update_type_failure
    (self : Database) (table_name : string) (table : Table)
    (set_nodes : list (ASTNode * ASTNode)) (set_clauses : list (nat * value))
    (where_clause : option ASTNode) :
  get_table self table_name = Some table ->
  resolve_set_clauses table table_name set_nodes = Return (inr set_clauses) ->
  (forall done col_idx v rest col before row after,
      set_clauses = done ++ (col_idx, v) :: rest ->
      Forall (passes_validation (columns table)) done ->
      columns table !! col_idx = Some col ->
      _validate_type v (col_type col) = false ->
      rows table = before ++ row :: after ->
      Forall (fun r => qualifies where_clause table r = Return false) before ->
      qualifies where_clause table row = Return true ->
      length row = length (columns table) ->
      _execute_update self table_name set_nodes where_clause
      = (Return (RFalse (UpdateTypeMismatch (col_name col) (col_type col))),
         <[lower table_name :=
            with_rows table (before ++ assign done row :: after)]> self))
  /\ (forall m self',
         _execute_update self table_name set_nodes where_clause
           = (Return (RFalse m), self') ->
         exists done col_idx v rest col before row after,
           set_clauses = done ++ (col_idx, v) :: rest
           /\ Forall (passes_validation (columns table)) done
           /\ columns table !! col_idx = Some col
           /\ _validate_type v (col_type col) = false
           /\ m = UpdateTypeMismatch (col_name col) (col_type col)
           /\ rows table = before ++ row :: after
           /\ Forall (fun r => qualifies where_clause table r = Return false)
                     before
           /\ qualifies where_clause table row = Return true
           /\ self' = <[lower table_name :=
                         with_rows table (before ++ assign done row :: after)]>
                        self).
Proof.
  intros Ht Hres. split.
  - intros done col_idx v rest col before row after -> Hd Hc Hv Hrows Hb Hq Hlen.
    rewrite (execute_update_unfold _ _ _ _ _ _ Ht Hres), Hrows.
    rewrite (update_rows_first_qualifying _ _ _ _ _ _ _ _ _ Hb Hq
               (apply_set_clauses_prefix _ _ _ _ rest _ _ Hd Hc Hv Hlen)).
    reflexivity.
  - intros m self' H.
    rewrite (execute_update_unfold _ _ _ _ _ _ Ht Hres) in H.
    destruct (update_rows where_clause table set_clauses (rows table) 0)
      as [rows' [[m'|n']|]] eqn:Eu; try discriminate.
    injection H as <- <-.
    apply update_rows_stop in Eu
      as (before & row & after & row' & Hrows & Hb & Hq & Hstop & ->).
    apply apply_set_clauses_stop in Hstop
      as (done & i & v & rest & col & -> & Hd & Hc & Hv & -> & ->).
    exists done, i, v, rest, col, before, row, after.
    repeat split; auto.
Qed.

Lemma update_type_failure_witness :
  _execute_update example_db "t" set_name_then_bad_id None
  = (Return (RFalse (UpdateTypeMismatch "id" INT)),
     <[lower "t" :=
        with_rows example_table
          ([] ++ assign [(1%nat, VStr "Bob")] [VInt 1; VStr "Alice"]
              :: [[VInt 2; VNone]])]> example_db).
Proof.
  apply (proj1 (update_type_failure example_db "t" example_table
                  set_name_then_bad_id
                  [(1%nat, VStr "Bob"); (0%nat, VStr "x")] None
                  eq_refl eq_refl)
           [(1%nat, VStr "Bob")] 0%nat (VStr "x") []
           (mkColumnDef "id" INT) [] [VInt 1; VStr "Alice"] [[VInt 2; VNone]]).
  - reflexivity.
  - constructor; [|constructor].
    exists (mkColumnDef "name" TEXT). split; reflexivity.
  - reflexivity.
  - reflexivity.
  - reflexivity.
  - constructor.
  - reflexivity.
  - reflexivity.
Defined.

(** C4, as first stated, fails on [UPDATE t SET name = 'Bob', id = 'x']:
    the statement returns [False] and reports no rows-affected count at
    all, while the first row has already been given the name ['Bob']. *)
Lemma update_type_failure_counterexample :
  execute_query example_db (UPDATE_STMT "t" set_name_then_bad_id None)
  = (Return (RFalse (UpdateTypeMismatch "id" INT)),
     <["t" := with_rows example_table
                [[VInt 1; VStr "Bob"]; [VInt 2; VNone]]]> example_db)
  /\ (forall n, Return (RFalse (UpdateTypeMismatch "id" INT))
                <> Return (RTrue (RowsUpdated n)))
  /\ rows example_table <> [[VInt 1; VStr "Bob"]; [VInt 2; VNone]].
Proof. split; [reflexivity|]. split; [intros n|]; discriminate. Qed.

(* ===================================================================== *)
(** ** The invariants of the catalog *)
(* ===================================================================== *)

Lemma validate_type_satisfies (v : value) (declared : TokenType) :
  _validate_type v declared = true -> v <> VNone -> satisfies v declared.
Proof.
  destruct v, declared; simpl; intros H Hn;
    try discriminate; try contradiction; eauto.
Qed.

Lemma valid_row_well_typed (cols : list ColumnDef) (row : Row) :
  valid_row cols row -> row_well_typed cols row.
Proof.
  intros H. split; [exact (Forall2_length _ _ _ H)|].
  intros i v col Hv Hc Hn.
  apply validate_type_satisfies; [|exact Hn].
  exact (Forall2_lookup_lr _ _ _ _ _ _ H Hv Hc).
Qed.

Lemma valid_row_setitem (cols : list ColumnDef) (row : Row) (i : nat)
    (v : value) (col : ColumnDef) :
  valid_row cols row -> cols !! i = Some col ->
  _validate_type v (col_type col) = true ->
  valid_row cols (<[i := v]> row).
Proof.
  intros H Hc Hv. unfold valid_row.
  rewrite <- (list_insert_id cols i col Hc).
  apply Forall2_insert; assumption.
Qed.

Lemma apply_set_clauses_valid (cols : list ColumnDef)
    (set_clauses : list (nat * value)) (row : Row) :
  valid_row cols row ->
  valid_row cols (fst (apply_set_clauses cols set_clauses row)).
Proof.
  revert row. induction set_clauses as [|[i v] cls IH]; simpl; intros row H.
  - exact H.
  - unfold getitem. destruct (cols !! i) as [col|] eqn:Ec; [|exact H].
    destruct (_validate_type v (col_type col)) eqn:Ev; simpl; [|exact H].
    unfold setitem. destruct (i <? length row)%nat; [|exact H].
    apply IH. exact (valid_row_setitem _ _ _ _ _ H Ec Ev).
Qed.

Lemma update_rows_valid (where_clause : option ASTNode) (table : Table)
    (set_clauses : list (nat * value)) (rows : list Row) (n : nat) :
  Forall (valid_row (columns table)) rows ->
  Forall (valid_row (columns table))
         (fst (update_rows where_clause table set_clauses rows n)).
Proof.
  revert n. induction rows as [|row rows IH]; simpl; intros n H.
  - constructor.
  - apply Forall_cons in H as [Hrow Hrows].
    destruct (qualifies where_clause table row) as [[|]|].
    + pose proof (apply_set_clauses_valid (columns table) set_clauses row Hrow)
        as Hv.
      destruct (apply_set_clauses (columns table) set_clauses row)
        as [row' [[m|]|]]; simpl in Hv.
      * constructor; assumption.
      * specialize (IH (S n) Hrows).
        destruct (update_rows where_clause table set_clauses rows (S n)).
        constructor; assumption.
      * constructor; assumption.
    + specialize (IH n Hrows).
      destruct (update_rows where_clause table set_clauses rows n).
      constructor; assumption.
    + constructor; assumption.
Qed.

Lemma delete_rows_valid (P : Row -> Prop) (where_clause : option ASTNode)
    (table : Table) (rows rows_to_keep : list Row) (rows_deleted : nat) :
  delete_rows where_clause table rows = Return (rows_to_keep, rows_deleted) ->
  Forall P rows -> Forall P rows_to_keep.
Proof.
  revert rows_to_keep rows_deleted.
  induction rows as [|row rows IH]; simpl; intros kept n H HP.
  - injection H as <- <-. constructor.
  - apply Forall_cons in HP as [Hrow Hrows].
    apply bind_Return in H as (keep & _ & H).
    apply bind_Return in H as ([kept' n'] & Hrest & H).
    specialize (IH _ _ Hrest Hrows).
    destruct keep; injection H as <- <-; [constructor|]; assumption.
Qed.

Lemma stored_well_replace (self : Database) (table_name : string)
    (table table' : Table) :
  stored_well self ->
  get_table self table_name = Some table ->
  name table' = name table ->
  Forall (valid_row (columns table')) (rows table') ->
  stored_well (<[lower table_name := table']> self).
Proof.
  intros Hw Ht Hn Hrows k t Hk.
  destruct (decide (lower table_name = k)) as [<-|Hne].
  - rewrite lookup_insert_eq in Hk. injection Hk as <-.
    split; [|exact Hrows]. rewrite Hn. exact (proj1 (Hw _ _ Ht)).
  - rewrite lookup_insert_ne in Hk by exact Hne. exact (Hw _ _ Hk).
Qed.

Lemma execute_insert_stored_well (self : Database) (table_name : string)
    (cols values : list ASTNode) :
  stored_well self ->
  stored_well (snd (_execute_insert self table_name cols values)).
Proof.
  intros Hw. unfold _execute_insert.
  destruct (get_table self table_name) as [table|] eqn:Ht; [|exact Hw].
  assert (Hrow : forall row,
             stored_well (snd (insert_row self table_name table row))).
  { intros row. unfold insert_row, add_row.
    destruct (length row =? length (columns table))%nat eqn:El; simpl;
      [|exact Hw].
    destruct (first_invalid row (columns table)) eqn:Ef; simpl; [exact Hw|].
    apply (stored_well_replace _ _ table); auto. simpl.
    apply Forall_app. split; [exact (proj2 (Hw _ _ Ht))|].
    constructor; [|constructor].
    apply first_invalid_None; [apply Nat.eqb_eq; exact El | exact Ef]. }
  destruct (comprehension _ values) as [vs|]; [|exact Hw].
  destruct cols as [|c cols].
  - destruct (negb _); [exact Hw | apply Hrow].
  - destruct (insert_columns table table_name (c :: cols)); [exact Hw|].
    destruct (negb _); [exact Hw | apply Hrow].
Qed.

Lemma execute_update_stored_well (self : Database) (table_name : string)
    (set_nodes : list (ASTNode * ASTNode)) (where_clause : option ASTNode) :
  stored_well self ->
  stored_well (snd (_execute_update self table_name set_nodes where_clause)).
Proof.
  intros Hw. unfold _execute_update.
  destruct (get_table self table_name) as [table|] eqn:Ht; [|exact Hw].
  destruct (resolve_set_clauses table table_name set_nodes)
    as [[m|set_clauses]|]; [exact Hw| |exact Hw].
  pose proof (update_rows_valid where_clause table set_clauses (rows table) 0
                (proj2 (Hw _ _ Ht))) as Hv.
  destruct (update_rows where_clause table set_clauses (rows table) 0)
    as [rows' ending]. simpl in Hv.
  assert (Hs : stored_well (<[lower table_name := with_rows table rows']> self))
    by (apply (stored_well_replace _ _ table); auto).
  destruct ending as [[m|n]|]; exact Hs.
Qed.

Lemma execute_delete_stored_well (self : Database) (table_name : string)
    (where_clause : option ASTNode) :
  stored_well self ->
  stored_well (snd (_execute_delete self table_name where_clause)).
Proof.
  intros Hw. unfold _execute_delete.
  destruct (get_table self table_name) as [table|] eqn:Ht; [|exact Hw].
  destruct (delete_rows where_clause table (rows table))
    as [[rows_to_keep rows_deleted]|] eqn:Ed; [|exact Hw].
  simpl. apply (stored_well_replace _ _ table); auto. simpl.
  exact (delete_rows_valid _ _ _ _ _ _ Ed (proj2 (Hw _ _ Ht))).
Qed.

Lemma execute_create_stored_well (self : Database) (table_name : string)
    (cols : list (ASTNode * TokenType)) (title : option string) :
  stored_well self ->
  stored_well (snd (_execute_create self table_name cols title)).
Proof.
  intros Hw. unfold _execute_create.
  destruct (create_columns cols) as [m|columns]; [exact Hw|].
  unfold create_table.
  destruct (self !! lower table_name) as [existing|] eqn:El; [exact Hw|]. simpl.
  intros k t Hk. destruct (decide (lower table_name = k)) as [<-|Hne].
  - rewrite lookup_insert_eq in Hk. injection Hk as <-. simpl.
    split; [reflexivity | constructor].
  - rewrite lookup_insert_ne in Hk by exact Hne. exact (Hw _ _ Hk).
Qed.

Lemma execute_drop_stored_well (self : Database) (table_name : string) :
  stored_well self -> stored_well (snd (_execute_drop self table_name)).
Proof.
  intros Hw. unfold _execute_drop, drop_table.
  destruct (self !! lower table_name) as [existing|]; [|exact Hw]. simpl.
  intros k t Hk. apply lookup_delete_Some in Hk as [_ Hk]. exact (Hw _ _ Hk).
Qed.

Lemma execute_query_stored_well (self : Database) (ast : Statement) :
  stored_well self -> stored_well (snd (execute_query self ast)).
Proof.
  intros Hw. destruct ast; simpl; try exact Hw.
  - apply execute_insert_stored_well, Hw.
  - apply execute_update_stored_well, Hw.
  - apply execute_delete_stored_well, Hw.
  - apply execute_create_stored_well, Hw.
  - apply execute_drop_stored_well, Hw.
Qed.

Lemma reachable_stored_well (db : Database) : reachable db -> stored_well db.
Proof.
  induction 1 as [|db ast r db' _ IH Hstep].
  - intros k t Hk. rewrite lookup_empty in Hk. discriminate.
  - pose proof (execute_query_stored_well db ast IH) as Hs.
    rewrite Hstep in Hs. exact Hs.
Qed.

(** C8.  Every catalog reachable from the empty one by executing
    statements (CREATE, DROP, INSERT, UPDATE, DELETE, and SELECT too;
    whether they succeed, return [False] or raise) satisfies the
    invariants: no two tables have the same name up to letter case, every
    row has as many cells as its table has columns, and every cell that is
    not NULL satisfies the declared type of its column. *)
Theorem reachable_catalog_invariant (db : Database) :
  reachable db -> catalog_invariant db.
Proof.
  intros Hr. apply reachable_stored_well in Hr. split.
  - intros k1 k2 t1 t2 H1 H2 Hn.
    rewrite (proj1 (Hr _ _ H1)), (proj1 (Hr _ _ H2)). exact Hn.
  - intros k t Hk. apply (Forall_impl _ _ _ (proj2 (Hr _ _ Hk))).
    intros row. apply valid_row_well_typed.
Qed.

Lemma example_db_reachable : reachable example_db.
Proof.
  apply (reachable_step
           {[ "t" := with_rows example_table [[VInt 1; VStr "Alice"]] ]}
           (INSERT_STMT "t" [IDENTIFIER "id"] [LITERAL (VInt 2) INTEGER])
           (Return (RTrue RowInserted)));
    [|reflexivity].
  apply (reachable_step
           {[ "t" := with_rows example_table [] ]}
           (INSERT_STMT "t" [] [LITERAL (VInt 1) INTEGER;
                                LITERAL (VStr "Alice") STRING])
           (Return (RTrue RowInserted)));
    [|reflexivity].
  apply (reachable_step ∅
           (CREATE_STMT "t" [(IDENTIFIER "id", INT); (IDENTIFIER "name", TEXT)]
                        None)
           (Return (RTrue (TableCreated "t"))));
    [|reflexivity].
  apply reachable_empty.
Defined.

Lemma reachable_catalog_invariant_witness : catalog_invariant example_db.
Proof. exact (reachable_catalog_invariant example_db example_db_reachable). Defined.

(* ===================================================================== *)
(** ** The catalog: [create_table], [drop_table], [get_table] *)
(* ===================================================================== *)

Lemma create_table_fresh (self : Database) (table_name : string)
    (cols : list ColumnDef) (table_title : option string) :
  get_table self table_name = None ->
  exists t,
    create_table self table_name cols table_title
    = (<[lower table_name := t]> self, true)
    /\ name t = table_name /\ columns t = cols /\ rows t = [].
Proof.
  unfold get_table, create_table. intros ->.
  eexists. split; [reflexivity|]. simpl. auto.
Qed.

(** X1.  Creating a table under a name the catalog does not know succeeds;
    afterwards [get_table] finds the new, empty table under every spelling
    of the name that differs only in letter case, and answers for every
    other name what it answered before. *)
Theorem create_table_then_get_table
    (self : Database) (table_name : string) (cols : list ColumnDef)
    (table_title : option string) :
  get_table self table_name = None ->
  snd (create_table self table_name cols table_title) = true
  /\ exists t,
      name t = table_name /\ columns t = cols /\ rows t = []
      /\ (forall other, lower other = lower table_name ->
            get_table (fst (create_table self table_name cols table_title))
                      other = Some t)
      /\ (forall other, lower other <> lower table_name ->
            get_table (fst (create_table self table_name cols table_title))
                      other = get_table self other).
Proof.
  intros Hfresh.
  destruct (create_table_fresh _ _ cols table_title Hfresh)
    as (t & -> & Hn & Hc & Hr).
  split; [reflexivity|]. exists t. repeat split; auto; cbn [fst].
  - intros other Ho. unfold get_table. rewrite Ho. apply lookup_insert_eq.
  - intros other Hne. unfold get_table. apply lookup_insert_ne. congruence.
Qed.

Lemma create_table_then_get_table_witness :
  snd (create_table example_db "Orders" [mkColumnDef "id" INT] None) = true
  /\ exists t,
      name t = "Orders" /\ columns t = [mkColumnDef "id" INT] /\ rows t = []
      /\ (forall other, lower other = lower "Orders" ->
            get_table (fst (create_table example_db "Orders"
                                         [mkColumnDef "id" INT] None))
                      other = Some t)
      /\ (forall other, lower other <> lower "Orders" ->
            get_table (fst (create_table example_db "Orders"
                                         [mkColumnDef "id" INT] None))
                      other = get_table example_db other).
Proof.
  apply (create_table_then_get_table example_db "Orders"). reflexivity.
Defined.

(** X2.  CREATE TABLE followed by DROP TABLE is the identity on the
    catalog: when the name is new and every column name is an identifier,
    the CREATE statement returns [True], and a DROP statement that spells
    the name in any letter case then returns [True] and leaves exactly the
    catalog there was before the CREATE. *)
Theorem create_then_drop_restores
    (self : Database) (table_name dropped : string)
    (cols : list (ASTNode * TokenType)) (defs : list ColumnDef)
    (table_title : option string) :
  get_table self table_name = None ->
  create_columns cols = inr defs ->
  lower dropped = lower table_name ->
  exists created,
    execute_query self (CREATE_STMT table_name cols table_title)
    = (Return (RTrue (TableCreated table_name)), created)
    /\ execute_query created (DROP_STMT dropped)
       = (Return (RTrue (TableDropped dropped)), self).
Proof.
  intros Hfresh Hcols Hlow. simpl. unfold _execute_create. rewrite Hcols.
  destruct (create_table_fresh _ _ defs table_title Hfresh) as (t & -> & _).
  eexists. split; [reflexivity|].
  unfold _execute_drop, drop_table. rewrite Hlow, lookup_insert_eq.
  rewrite delete_insert_eq. unfold get_table in Hfresh.
  rewrite (delete_id _ _ Hfresh). reflexivity.
Qed.

Lemma create_then_drop_restores_witness :
  exists created,
    execute_query example_db
                  (CREATE_STMT "Orders" [(IDENTIFIER "id", INT)] None)
    = (Return (RTrue (TableCreated "Orders")), created)
    /\ execute_query created (DROP_STMT "ORDERS")
       = (Return (RTrue (TableDropped "ORDERS")), example_db).
Proof.
  apply (create_then_drop_restores example_db "Orders" "ORDERS"
           [(IDENTIFIER "id", INT)] [mkColumnDef "id" INT] None);
    reflexivity.
Defined.

(** X3.  A statement that names a table the catalog does not hold fails
    and changes nothing, whatever else it contains: SELECT, INSERT, UPDATE
    and DELETE return [False] after reporting that the table was not found
    (no value, SET or WHERE expression is evaluated), and DROP returns
    [False] after reporting that the table does not exist. *)
Theorem unknown_table_fails
    (self : Database) (table_name : string) :
  get_table self table_name = None ->
  (forall more cols where_clause,
      execute_query self (SELECT_STMT (table_name :: more) cols where_clause)
      = (Return (RFalse (TableNotFound table_name)), self))
  /\ (forall cols values,
         execute_query self (INSERT_STMT table_name cols values)
         = (Return (RFalse (TableNotFound table_name)), self))
  /\ (forall set_nodes where_clause,
         execute_query self (UPDATE_STMT table_name set_nodes where_clause)
         = (Return (RFalse (TableNotFound table_name)), self))
  /\ (forall where_clause,
         execute_query self (DELETE_STMT table_name where_clause)
         = (Return (RFalse (TableNotFound table_name)), self))
  /\ execute_query self (DROP_STMT table_name)
     = (Return (RFalse (TableDoesNotExist table_name)), self).
Proof.
  intros H. repeat split; intros; simpl;
    unfold _execute_select, _execute_insert, _execute_update,
           _execute_delete, _execute_drop, drop_table;
    try rewrite H; try reflexivity.
  unfold get_table in H. rewrite H. reflexivity.
Qed.

Lemma unknown_table_fails_witness :
  (forall more cols where_clause,
      execute_query example_db (SELECT_STMT ("u" :: more) cols where_clause)
      = (Return (RFalse (TableNotFound "u")), example_db))
  /\ (forall cols values,
         execute_query example_db (INSERT_STMT "u" cols values)
         = (Return (RFalse (TableNotFound "u")), example_db))
  /\ (forall set_nodes where_clause,
         execute_query example_db (UPDATE_STMT "u" set_nodes where_clause)
         = (Return (RFalse (TableNotFound "u")), example_db))
  /\ (forall where_clause,
         execute_query example_db (DELETE_STMT "u" where_clause)
         = (Return (RFalse (TableNotFound "u")), example_db))
  /\ execute_query example_db (DROP_STMT "u")
     = (Return (RFalse (TableDoesNotExist "u")), example_db).
Proof. apply (unknown_table_fails example_db "u"). reflexivity. Defined.

(* ===================================================================== *)
(** ** [Table]: [get_column_index] and [add_row] *)
(* ===================================================================== *)

Lemma index_from_spec (cols : list ColumnDef) (column_name : string) (i : nat) :
  match index_from i cols column_name with
  | Some k =>
      exists j col,
        k = (i + j)%nat
        /\ cols !! j = Some col
        /\ lower (col_name col) = lower column_name
        /\ forall j' col', (j' < j)%nat -> cols !! j' = Some col' ->
                           lower (col_name col') <> lower column_name
  | None =>
      Forall (fun col => lower (col_name col) <> lower column_name) cols
  end.
Proof.
  revert i. induction cols as [|c cols IH]; intros i; simpl.
  - constructor.
  - destruct (String.eqb (lower (col_name c)) (lower column_name)) eqn:E.
    + apply String.eqb_eq in E. exists 0%nat, c.
      split; [lia|]. split; [reflexivity|]. split; [exact E|].
      intros j' col' Hj. lia.
    + apply String.eqb_neq in E. specialize (IH (S i)).
      destruct (index_from (S i) cols column_name) as [k|].
      * destruct IH as (j & col & -> & Hj & Hcol & Hfirst).
        exists (S j), col.
        split; [lia|]. split; [exact Hj|]. split; [exact Hcol|].
        intros [|j'] col' Hlt Hc'; simpl in Hc'.
        -- injection Hc' as <-. exact E.
        -- apply (Hfirst j'); [lia | exact Hc'].
      * constructor; assumption.
Qed.

(** X4.  [get_column_index] is a case-insensitive search for the first
    match: an index it returns is that of a column whose name equals the
    searched one up to letter case, no column before it does, and the
    answer is "not found" exactly when no column of the table matches.
    Two spellings of a name that differ only in letter case get the same
    answer. *)
Theorem get_column_index_first_match (table : Table) (column_name : string) :
  match get_column_index table column_name with
  | Some i =>
      exists col,
        columns table !! i = Some col
        /\ lower (col_name col) = lower column_name
        /\ forall j col', (j < i)%nat -> columns table !! j = Some col' ->
                          lower (col_name col') <> lower column_name
  | None =>
      forall col, col ∈ columns table ->
                  lower (col_name col) <> lower column_name
  end
  /\ forall other, lower other = lower column_name ->
                   get_column_index table other
                   = get_column_index table column_name.
Proof.
  split.
  - unfold get_column_index.
    pose proof (index_from_spec (columns table) column_name 0) as H.
    destruct (index_from 0 (columns table) column_name) as [k|].
    + destruct H as (j & col & -> & Hj & Hcol & Hfirst).
      exists col. split; [exact Hj|]. split; [exact Hcol | exact Hfirst].
    + intros col Hin. exact (proj1 (Forall_forall _ _) H col Hin).
  - intros other Ho. unfold get_column_index. generalize 0%nat.
    induction (columns table) as [|c cols IH]; intros i; simpl.
    + reflexivity.
    + rewrite Ho, IH. reflexivity.
Qed.

(** X5.  [add_row] accepts exactly the rows that have one value per column,
    each passing the type check of its column: such a row is appended after
    the rows already stored and nothing else of the table changes; any
    other row is refused with an error and the table is left as it was. *)
Theorem add_row_accepts_exactly_valid_rows (self : Table) (values : Row) :
  (valid_row (columns self) values ->
   add_row self values = (with_rows self (rows self ++ [values]), inr tt))
  /\ (~ valid_row (columns self) values ->
      exists m, add_row self values = (self, inl m)).
Proof.
  unfold add_row. split.
  - intros H. apply valid_row_first_invalid in H as [Hlen Hnone].
    apply Nat.eqb_eq in Hlen. rewrite Hlen, Hnone. reflexivity.
  - intros Hnot.
    destruct (length values =? length (columns self))%nat eqn:El; simpl;
      [|eauto].
    destruct (first_invalid values (columns self)) as [c|] eqn:Ef; [eauto|].
    exfalso. apply Hnot, first_invalid_None; [|exact Ef].
    apply Nat.eqb_eq. exact El.
Qed.

Lemma add_row_accepts_exactly_valid_rows_witness :
  add_row example_table [VInt 3; VNone]
  = (with_rows example_table (rows example_table ++ [[VInt 3; VNone]]), inr tt)
  /\ exists m, add_row example_table [VStr "x"; VNone] = (example_table, inl m).
Proof.
  split.
  - apply (proj1 (add_row_accepts_exactly_valid_rows example_table
                    [VInt 3; VNone])).
    repeat constructor.
  - apply (proj2 (add_row_accepts_exactly_valid_rows example_table
                    [VStr "x"; VNone])).
    intros H. apply Forall2_cons_1 in H as [H _]. discriminate H.
Defined.

(* ===================================================================== *)
(** ** Evaluation looks at the columns of the table only *)
(* ===================================================================== *)

Lemma evaluate_expression_columns (e : ASTNode) (t t' : Table)
    (row : option Row) :
  columns t = columns t' ->
  _evaluate_expression e (Some t) row = _evaluate_expression e (Some t') row.
Proof.
  intros Hc. induction e as [n|v|l IHl op r IHr|l op r|]; simpl;
    try reflexivity.
  - unfold get_column_index. rewrite Hc. reflexivity.
  - rewrite IHl, IHr. reflexivity.
Qed.

Lemma evaluate_condition_columns (t t' : Table) (row : Row) :
  columns t = columns t' ->
  forall w, _evaluate_condition w t row = _evaluate_condition w t' row.
Proof.
  intros Hc. fix IH 1. intros w.
  assert (He : forall e,
             (let! v := _evaluate_expression e (Some t) (Some row) in
              Return (PVal v))
             = (let! v := _evaluate_expression e (Some t') (Some row) in
                Return (PVal v)))
    by (intros e; rewrite (evaluate_expression_columns e t t' _ Hc);
        reflexivity).
  destruct w as [n|v|l op r|l [op|] r|];
    [exact (He _) | exact (He _) | exact (He _) | | exact (He _) | exact (He _)].
  destruct op;
    try (simpl; destruct l as [ln|]; [|reflexivity];
         rewrite (evaluate_expression_columns ln t t' _ Hc);
         destruct r as [rn|]; [|reflexivity];
         rewrite (evaluate_expression_columns rn t t' _ Hc); reflexivity).
  - simpl. destruct l as [ln|]; [|reflexivity]. rewrite (IH ln).
    destruct r as [rn|]; [|reflexivity]. rewrite (IH rn). reflexivity.
  - simpl. destruct l as [ln|]; [|reflexivity]. rewrite (IH ln).
    destruct r as [rn|]; [|reflexivity]. rewrite (IH rn). reflexivity.
  - simpl. destruct r as [rn|]; [|reflexivity]. rewrite (IH rn). reflexivity.
Qed.

Lemma qualifies_columns (where_clause : option ASTNode) (t t' : Table)
    (row : Row) :
  columns t = columns t' ->
  qualifies where_clause t row = qualifies where_clause t' row.
Proof.
  intros Hc. destruct where_clause as [w|]; simpl; [|reflexivity].
  rewrite (evaluate_condition_columns t t' row Hc w). reflexivity.
Qed.

(* ===================================================================== *)
(** ** DELETE *)
(* ===================================================================== *)

Lemma delete_rows_filter (where_clause : option ASTNode) (table : Table)
    (rows : list Row) :
  Forall (fun row => exists b, qualifies where_clause table row = Return b)
         rows ->
  delete_rows where_clause table rows
  = Return (List.filter (fun row => negb (keeps where_clause table row)) rows,
            length (List.filter (keeps where_clause table) rows)).
Proof.
  induction rows as [|row rows IH]; intros H; simpl; [reflexivity|].
  apply Forall_cons in H as [[b Hb] H]. rewrite (IH H).
  rewrite (qualifies_keeps _ _ _ _ Hb).
  destruct where_clause as [w|]; simpl in *.
  - destruct (_evaluate_condition w table row) as [c|]; [|discriminate].
    simpl in *. injection Hb as ->. destruct b; reflexivity.
  - injection Hb as <-. reflexivity.
Qed.

Lemma delete_rows_kept_do_not_qualify (w : ASTNode) (table : Table)
    (rows rows_to_keep : list Row) (rows_deleted : nat) :
  delete_rows (Some w) table rows = Return (rows_to_keep, rows_deleted) ->
  Forall (fun row => qualifies (Some w) table row = Return false) rows_to_keep.
Proof.
  revert rows_to_keep rows_deleted.
  induction rows as [|row rows IH]; simpl; intros kept n H.
  - injection H as <- <-. constructor.
  - destruct (_evaluate_condition w table row) as [c|] eqn:Ec;
      [|discriminate]. simpl in H.
    apply bind_Return in H as ([kept' n'] & Hrest & H).
    specialize (IH _ _ Hrest).
    destruct (truthy c) eqn:Et; simpl in H; injection H as <- <-.
    + exact IH.
    + constructor; [|exact IH]. rewrite Ec. simpl. rewrite Et. reflexivity.
Qed.

(** X6.  When the WHERE clause evaluates on every row of an existing table
    (or is absent), DELETE succeeds: it removes exactly the rows the scan
    takes (all of them without a WHERE clause), reports how many they
    were, and keeps the other rows in their order; name, title and columns
    of the table and the other tables stay as they are. *)
Theorem delete_removes_qualifying_rows
    (self : Database) (table_name : string) (where_clause : option ASTNode)
    (table : Table) :
  get_table self table_name = Some table ->
  Forall (fun row => exists b, qualifies where_clause table row = Return b)
         (rows table) ->
  execute_query self (DELETE_STMT table_name where_clause)
  = (Return (RTrue (RowsDeleted
                      (length (List.filter (keeps where_clause table)
                                           (rows table))))),
     <[lower table_name :=
        with_rows table
          (List.filter (fun row => negb (keeps where_clause table row))
                       (rows table))]> self).
Proof.
  intros Ht Hq. simpl. unfold _execute_delete.
  rewrite Ht, (delete_rows_filter _ _ _ Hq). reflexivity.
Qed.

Lemma delete_removes_qualifying_rows_witness :
  execute_query example_db (DELETE_STMT "t" (Some where_id_is_1))
  = (Return (RTrue (RowsDeleted
                      (length (List.filter (keeps (Some where_id_is_1)
                                                  example_table)
                                           (rows example_table))))),
     <[lower "t" :=
        with_rows example_table
          (List.filter (fun row => negb (keeps (Some where_id_is_1)
                                               example_table row))
                       (rows example_table))]> example_db).
Proof.
  apply (delete_removes_qualifying_rows example_db "t" (Some where_id_is_1)
           example_table).
  - reflexivity.
  - constructor; [exists true; reflexivity|].
    constructor; [exists false; reflexivity|]. constructor.
Defined.

(** X7.  DELETE is all or nothing: a DELETE that fails, because the table
    is unknown or because the WHERE clause raises on some row, removes no
    row at all and leaves the whole catalog as it was. *)
Theorem delete_failure_removes_nothing
    (self : Database) (table_name : string) (where_clause : option ASTNode)
    (r : outcome result) (self' : Database) :
  execute_query self (DELETE_STMT table_name where_clause) = (r, self') ->
  failed r -> self' = self.
Proof.
  simpl. unfold _execute_delete.
  destruct (get_table self table_name) as [table|];
    [|intros H _; injection H as _ <-; reflexivity].
  destruct (delete_rows where_clause table (rows table)) as [[kept n]|e].
  - intros H F. injection H as <- _. contradiction.
  - intros H _. injection H as _ <-. reflexivity.
Qed.

Lemma delete_failure_removes_nothing_witness : example_db = example_db.
Proof.
  apply (delete_failure_removes_nothing example_db "t"
           (Some where_name_gt_name) (Raise TypeError));
    [reflexivity | exact I].
Defined.

(* ===================================================================== *)
(** ** A WHERE clause that holds on no row *)
(* ===================================================================== *)

Lemma with_rows_same (table : Table) : with_rows table (rows table) = table.
Proof. destruct table. reflexivity. Qed.

Lemma replace_by_itself (self : Database) (table_name : string) (table : Table) :
  get_table self table_name = Some table ->
  <[lower table_name := with_rows table (rows table)]> self = self.
Proof. intros H. rewrite with_rows_same. apply insert_id. exact H. Qed.

Section NoRowQualifies.

Variables (where_clause : option ASTNode) (table : Table).

Lemma select_rows_nowhere (indices : list nat) (rows : list Row) :
  qualifies_nowhere where_clause table rows ->
  select_rows where_clause table indices rows = Return [].
Proof.
  induction 1 as [|row rows Hrow _ IH]; simpl; [reflexivity|].
  rewrite Hrow. exact IH.
Qed.

Lemma update_rows_nowhere (set_clauses : list (nat * value))
    (rows : list Row) (n : nat) :
  qualifies_nowhere where_clause table rows ->
  update_rows where_clause table set_clauses rows n = (rows, Return (inr n)).
Proof.
  induction 1 as [|row rows Hrow _ IH]; simpl; [reflexivity|].
  rewrite Hrow, IH. reflexivity.
Qed.

Lemma delete_rows_nowhere (rows : list Row) :
  qualifies_nowhere where_clause table rows ->
  delete_rows where_clause table rows = Return (rows, 0%nat).
Proof.
  induction 1 as [|row rows Hrow _ IH]; simpl; [reflexivity|].
  rewrite IH. destruct where_clause as [w|]; simpl in *; [|discriminate].
  destruct (_evaluate_condition w table row) as [c|]; [|discriminate].
  simpl in *. injection Hrow as ->. reflexivity.
Qed.

End NoRowQualifies.

(** X8.  When the WHERE clause holds on no row of the table, SELECT returns
    the selected column names and no rows, DELETE reports 0 rows, and
    UPDATE reports 0 rows without ever type-checking its SET values (so it
    succeeds even when a value could not be stored in its column); none of
    them changes the catalog. *)
Theorem where_clause_false_everywhere
    (self : Database) (table_name : string) (table : Table)
    (where_clause : option ASTNode) :
  get_table self table_name = Some table ->
  qualifies_nowhere where_clause table (rows table) ->
  (forall more cols,
      execute_query self (SELECT_STMT (table_name :: more)
                                      (IDENTIFIER "*" :: cols) where_clause)
      = (Return (RRows (map col_name (columns table)) []), self))
  /\ (forall set_nodes set_clauses,
         resolve_set_clauses table table_name set_nodes
         = Return (inr set_clauses) ->
         execute_query self (UPDATE_STMT table_name set_nodes where_clause)
         = (Return (RTrue (RowsUpdated 0)), self))
  /\ execute_query self (DELETE_STMT table_name where_clause)
     = (Return (RTrue (RowsDeleted 0)), self).
Proof.
  intros Ht Hq. repeat split.
  - intros more cols. simpl. unfold _execute_select. rewrite Ht. simpl.
    rewrite (select_rows_nowhere _ _ _ _ Hq). reflexivity.
  - intros set_nodes set_clauses Hres. simpl.
    rewrite (execute_update_unfold _ _ _ _ _ _ Ht Hres).
    rewrite (update_rows_nowhere _ _ _ _ 0 Hq).
    rewrite (replace_by_itself _ _ _ Ht). reflexivity.
  - simpl. unfold _execute_delete.
    rewrite Ht, (delete_rows_nowhere _ _ _ Hq), (replace_by_itself _ _ _ Ht).
    reflexivity.
Qed.

Lemma where_clause_false_everywhere_witness :
  (forall more cols,
      execute_query example_db
                    (SELECT_STMT ("t" :: more) (IDENTIFIER "*" :: cols)
                                 (Some where_name_is_5))
      = (Return (RRows (map col_name (columns example_table)) []), example_db))
  /\ (forall set_nodes set_clauses,
         resolve_set_clauses example_table "t" set_nodes
         = Return (inr set_clauses) ->
         execute_query example_db
                       (UPDATE_STMT "t" set_nodes (Some where_name_is_5))
         = (Return (RTrue (RowsUpdated 0)), example_db))
  /\ execute_query example_db (DELETE_STMT "t" (Some where_name_is_5))
     = (Return (RTrue (RowsDeleted 0)), example_db).
Proof.
  apply (where_clause_false_everywhere example_db "t" example_table
           (Some where_name_is_5)); [reflexivity|].
  repeat constructor.
Defined.

(** X9.  A WHERE clause that is a condition node without an operator
    evaluates to NULL on every row, so it matches nothing: with such a
    clause SELECT returns no rows, and UPDATE and DELETE report 0 rows and
    leave the catalog unchanged. *)
Theorem condition_without_operator_matches_nothing
    (self : Database) (table_name : string) (table : Table)
    (l r : option ASTNode) :
  get_table self table_name = Some table ->
  (forall row, _evaluate_condition (CONDITION l None r) table row
               = Return (PVal VNone))
  /\ (forall more cols,
         execute_query self (SELECT_STMT (table_name :: more)
                                         (IDENTIFIER "*" :: cols)
                                         (Some (CONDITION l None r)))
         = (Return (RRows (map col_name (columns table)) []), self))
  /\ (forall set_nodes set_clauses,
         resolve_set_clauses table table_name set_nodes
         = Return (inr set_clauses) ->
         execute_query self (UPDATE_STMT table_name set_nodes
                                         (Some (CONDITION l None r)))
         = (Return (RTrue (RowsUpdated 0)), self))
  /\ execute_query self (DELETE_STMT table_name (Some (CONDITION l None r)))
     = (Return (RTrue (RowsDeleted 0)), self).
Proof.
  intros Ht. split; [reflexivity|].
  assert (Hq : qualifies_nowhere (Some (CONDITION l None r)) table (rows table))
    by (apply Forall_forall; reflexivity).
  repeat split.
  - intros more cols. simpl. unfold _execute_select. rewrite Ht. simpl.
    rewrite (select_rows_nowhere _ _ _ _ Hq). reflexivity.
  - intros set_nodes set_clauses Hres. simpl.
    rewrite (execute_update_unfold _ _ _ _ _ _ Ht Hres).
    rewrite (update_rows_nowhere _ _ _ _ 0 Hq).
    rewrite (replace_by_itself _ _ _ Ht). reflexivity.
  - simpl. unfold _execute_delete.
    rewrite Ht, (delete_rows_nowhere _ _ _ Hq), (replace_by_itself _ _ _ Ht).
    reflexivity.
Qed.

Lemma condition_without_operator_witness :
  (forall row,
      _evaluate_condition (CONDITION (Some (IDENTIFIER "name")) None None)
                          example_table row
      = Return (PVal VNone))
  /\ (forall more cols,
         execute_query example_db
           (SELECT_STMT ("t" :: more) (IDENTIFIER "*" :: cols)
              (Some (CONDITION (Some (IDENTIFIER "name")) None None)))
         = (Return (RRows (map col_name (columns example_table)) []),
            example_db))
  /\ (forall set_nodes set_clauses,
         resolve_set_clauses example_table "t" set_nodes
         = Return (inr set_clauses) ->
         execute_query example_db
           (UPDATE_STMT "t" set_nodes
              (Some (CONDITION (Some (IDENTIFIER "name")) None None)))
         = (Return (RTrue (RowsUpdated 0)), example_db))
  /\ execute_query example_db
       (DELETE_STMT "t" (Some (CONDITION (Some (IDENTIFIER "name")) None None)))
     = (Return (RTrue (RowsDeleted 0)), example_db).
Proof.
  apply (condition_without_operator_matches_nothing example_db "t"
           example_table).
  reflexivity.
Defined.

(** X10.  DELETE is idempotent and agrees with SELECT: after a DELETE with
    a WHERE clause has succeeded, a SELECT with the same WHERE clause
    finds no row in that table, and a second DELETE with it reports 0
    rows and changes nothing. *)
Theorem delete_then_same_where_finds_nothing
    (self : Database) (table_name : string) (w : ASTNode) (table : Table)
    (n : nat) (self' : Database) :
  get_table self table_name = Some table ->
  execute_query self (DELETE_STMT table_name (Some w))
  = (Return (RTrue (RowsDeleted n)), self') ->
  (forall more cols,
      execute_query self' (SELECT_STMT (table_name :: more)
                                       (IDENTIFIER "*" :: cols) (Some w))
      = (Return (RRows (map col_name (columns table)) []), self'))
  /\ execute_query self' (DELETE_STMT table_name (Some w))
     = (Return (RTrue (RowsDeleted 0)), self').
Proof.
  intros Ht H. simpl in H. unfold _execute_delete in H. rewrite Ht in H.
  destruct (delete_rows (Some w) table (rows table)) as [[kept k]|] eqn:Ed;
    [|discriminate].
  injection H as _ <-.
  apply delete_rows_kept_do_not_qualify in Ed.
  set (table' := with_rows table kept).
  assert (Ht' : get_table (<[lower table_name := table']> self) table_name
                = Some table') by apply lookup_insert_eq.
  assert (Hq : qualifies_nowhere (Some w) table' (rows table')).
  { apply (Forall_impl _ _ _ Ed). intros row Hrow.
    rewrite <- Hrow. apply qualifies_columns. reflexivity. }
  split.
  - intros more cols. simpl. unfold _execute_select. rewrite Ht'. simpl.
    rewrite (select_rows_nowhere _ _ _ _ Hq). reflexivity.
  - simpl. unfold _execute_delete.
    rewrite Ht', (delete_rows_nowhere _ _ _ Hq), (replace_by_itself _ _ _ Ht').
    reflexivity.
Qed.

Lemma delete_then_same_where_witness :
  (forall more cols,
      execute_query
        (<["t" := with_rows example_table [[VInt 2; VNone]]]> example_db)
        (SELECT_STMT ("t" :: more) (IDENTIFIER "*" :: cols)
                     (Some where_id_is_1))
      = (Return (RRows (map col_name (columns example_table)) []),
         <["t" := with_rows example_table [[VInt 2; VNone]]]> example_db))
  /\ execute_query
       (<["t" := with_rows example_table [[VInt 2; VNone]]]> example_db)
       (DELETE_STMT "t" (Some where_id_is_1))
     = (Return (RTrue (RowsDeleted 0)),
        <["t" := with_rows example_table [[VInt 2; VNone]]]> example_db).
Proof.
  apply (delete_then_same_where_finds_nothing example_db "t" where_id_is_1
           example_table 1); reflexivity.
Defined.

(* ===================================================================== *)
(** ** UPDATE: what every run keeps, and what an exception leaves behind *)
(* ===================================================================== *)

Lemma apply_set_clauses_length (cols : list ColumnDef)
    (set_clauses : list (nat * value)) (row : Row) :
  length (fst (apply_set_clauses cols set_clauses row)) = length row.
Proof.
  revert row. induction set_clauses as [|[i v] cls IH]; simpl; intros row.
  - reflexivity.
  - destruct (getitem cols i) as [col|]; [|reflexivity].
    destruct (negb (_validate_type v (col_type col))); [reflexivity|].
    unfold setitem. destruct (i <? length row)%nat; [|reflexivity].
    rewrite IH. apply length_insert.
Qed.

Lemma update_rows_widths (where_clause : option ASTNode) (table : Table)
    (set_clauses : list (nat * value)) (rows : list Row) (n : nat) :
  Forall2 (fun old new => length new = length old) rows
          (fst (update_rows where_clause table set_clauses rows n)).
Proof.
  revert n. induction rows as [|row rows IH]; simpl; intros n.
  - constructor.
  - assert (Hsame : Forall2 (fun old new : Row => length new = length old)
                            rows rows)
      by (apply Forall2_same_length_lookup_2; [reflexivity | congruence]).
    destruct (qualifies where_clause table row) as [[|]|].
    + pose proof (apply_set_clauses_length (columns table) set_clauses row)
        as Hl.
      destruct (apply_set_clauses (columns table) set_clauses row)
        as [row' [[m|]|]]; simpl in Hl.
      * constructor; assumption.
      * specialize (IH (S n)).
        destruct (update_rows where_clause table set_clauses rows (S n)).
        constructor; assumption.
      * constructor; assumption.
    + specialize (IH n).
      destruct (update_rows where_clause table set_clauses rows n).
      constructor; [reflexivity | assumption].
    + constructor; [reflexivity | assumption].
Qed.

(** X11.  However an UPDATE on an existing table ends (success, [False] or
    an exception), it only rewrites cells of that table: the table keeps
    its name, title and columns, it has as many rows as before, every row
    keeps its width, and every other table is untouched. *)
Theorem update_only_rewrites_cells
    (self : Database) (table_name : string) (table : Table)
    (set_nodes : list (ASTNode * ASTNode)) (where_clause : option ASTNode)
    (r : outcome result) (self' : Database) :
  get_table self table_name = Some table ->
  execute_query self (UPDATE_STMT table_name set_nodes where_clause)
  = (r, self') ->
  exists rows',
    self' = <[lower table_name := with_rows table rows']> self
    /\ Forall2 (fun old new => length new = length old) (rows table) rows'.
Proof.
  intros Ht H. simpl in H. unfold _execute_update in H. rewrite Ht in H.
  assert (Hsame : exists rows',
             self = <[lower table_name := with_rows table rows']> self
             /\ Forall2 (fun old new : Row => length new = length old)
                        (rows table) rows').
  { exists (rows table). split.
    - symmetry. exact (replace_by_itself _ _ _ Ht).
    - apply Forall2_same_length_lookup_2; [reflexivity | congruence]. }
  destruct (resolve_set_clauses table table_name set_nodes)
    as [[m|set_clauses]|];
    try (injection H as _ <-; exact Hsame).
  pose proof (update_rows_widths where_clause table set_clauses (rows table) 0)
    as Hw.
  destruct (update_rows where_clause table set_clauses (rows table) 0)
    as [rows' ending]. simpl in Hw.
  exists rows'. split; [|exact Hw].
  destruct ending as [[m|k]|]; injection H as _ <-; reflexivity.
Qed.

Lemma update_only_rewrites_cells_witness :
  exists rows',
    <["t" := with_rows example_table
               [[VInt 1; VStr "Bob"]; [VInt 2; VNone]]]> example_db
    = <[lower "t" := with_rows example_table rows']> example_db
    /\ Forall2 (fun old new => length new = length old)
               (rows example_table) rows'.
Proof.
  apply (update_only_rewrites_cells example_db "t" example_table
           set_name_then_bad_id None
           (Return (RFalse (UpdateTypeMismatch "id" INT))));
    reflexivity.
Defined.

Lemma apply_set_clauses_all (cols : list ColumnDef)
    (set_clauses : list (nat * value)) (row : Row) :
  Forall (passes_validation cols) set_clauses ->
  length row = length cols ->
  apply_set_clauses cols set_clauses row
  = (assign set_clauses row, Return None).
Proof.
  intros Hp. revert row.
  induction Hp as [|[i v] cls [c [Hi Hv]] _ IH]; intros row Hlen; simpl.
  - reflexivity.
  - simpl in Hi, Hv. unfold getitem. rewrite Hi, Hv. simpl.
    rewrite setitem_in_range
      by (rewrite Hlen; apply (lookup_lt_Some _ _ _ Hi)).
    apply IH. rewrite length_insert. exact Hlen.
Qed.

Lemma update_rows_raise (where_clause : option ASTNode) (table : Table)
    (set_clauses : list (nat * value)) (before : list Row) (row : Row)
    (after : list Row) (e : exn) (n : nat) :
  Forall (passes_validation (columns table)) set_clauses ->
  Forall (fun r => length r = length (columns table)
                   /\ exists b, qualifies where_clause table r = Return b)
         before ->
  qualifies where_clause table row = Raise e ->
  update_rows where_clause table set_clauses (before ++ row :: after) n
  = (map (fun r => if keeps where_clause table r
                   then assign set_clauses r else r) before
       ++ row :: after,
     Raise e).
Proof.
  intros Hp Hb Hr. revert n.
  induction Hb as [|r before [Hlen [b Hq]] _ IH]; intros n; simpl.
  - rewrite Hr. reflexivity.
  - rewrite Hq, (qualifies_keeps _ _ _ _ Hq). destruct b.
    + rewrite (apply_set_clauses_all _ _ _ Hp Hlen), IH. reflexivity.
    + rewrite IH. reflexivity.
Qed.

(** X12.  An exception in the middle of an UPDATE scan leaves a partial
    update behind: when the WHERE clause raises on some row, the statement
    raises, and the rows before that row that qualified keep their new
    values while that row and the rows after it are unchanged. *)
Theorem update_exception_keeps_earlier_rows
    (self : Database) (table_name : string) (table : Table)
    (set_nodes : list (ASTNode * ASTNode)) (set_clauses : list (nat * value))
    (where_clause : option ASTNode)
    (before : list Row) (row : Row) (after : list Row) (e : exn) :
  get_table self table_name = Some table ->
  resolve_set_clauses table table_name set_nodes = Return (inr set_clauses) ->
  Forall (passes_validation (columns table)) set_clauses ->
  rows table = before ++ row :: after ->
  Forall (fun r => length r = length (columns table)
                   /\ exists b, qualifies where_clause table r = Return b)
         before ->
  qualifies where_clause table row = Raise e ->
  execute_query self (UPDATE_STMT table_name set_nodes where_clause)
  = (Raise e,
     <[lower table_name :=
        with_rows table
          (map (fun r => if keeps where_clause table r
                         then assign set_clauses r else r) before
             ++ row :: after)]> self).
Proof.
  intros Ht Hres Hp Hrows Hb Hr. simpl.
  rewrite (execute_update_unfold _ _ _ _ _ _ Ht Hres), Hrows.
  rewrite (update_rows_raise _ _ _ _ _ _ _ _ Hp Hb Hr). reflexivity.
Qed.

Lemma update_exception_witness :
  execute_query example_db
    (UPDATE_STMT "t" [(IDENTIFIER "id", LITERAL (VInt 7) INTEGER)]
                 (Some where_name_ge_name))
  = (Raise TypeError,
     <[lower "t" :=
        with_rows example_table
          (map (fun r => if keeps (Some where_name_ge_name) example_table r
                         then assign [(0%nat, VInt 7)] r else r)
               [[VInt 1; VStr "Alice"]]
             ++ [VInt 2; VNone] :: [])]> example_db).
Proof.
  apply (update_exception_keeps_earlier_rows example_db "t" example_table
           [(IDENTIFIER "id", LITERAL (VInt 7) INTEGER)] [(0%nat, VInt 7)]
           (Some where_name_ge_name)
           [[VInt 1; VStr "Alice"]] [VInt 2; VNone] [] TypeError).
  - reflexivity.
  - reflexivity.
  - constructor; [|constructor].
    exists (mkColumnDef "id" INT). split; reflexivity.
  - reflexivity.
  - constructor; [|constructor].
    split; [reflexivity | exists true; reflexivity].
  - reflexivity.
Defined.

(* ===================================================================== *)
(** ** SELECT: projections, and reading back what INSERT stored *)
(* ===================================================================== *)

Lemma filter_keeps_all (table : Table) (rows : list Row) :
  List.filter (keeps None table) rows = rows.
Proof. induction rows as [|row rows IH]; simpl; [|rewrite IH]; reflexivity. Qed.

(** X13.  What INSERT stores, SELECT reads back: after a successful INSERT
    into a table whose rows have the table's width, [SELECT *] without a
    WHERE clause returns the rows there were before, in their order,
    followed by one new row; for a positional INSERT the new row is the
    list of the evaluated VALUES.  The one exception: when a cell of these
    rows is an integer of more than 4300 digits, which INSERT stores like
    any other, the SELECT raises [ValueError] from the line it prints about
    its result and returns nothing. *)
Theorem insert_then_select_star
    (self : Database) (table_name : string) (table : Table)
    (cols values : list ASTNode) (self' : Database) :
  get_table self table_name = Some table ->
  Forall (fun row => length row = length (columns table)) (rows table) ->
  execute_query self (INSERT_STMT table_name cols values)
  = (Return (RTrue RowInserted), self') ->
  exists row,
    (cols = [] -> evaluate_values values = Return row)
    /\ forall more cs,
        execute_query self' (SELECT_STMT (table_name :: more)
                                         (IDENTIFIER "*" :: cs) None)
        = (if debug_print_raises (rows table ++ [row]) then Raise ValueError
           else Return (RRows (map col_name (columns table))
                              (rows table ++ [row])),
           self').
Proof.
  intros Ht Hw H. simpl in H.
  rewrite (execute_insert_unfold _ _ _ _ _ Ht) in H.
  destruct (evaluate_values values) as [vs|] eqn:Ev; [|discriminate].
  assert (Hsel : forall row,
             insert_row self table_name table row
             = (Return (RTrue RowInserted), self') ->
             forall more cs,
               execute_query self' (SELECT_STMT (table_name :: more)
                                                (IDENTIFIER "*" :: cs) None)
               = (if debug_print_raises (rows table ++ [row])
                  then Raise ValueError
                  else Return (RRows (map col_name (columns table))
                                     (rows table ++ [row])), self')).
  { intros row Hrow more cs.
    apply insert_row_success in Hrow as (Hlen & _ & ->).
    simpl. unfold _execute_select, get_table.
    rewrite lookup_insert_eq. simpl.
    rewrite select_rows_all_columns.
    - rewrite filter_keeps_all. reflexivity.
    - apply Forall_app. split; [exact Hw|]. constructor; [exact Hlen|constructor].
    - apply Forall_forall. intros r _. exists true. reflexivity. }
  destruct cols as [|c cols].
  - destruct (negb (length vs =? length (columns table))%nat);
      [discriminate|].
    exists vs. split; [reflexivity | exact (Hsel _ H)].
  - destruct (insert_columns table table_name (c :: cols)) as [m|idxs];
      [discriminate|].
    destruct (negb (length idxs =? length vs)%nat); [discriminate|].
    eexists. split; [discriminate | exact (Hsel _ H)].
Qed.

Lemma insert_then_select_star_witness :
  exists row,
    (@nil ASTNode = [] ->
     evaluate_values [LITERAL (VInt 3) INTEGER; IDENTIFIER "Carol"] = Return row)
    /\ forall more cs,
        execute_query
          (<["t" := with_rows example_table
                      (rows example_table ++ [[VInt 3; VStr "Carol"]])]>
             example_db)
          (SELECT_STMT ("t" :: more) (IDENTIFIER "*" :: cs) None)
        = (if debug_print_raises (rows example_table ++ [row])
           then Raise ValueError
           else Return (RRows (map col_name (columns example_table))
                              (rows example_table ++ [row])),
           <["t" := with_rows example_table
                      (rows example_table ++ [[VInt 3; VStr "Carol"]])]>
             example_db).
Proof.
  apply (insert_then_select_star example_db "t" example_table []
           [LITERAL (VInt 3) INTEGER; IDENTIFIER "Carol"]).
  - reflexivity.
  - repeat constructor.
  - reflexivity.
Defined.

Lemma select_columns_resolved (table : Table) (table_name : string)
    (cols : list ASTNode) (names : list string) (indices : list nat) :
  Forall2 (fun c n => referenced_column c = Some n) cols names ->
  Forall2 (fun n i => get_column_index table n = Some i) names indices ->
  select_columns table table_name cols = Return (inr (indices, names)).
Proof.
  intros Hc. revert indices.
  induction Hc as [|c n cols names Hcn _ IH]; intros indices Hi.
  - apply Forall2_nil_inv_l in Hi as ->. reflexivity.
  - apply Forall2_cons_inv_l in Hi as (i & indices' & Hn & Hi & ->).
    simpl. rewrite (IH _ Hi).
    destruct c as [m| |l op r| |]; try discriminate.
    + injection Hcn as ->. simpl. rewrite Hn. reflexivity.
    + destruct op; try discriminate.
      destruct r as [m| | | |]; try discriminate.
      injection Hcn as ->. simpl. rewrite Hn. reflexivity.
Qed.

Lemma comprehension_getitem_project (indices : list nat) (row : Row) :
  Forall (fun i => (i < length row)%nat) indices ->
  comprehension (getitem row) indices = Return (project indices row).
Proof.
  induction 1 as [|i indices Hi _ IH]; simpl; [reflexivity|].
  unfold getitem at 1. apply lookup_lt_is_Some_2 in Hi as [v Hv].
  rewrite Hv, IH. reflexivity.
Qed.

Lemma select_rows_project (where_clause : option ASTNode) (table : Table)
    (indices : list nat) (n : nat) (rows : list Row) :
  Forall (fun i => (i < n)%nat) indices ->
  Forall (fun row => length row = n) rows ->
  Forall (fun row => exists b, qualifies where_clause table row = Return b)
         rows ->
  select_rows where_clause table indices rows
  = Return (map (project indices)
                (List.filter (keeps where_clause table) rows)).
Proof.
  intros Hi. induction rows as [|row rows IH]; intros Hlen Hq; simpl;
    [reflexivity|].
  apply Forall_cons in Hlen as [Hrow Hlen].
  apply Forall_cons in Hq as [[b Hb] Hq].
  rewrite Hb, (qualifies_keeps _ _ _ _ Hb), (IH Hlen Hq). simpl.
  destruct b; [|reflexivity].
  rewrite comprehension_getitem_project by (rewrite Hrow; exact Hi).
  reflexivity.
Qed.

(** X14.  A SELECT with a list of column references (the first one an
    identifier other than [*]) that all name columns of the table, on a
    table whose rows have the table's width and on each of which the WHERE
    clause evaluates without an exception, returns the names exactly as the
    statement spells them, not as the table declares them, and for every
    row the scan keeps, in storage order, the cells of the referenced
    columns in the order of the list; a column may be listed more than
    once.  The one exception: when one of the cells to return is an integer
    of more than 4300 digits, the statement raises [ValueError] from the
    line it prints about its result. *)
Theorem select_named_columns
    (self : Database) (table_name : string) (more : list string)
    (first : string) (rest : list ASTNode) (where_clause : option ASTNode)
    (table : Table) (names : list string) (indices : list nat) :
  get_table self table_name = Some table ->
  first <> "*" ->
  Forall2 (fun c n => referenced_column c = Some n)
          (IDENTIFIER first :: rest) names ->
  Forall2 (fun n i => get_column_index table n = Some i) names indices ->
  Forall (fun row => length row = length (columns table)) (rows table) ->
  Forall (fun row => exists b, qualifies where_clause table row = Return b)
         (rows table) ->
  _execute_select self (table_name :: more) (IDENTIFIER first :: rest)
                  where_clause
  = if debug_print_raises
         (map (project indices)
              (List.filter (keeps where_clause table) (rows table)))
    then Raise ValueError
    else Return (RRows names
                       (map (project indices)
                            (List.filter (keeps where_clause table)
                                         (rows table)))).
Proof.
  intros Ht Hstar Hn Hi Hw Hq. unfold _execute_select. rewrite Ht.
  cbn [bind data_name].
  apply String.eqb_neq in Hstar. rewrite Hstar.
  rewrite (select_columns_resolved table table_name _ _ _ Hn Hi).
  cbn [bind].
  rewrite (select_rows_project _ _ _ (length (columns table)));
    [reflexivity | | exact Hw | exact Hq].
  apply Forall_forall. intros i Hin.
  apply list_elem_of_lookup in Hin as [k Hk].
  destruct (Forall2_lookup_r _ _ _ _ _ Hi Hk) as (n & _ & Hidx).
  exact (get_column_index_bound _ _ _ Hidx).
Qed.

Lemma select_named_columns_witness :
  _execute_select example_db ("t" :: []) (IDENTIFIER "NAME" :: [IDENTIFIER "Id"])
                  (Some where_id_is_1)
  = if debug_print_raises
         (map (project [1%nat; 0%nat])
              (List.filter (keeps (Some where_id_is_1) example_table)
                           (rows example_table)))
    then Raise ValueError
    else Return (RRows ["NAME"; "Id"]
                       (map (project [1%nat; 0%nat])
                            (List.filter (keeps (Some where_id_is_1)
                                                example_table)
                                         (rows example_table)))).
Proof.
  apply (select_named_columns example_db "t" [] "NAME" [IDENTIFIER "Id"]
           (Some where_id_is_1) example_table).
  - reflexivity.
  - discriminate.
  - repeat constructor.
  - repeat constructor.
  - repeat constructor.
  - constructor; [exists true; reflexivity|].
    constructor; [exists false; reflexivity|]. constructor.
Defined.

Lemma select_columns_qualified (table : Table) (table_name : string)
    (pre : list ASTNode) (q : ASTNode) (n : string) (post : list ASTNode) :
  select_columns table table_name
                 (pre ++ EXPRESSION q DOT (IDENTIFIER n) :: post)
  = select_columns table table_name (pre ++ IDENTIFIER n :: post).
Proof.
  induction pre as [|c pre IH]; simpl; [reflexivity|].
  rewrite IH. reflexivity.
Qed.

(** X15.  In the projection list of a SELECT a qualified reference
    [q.column] that is not in first position is resolved by its column part
    alone, exactly as the bare column would be, whatever the qualifier is.
    In first position it makes the statement raise [KeyError] (the test for
    [*] reads the node's [name], which only an identifier has): so does any
    first entry that is an expression node. *)
Theorem qualified_column_reference
    (self : Database) (table_name : string) (more : list string)
    (where_clause : option ASTNode) :
  (forall first pre q n post,
      _execute_select self (table_name :: more)
        (IDENTIFIER first :: pre ++ EXPRESSION q DOT (IDENTIFIER n) :: post)
        where_clause
      = _execute_select self (table_name :: more)
          (IDENTIFIER first :: pre ++ IDENTIFIER n :: post) where_clause)
  /\ (forall table l op r rest,
         get_table self table_name = Some table ->
         _execute_select self (table_name :: more)
                         (EXPRESSION l op r :: rest) where_clause
         = Raise KeyError).
Proof.
  split.
  - intros first pre q n post. unfold _execute_select.
    destruct (get_table self table_name) as [table|]; [|reflexivity].
    cbn [bind data_name]. rewrite !app_comm_cons.
    rewrite (select_columns_qualified table table_name
               (IDENTIFIER first :: pre)).
    reflexivity.
  - intros table l op r rest Ht. unfold _execute_select. rewrite Ht.
    reflexivity.
Qed.

Lemma qualified_column_reference_witness :
  _execute_select example_db ("t" :: [])
    (EXPRESSION (IDENTIFIER "t") DOT (IDENTIFIER "id") :: []) None
  = Raise KeyError.
Proof.
  apply (proj2 (qualified_column_reference example_db "t" [] None)
           example_table).
  reflexivity.
Defined.

(* ===================================================================== *)
(** ** Conditions *)
(* ===================================================================== *)

Lemma compare_values_equals (left_value right_value : value) :
  compare_values EQUALS left_value right_value
  = Return (PBool (comparable left_value right_value
                   && py_eq left_value right_value))
  /\ compare_values NOT_EQUALS left_value right_value
     = Return (PBool (comparable left_value right_value
                      && negb (py_eq left_value right_value))).
Proof.
  unfold compare_values, comparable.
  destruct (same_type left_value right_value);
    destruct (is_numeric left_value && is_numeric right_value);
    split; reflexivity.
Qed.

(** X16.  [!=] is not the negation of [=]: on operands that pass the type
    guard (same runtime type, or both numeric) [a != b] is true exactly
    when [a = b] is false, but on operands that do not pass it both [a = b]
    and [a != b] are false, while [NOT (a = b)] is true. *)
Theorem equality_and_its_negations
    (l r : ASTNode) (table : Table) (row : Row)
    (left_value right_value : value) :
  _evaluate_expression l (Some table) (Some row) = Return left_value ->
  _evaluate_expression r (Some table) (Some row) = Return right_value ->
  _evaluate_condition (CONDITION (Some l) (Some EQUALS) (Some r)) table row
  = Return (PBool (comparable left_value right_value
                   && py_eq left_value right_value))
  /\ _evaluate_condition (CONDITION (Some l) (Some NOT_EQUALS) (Some r))
                         table row
     = Return (PBool (comparable left_value right_value
                      && negb (py_eq left_value right_value)))
  /\ (forall anything,
         _evaluate_condition
           (CONDITION anything (Some NOT)
                      (Some (CONDITION (Some l) (Some EQUALS) (Some r))))
           table row
         = Return (PBool (negb (comparable left_value right_value
                                && py_eq left_value right_value)))).
Proof.
  intros Hl Hr.
  assert (Heq : _evaluate_condition
                  (CONDITION (Some l) (Some EQUALS) (Some r)) table row
                = Return (PBool (comparable left_value right_value
                                 && py_eq left_value right_value))).
  { rewrite (evaluate_comparison l r EQUALS table row left_value right_value)
      by (discriminate || assumption).
    apply compare_values_equals. }
  split; [exact Heq|]. split.
  - rewrite (evaluate_comparison l r NOT_EQUALS table row
               left_value right_value)
      by (discriminate || assumption).
    apply compare_values_equals.
  - intros anything.
    change (_evaluate_condition
              (CONDITION anything (Some NOT)
                 (Some (CONDITION (Some l) (Some EQUALS) (Some r))))
              table row)
      with (let! right_eval :=
              _evaluate_condition
                (CONDITION (Some l) (Some EQUALS) (Some r)) table row in
            match right_eval with
            | PBool b => Return (PBool (negb b))
            | _ => non_boolean_warning [right_eval]
            end).
    rewrite Heq. reflexivity.
Qed.

Lemma equality_and_its_negations_witness :
  _evaluate_condition where_name_is_5 example_table [VInt 1; VStr "Alice"]
  = Return (PBool (comparable (VStr "Alice") (VInt 5)
                   && py_eq (VStr "Alice") (VInt 5)))
  /\ _evaluate_condition
       (CONDITION (Some (IDENTIFIER "name")) (Some NOT_EQUALS)
                  (Some (LITERAL (VInt 5) INTEGER)))
       example_table [VInt 1; VStr "Alice"]
     = Return (PBool (comparable (VStr "Alice") (VInt 5)
                      && negb (py_eq (VStr "Alice") (VInt 5))))
  /\ (forall anything,
         _evaluate_condition
           (CONDITION anything (Some NOT) (Some where_name_is_5))
           example_table [VInt 1; VStr "Alice"]
         = Return (PBool (negb (comparable (VStr "Alice") (VInt 5)
                                && py_eq (VStr "Alice") (VInt 5))))).
Proof.
  apply (equality_and_its_negations (IDENTIFIER "name")
           (LITERAL (VInt 5) INTEGER)
           example_table [VInt 1; VStr "Alice"]);
    reflexivity.
Defined.

(** X17.  NULL in a comparison: NULL compared with a value that is not NULL
    is false under every comparison operator, [!=] included; [NULL = NULL]
    is true and [NULL != NULL] is false; and ordering NULL against NULL
    ([>], [<], [>=], [<=]) raises [TypeError]. *)
Theorem null_in_comparisons
    (l r : ASTNode) (op : TokenType) (table : Table) (row : Row)
    (left_value right_value : value) :
  op <> AND -> op <> OR -> op <> NOT ->
  _evaluate_expression l (Some table) (Some row) = Return left_value ->
  _evaluate_expression r (Some table) (Some row) = Return right_value ->
  ((left_value = VNone /\ right_value <> VNone)
   \/ (left_value <> VNone /\ right_value = VNone) ->
   _evaluate_condition (CONDITION (Some l) (Some op) (Some r)) table row
   = Return (PBool false))
  /\ (left_value = VNone -> right_value = VNone ->
      _evaluate_condition (CONDITION (Some l) (Some op) (Some r)) table row
      = match op with
        | EQUALS => Return (PBool true)
        | GREATER | LESS | GREATER_EQUALS | LESS_EQUALS => Raise TypeError
        | _ => Return (PBool false)
        end).
Proof.
  intros H1 H2 H3 Hl Hr.
  rewrite (evaluate_comparison _ _ _ _ _ _ _ H1 H2 H3 Hl Hr). split.
  - intros [[-> Hn]|[Hn ->]]; apply compare_values_mismatch;
      destruct right_value || destruct left_value;
      try contradiction; reflexivity.
  - intros -> ->. destruct op; reflexivity.
Qed.

Lemma null_in_comparisons_witness :
  ((VNone = VNone /\ VInt 2 <> VNone) \/ (VNone <> VNone /\ VInt 2 = VNone) ->
   _evaluate_condition
     (CONDITION (Some (IDENTIFIER "name")) (Some NOT_EQUALS)
                (Some (IDENTIFIER "id")))
     example_table [VInt 2; VNone]
   = Return (PBool false))
  /\ (VNone = VNone -> VInt 2 = VNone ->
      _evaluate_condition
        (CONDITION (Some (IDENTIFIER "name")) (Some NOT_EQUALS)
                   (Some (IDENTIFIER "id")))
        example_table [VInt 2; VNone]
      = Return (PBool false)).
Proof.
  apply (null_in_comparisons (IDENTIFIER "name") (IDENTIFIER "id") NOT_EQUALS
           example_table [VInt 2; VNone] VNone (VInt 2));
    (discriminate || reflexivity).
Defined.



(* ===================================================================== *)
(** ** Expressions *)
(* ===================================================================== *)

Lemma float_of_int_raise (z : Z) (x : exn) :
  float_of_int z = Raise x -> x = OverflowError.
Proof.
  unfold float_of_int. destruct (is_infinity _); congruence.
Qed.

Lemma int_true_divide_raise (a b : Z) (x : exn) :
  int_true_divide a b = Raise x -> x = OverflowError.
Proof.
  unfold int_true_divide. destruct (a =? 0); [discriminate|].
  destruct (SFdiv_core_binary prec emax (Z.abs a) 0 (Z.abs b) 0) as [[mz ez] lz].
  destruct (is_infinity _); congruence.
Qed.

Lemma arith_raise (zop : Z -> Z -> Z) (fop : float -> float -> float)
    (v w : value) (x : exn) :
  is_numeric v && is_numeric w = true ->
  arith zop fop v w = Raise x -> x = OverflowError.
Proof.
  destruct v as [|a|f|s], w as [|b|g|t]; simpl; try discriminate; intros _.
  - destruct (float_of_int a) eqn:E; simpl; [discriminate|].
    intros H. injection H as <-. exact (float_of_int_raise _ _ E).
  - destruct (float_of_int b) eqn:E; simpl; [discriminate|].
    intros H. injection H as <-. exact (float_of_int_raise _ _ E).
Qed.

Lemma true_divide_raise (v w : value) (x : exn) :
  is_numeric v && is_numeric w = true ->
  true_divide v w = Raise x -> x = OverflowError.
Proof.
  destruct v as [|a|f|s], w as [|b|g|t]; simpl; try discriminate; intros _.
  - destruct (int_true_divide a b) eqn:E; simpl; [discriminate|].
    intros H. injection H as <-. exact (int_true_divide_raise _ _ _ E).
  - destruct (float_of_int a) eqn:E; simpl; [discriminate|].
    intros H. injection H as <-. exact (float_of_int_raise _ _ E).
  - destruct (float_of_int b) eqn:E; simpl; [discriminate|].
    intros H. injection H as <-. exact (float_of_int_raise _ _ E).
Qed.

(** X19.  On a tree that is not nested deeper than the recursion limit of
    the interpreter allows, evaluating an expression never raises anything
    but [OverflowError] (an integer too large for a float), provided the
    row, when there is one, has the table's width: in particular no
    division by zero, no type error, no bad index and no failure to print
    can escape from an expression. *)
Theorem expression_raises_only_overflow
    (expr : ASTNode) (table : option Table) (row : option Row) (x : exn) :
  (forall t r, table = Some t -> row = Some r ->
               length r = length (columns t)) ->
  _evaluate_expression expr table row = Raise x ->
  x = OverflowError.
Proof.
  intros Hw.
  induction expr as [n|v|l IHl op r IHr|l op r|]; simpl; try discriminate.
  - destruct table as [t|]; [|discriminate].
    destruct row as [[|c cells]|]; try discriminate.
    destruct (get_column_index t n) as [i|] eqn:Ei; [|discriminate].
    apply get_column_index_bound in Ei.
    rewrite <- (Hw t (c :: cells) eq_refl eq_refl) in Ei.
    unfold getitem. apply lookup_lt_is_Some_2 in Ei as [cell ->].
    discriminate.
  - destruct (_evaluate_expression l table row) as [lv|xl]; simpl;
      [|intros H; injection H as <-; apply IHl; reflexivity].
    destruct (decide (op = DOT)).
    + destruct (_evaluate_expression r table row) as [rv|xr]; simpl;
        [|intros H; injection H as <-; apply IHr; reflexivity].
      destruct lv, rv; discriminate.
    + destruct (_evaluate_expression r table row) as [rv|xr]; simpl;
        [|intros H; injection H as <-; apply IHr; reflexivity].
      destruct (is_numeric lv && is_numeric rv) eqn:En.
      * rewrite andb_false_r.
        destruct op; try discriminate; try (apply arith_raise; exact En).
        destruct (equals_zero rv); [discriminate|].
        apply true_divide_raise. exact En.
      * destruct op; simpl; discriminate.
Qed.

Lemma expression_raises_only_overflow_witness :
  OverflowError = OverflowError.
Proof.
  apply (expression_raises_only_overflow
           (EXPRESSION (LITERAL (VFloat (S754_zero false)) FLOAT_LITERAL) PLUS
                       (LITERAL (VInt (2 ^ 1024)) INTEGER))
           None None OverflowError).
  - discriminate.
  - reflexivity.
Defined.

(** X20.  A division never produces an integer: whatever its operands,
    [l / r] evaluates to NULL or to a floating value (so [4 / 2] is [2.0]),
    and therefore a quotient is accepted by an INT, TEXT or DATE column
    only when it is NULL. *)
Theorem division_never_yields_an_integer
    (l r : ASTNode) (table : option Table) (row : option Row) (v : value) :
  _evaluate_expression (EXPRESSION l DIVIDE r) table row = Return v ->
  (v = VNone \/ exists f, v = VFloat f)
  /\ (forall declared, declared <> FLOAT ->
                       _validate_type v declared = true -> v = VNone).
Proof.
  intros H.
  assert (Hv : v = VNone \/ exists f, v = VFloat f).
  { simpl in H.
    destruct (_evaluate_expression l table row) as [lv|]; simpl in H;
      [|discriminate].
    destruct (_evaluate_expression r table row) as [rv|]; simpl in H;
      [|discriminate].
    destruct (negb (is_numeric lv && is_numeric rv));
      [injection H as <-; auto|].
    destruct (equals_zero rv); [injection H as <-; auto|].
    destruct lv as [|a|f|s], rv as [|b|g|t]; simpl in H; try discriminate;
      apply bind_Return in H as (q & _ & H) || idtac;
      injection H as <-; eauto. }
  split; [exact Hv|].
  intros declared Hd Hval. destruct Hv as [->|[f ->]]; [reflexivity|].
  destruct declared; try discriminate. contradiction.
Qed.

Lemma division_never_yields_an_integer_witness :
  (VFloat (S754_finite false 4503599627370496 (-51)) = VNone
   \/ exists f, VFloat (S754_finite false 4503599627370496 (-51)) = VFloat f)
  /\ (forall declared, declared <> FLOAT ->
        _validate_type (VFloat (S754_finite false 4503599627370496 (-51)))
                       declared = true ->
        VFloat (S754_finite false 4503599627370496 (-51)) = VNone).
Proof.
  apply (division_never_yields_an_integer (LITERAL (VInt 4) INTEGER)
           (LITERAL (VInt 2) INTEGER)
           None None).
  reflexivity.
Defined.

(** X21.  A qualified reference [q.column] in an expression, with a
    qualifier that is not itself a column name, evaluates to the cell of
    the column only when that cell is a string; when the cell is a number
    or NULL the reference evaluates to NULL. *)
Theorem qualified_reference_value
    (q n : string) (table : Table) (row : Row) (i : nat) (cell : value) :
  get_column_index table q = None ->
  get_column_index table n = Some i ->
  row !! i = Some cell ->
  _evaluate_expression (EXPRESSION (IDENTIFIER q) DOT (IDENTIFIER n))
                       (Some table) (Some row)
  = Return (match cell with VStr _ => cell | _ => VNone end).
Proof.
  intros Hq Hn Hcell. simpl.
  destruct row as [|c cells]; [destruct i; discriminate|].
  rewrite Hq, Hn. unfold getitem. rewrite Hcell. simpl.
  destruct cell; reflexivity.
Qed.

Lemma qualified_reference_value_witness :
  _evaluate_expression (EXPRESSION (IDENTIFIER "t") DOT (IDENTIFIER "id"))
                       (Some example_table) (Some [VInt 1; VStr "Alice"])
  = Return (match VInt 1 with VStr _ => VInt 1 | _ => VNone end).
Proof.
  apply (qualified_reference_value "t" "id" example_table
           [VInt 1; VStr "Alice"] 0 (VInt 1));
    reflexivity.
Defined.

(** X22.  An expression that mentions no identifier means the same
    everywhere: its evaluation does not depend on the table and the row it
    is evaluated against, so evaluating it once for the statement (as
    INSERT and UPDATE do) or once per row (as a WHERE clause does) gives
    the same result. *)
Theorem identifier_free_is_context_free
    (expr : ASTNode) (table : option Table) (row : option Row) :
  identifier_free expr = true ->
  _evaluate_expression expr table row = _evaluate_expression expr None None.
Proof.
  induction expr as [n|v|l IHl op r IHr|l op r|]; simpl; intros H;
    try reflexivity; try discriminate.
  apply andb_true_iff in H as [Hl Hr]. rewrite (IHl Hl), (IHr Hr).
  reflexivity.
Qed.

Lemma identifier_free_is_context_free_witness :
  _evaluate_expression (EXPRESSION (LITERAL (VInt 2) INTEGER) ASTERISK
                                   (LITERAL (VInt 3) INTEGER))
                       (Some example_table) (Some [VInt 1; VStr "Alice"])
  = _evaluate_expression
      (EXPRESSION (LITERAL (VInt 2) INTEGER) ASTERISK
                  (LITERAL (VInt 3) INTEGER)) None None.
Proof.
  apply (identifier_free_is_context_free
           (EXPRESSION (LITERAL (VInt 2) INTEGER) ASTERISK
                       (LITERAL (VInt 3) INTEGER))).
  reflexivity.
Defined.

(* ===================================================================== *)
(** ** UPDATE twice *)
(* ===================================================================== *)

Lemma assign_lookup (set_clauses : list (nat * value)) (row : Row) (j : nat) :
  assign set_clauses row !! j
  = match last_assigned set_clauses j with
    | Some v => if decide (j < length row)%nat then Some v else None
    | None => row !! j
    end.
Proof.
  revert row. induction set_clauses as [|[i v] cls IH]; intros row; simpl.
  - reflexivity.
  - change (assign ((i, v) :: cls) row) with (assign cls (<[i := v]> row)).
    rewrite IH, length_insert.
    destruct (last_assigned cls j) as [w|]; [reflexivity|].
    destruct (decide (i = j)) as [->|Hne].
    + destruct (decide (j < length row)%nat) as [Hlt|Hge].
      * apply list_lookup_insert_eq. exact Hlt.
      * rewrite list_insert_ge by lia. apply lookup_ge_None. lia.
    + apply list_lookup_insert_ne. exact Hne.
Qed.

Lemma assign_keeps_length (set_clauses : list (nat * value)) (row : Row) :
  length (assign set_clauses row) = length row.
Proof.
  revert row. induction set_clauses as [|[i v] cls IH]; intros row.
  - reflexivity.
  - change (assign ((i, v) :: cls) row) with (assign cls (<[i := v]> row)).
    rewrite IH. apply length_insert.
Qed.

Lemma assign_idempotent (set_clauses : list (nat * value)) (row : Row) :
  assign set_clauses (assign set_clauses row) = assign set_clauses row.
Proof.
  apply list_eq. intros j. rewrite assign_lookup, assign_keeps_length.
  rewrite (assign_lookup set_clauses row j).
  destruct (last_assigned set_clauses j); reflexivity.
Qed.

Lemma resolve_set_clauses_columns (t t' : Table) (table_name : string)
    (set_nodes : list (ASTNode * ASTNode)) :
  columns t = columns t' ->
  resolve_set_clauses t table_name set_nodes
  = resolve_set_clauses t' table_name set_nodes.
Proof.
  intros Hc. induction set_nodes as [|[l r] set_nodes IH]; simpl;
    [reflexivity|].
  destruct l; try reflexivity.
  unfold get_column_index. rewrite Hc, IH. reflexivity.
Qed.

Lemma keeps_columns (where_clause : option ASTNode) (t t' : Table) (row : Row) :
  columns t = columns t' ->
  keeps where_clause t row = keeps where_clause t' row.
Proof.
  intros Hc. destruct where_clause as [w|]; simpl; [|reflexivity].
  rewrite (evaluate_condition_columns t t' row Hc w). reflexivity.
Qed.

(** X23.  UPDATE is idempotent: when an UPDATE succeeds and the same
    statement, run again on the resulting catalog, succeeds too, the second
    run changes nothing (only the reported number of rows may differ). *)
Theorem update_twice_is_update_once
    (self : Database) (table_name : string) (table : Table)
    (set_nodes : list (ASTNode * ASTNode)) (where_clause : option ASTNode)
    (m1 m2 : message) (once twice : Database) :
  get_table self table_name = Some table ->
  execute_query self (UPDATE_STMT table_name set_nodes where_clause)
  = (Return (RTrue m1), once) ->
  execute_query once (UPDATE_STMT table_name set_nodes where_clause)
  = (Return (RTrue m2), twice) ->
  twice = once.
Proof.
  intros Ht H1 H2. simpl in H1, H2.
  unfold _execute_update in H1. rewrite Ht in H1.
  destruct (resolve_set_clauses table table_name set_nodes)
    as [[m|set_clauses]|] eqn:Er; try discriminate.
  destruct (update_rows where_clause table set_clauses (rows table) 0)
    as [rows1 [[m|n1]|]] eqn:Eu1; try discriminate.
  injection H1 as _ <-.
  apply update_rows_success in Eu1 as [-> _].
  set (rows1 := map (fun row => if keeps where_clause table row
                                then assign set_clauses row else row)
                    (rows table)) in *.
  assert (Ht1 : get_table (<[lower table_name := with_rows table rows1]> self)
                          table_name = Some (with_rows table rows1))
    by apply lookup_insert_eq.
  unfold _execute_update in H2. rewrite Ht1 in H2.
  rewrite (resolve_set_clauses_columns (with_rows table rows1) table)
    in H2 by reflexivity.
  rewrite Er in H2.
  destruct (update_rows where_clause (with_rows table rows1) set_clauses
                        (rows (with_rows table rows1)) 0)
    as [rows2 [[m|n2]|]] eqn:Eu2; try discriminate.
  injection H2 as _ <-.
  apply update_rows_success in Eu2 as [-> _].
  rewrite insert_insert_eq. f_equal. unfold with_rows at 1. simpl.
  unfold with_rows. f_equal.
  unfold rows1. rewrite map_map. apply map_ext. intros row.
  rewrite !(keeps_columns where_clause (with_rows table rows1) table)
    by reflexivity.
  destruct (keeps where_clause table row) eqn:Ek.
  - destruct (keeps where_clause table (assign set_clauses row));
      [apply assign_idempotent | reflexivity].
  - rewrite Ek. reflexivity.
Qed.

Lemma update_twice_is_update_once_witness :
  <["t" := with_rows example_table
             [[VInt 1; VStr "Alice"]; [VInt 2; VStr "Bob"]]]> example_db
  = <["t" := with_rows example_table
               [[VInt 1; VStr "Alice"]; [VInt 2; VStr "Bob"]]]> example_db.
Proof.
  apply (update_twice_is_update_once example_db "t" example_table
           [(IDENTIFIER "name", LITERAL (VStr "Bob") STRING)]
           (Some (CONDITION (Some (IDENTIFIER "id")) (Some EQUALS)
                            (Some (LITERAL (VInt 2) INTEGER))))
           (RowsUpdated 1) (RowsUpdated 1));
    reflexivity.
Defined.

(* ===================================================================== *)
(** ** [get_schema] *)
(* ===================================================================== *)

Lemma stored_well_insert_inv (self : Database) (k : string) (t : Table) :
  self !! k = None -> stored_well (<[k := t]> self) ->
  k = lower (name t) /\ stored_well self.
Proof.
  intros Hk Hw. split.
  - apply (Hw k t). apply lookup_insert_eq.
  - intros k' t' Hk'. apply Hw. rewrite lookup_insert_ne; [exact Hk'|].
    intros ->. congruence.
Qed.

Lemma schema_columns_lookup (table : Table) (i : nat) :
  schema_columns table !! i
  = (fun col => mkColumnInfo (col_name col) (token_name (col_type col)) i)
      <$> columns table !! i.
Proof. unfold schema_columns. apply list_lookup_imap. Qed.

(** X24.  In a catalog built by [create_table] (every table stored under
    its lower-cased name) [get_schema] lists exactly the tables of the
    catalog, each under its name as spelled when it was created: looking a
    name up in the schema is case-sensitive, unlike [get_table].  The entry
    of a table has one item per column, in declared order, carrying the
    column's name, the name of its type and its position. *)
Theorem get_schema_lists_tables_by_name (self : Database) :
  stored_well self ->
  (forall n,
      get_schema self !! n
      = match get_table self n with
        | Some t => if decide (name t = n) then Some (schema_columns t)
                    else None
        | None => None
        end)
  /\ (forall t i,
         schema_columns t !! i
         = (fun col => mkColumnInfo (col_name col) (token_name (col_type col)) i)
             <$> columns t !! i).
Proof.
  intros Hw. split; [|exact schema_columns_lookup].
  unfold get_schema, get_table. revert Hw.
  apply (map_fold_weak_ind
           (fun (r : gmap string (list column_info)) (m : Database) =>
              stored_well m ->
              forall n,
                r !! n
                = match m !! lower n with
                  | Some t => if decide (name t = n)
                              then Some (schema_columns t) else None
                  | None => None
                  end)).
  - intros _ n. rewrite !lookup_empty. reflexivity.
  - intros k t m r Hk IH Hw n.
    apply stored_well_insert_inv in Hw as [-> Hw]; [|exact Hk].
    specialize (IH Hw).
    destruct (decide (name t = n)) as [<-|Hne].
    + rewrite !lookup_insert_eq. rewrite decide_True by reflexivity.
      reflexivity.
    + rewrite lookup_insert_ne by exact Hne. rewrite IH.
      destruct (decide (lower (name t) = lower n)) as [He|He].
      * rewrite <- He, lookup_insert_eq, Hk.
        rewrite decide_False by exact Hne. reflexivity.
      * rewrite lookup_insert_ne by exact He. reflexivity.
Qed.

Lemma example_db_stored_well : stored_well example_db.
Proof.
  intros k t Hk. unfold example_db in Hk.
  apply lookup_singleton_Some in Hk as [<- <-].
  split; [reflexivity|]. repeat constructor.
Qed.

Lemma get_schema_witness :
  (forall n,
      get_schema example_db !! n
      = match get_table example_db n with
        | Some t => if decide (name t = n) then Some (schema_columns t)
                    else None
        | None => None
        end)
  /\ (forall t i,
         schema_columns t !! i
         = (fun col => mkColumnInfo (col_name col) (token_name (col_type col)) i)
             <$> columns t !! i).
Proof.
  apply (get_schema_lists_tables_by_name example_db).
  exact example_db_stored_well.
Defined.

(* ===================================================================== *)
(** ** The generator *)
(* ===================================================================== *)


Section GeneratorFacts.

Variable float_repr : float -> string.

Lemma generate_literal_error (val : value) (value_type : TokenType)
    (x : gen_error) :
  generate_literal float_repr val value_type = NotGenerated x ->
  x = GenValueError.
Proof.
  unfold generate_literal.
  destruct value_type; try congruence;
    destruct (py_str float_repr val); congruence.
Qed.

Lemma generate_literal_has_text (val : value) (value_type : TokenType) :
  (literal_has_text val value_type = true ->
   exists sql, generate_literal float_repr val value_type = Generated sql)
  /\ (literal_has_text val value_type = false ->
      generate_literal float_repr val value_type = NotGenerated GenValueError).
Proof.
  unfold literal_has_text, generate_literal, py_str, str_int.
  destruct value_type; try (split; [discriminate | reflexivity]);
    try (split; [eauto | discriminate]);
    destruct val as [|z|f|s]; simpl;
    try (split; [eauto | discriminate]);
    destruct (exceeds_max_str_digits z); simpl;
    (split; [eauto | discriminate]) || (split; [discriminate | reflexivity]).
Qed.

Lemma generate_expression_error (expr : ASTNode) (x : gen_error) :
  generate_expression float_repr expr = NotGenerated x -> x = GenValueError.
Proof.
  induction expr as [n|v vt|l IHl op r IHr|l op r|]; simpl;
    try discriminate; try congruence; [apply generate_literal_error|].
  destruct (generate_expression float_repr l) as [ls|xl]; simpl;
    [|intros H; injection H as <-; apply IHl; reflexivity].
  destruct (generate_expression float_repr r) as [rs|xr]; simpl;
    [discriminate|intros H; injection H as <-; apply IHr; reflexivity].
Qed.

Lemma generate_expression_fails (expr : ASTNode) :
  (exists x, generate_expression float_repr expr = NotGenerated x) ->
  generate_expression float_repr expr = NotGenerated GenValueError.
Proof.
  intros [x H]. rewrite H. f_equal. exact (generate_expression_error _ _ H).
Qed.

Lemma generate_all_error {A : Type} (f : A -> generation string) (l : list A)
    (x : gen_error) :
  (forall a y, f a = NotGenerated y -> y = GenValueError) ->
  generate_all f l = NotGenerated x -> x = GenValueError.
Proof.
  intros Hf. induction l as [|a l IH]; simpl; [discriminate|].
  destruct (f a) as [s|y] eqn:Ea; simpl;
    [|intros H; injection H as <-; exact (Hf _ _ Ea)].
  destruct (generate_all f l) as [ss|y]; simpl; [discriminate|].
  intros H; injection H as <-. apply IH. reflexivity.
Qed.

Lemma generate_column_list_error (cols : list ASTNode) (x : gen_error) :
  generate_column_list float_repr cols = NotGenerated x -> x = GenValueError.
Proof.
  destruct cols as [|c cols]; [discriminate|].
  unfold generate_column_list.
  destruct (generate_all (generate_expression float_repr) (c :: cols))
    as [ss|y] eqn:E; simpl; [discriminate|].
  intros H; injection H as <-.
  exact (generate_all_error _ _ _ generate_expression_error E).
Qed.

End GeneratorFacts.


(** X26.  On a tree that is not nested deeper than the recursion limit of
    the interpreter allows, [generate_expression] produces text exactly
    when the tree is made of identifiers, binary expressions and literals
    that have a text: the [value_type] of the literal is INTEGER,
    FLOAT_LITERAL, STRING or NULL and, unless it is NULL, its value is not
    an integer of more than 4300 digits.  On any other tree (one that
    contains a condition node, say, or a literal of another [value_type])
    it raises [ValueError]. *)
Theorem generate_expression_succeeds_on_expression_trees
    (float_repr : float -> string) (expr : ASTNode) :
  (expression_tree expr = true ->
   exists sql, generate_expression float_repr expr = Generated sql)
  /\ (expression_tree expr = false ->
      generate_expression float_repr expr = NotGenerated GenValueError).
Proof.
  induction expr as [n|v vt|l IHl op r IHr|l op r|]; simpl;
    try (split; [eauto | discriminate]);
    try (split; [discriminate | reflexivity]);
    [apply generate_literal_has_text|].
  destruct IHl as [IHl1 IHl2], IHr as [IHr1 IHr2]. split.
  - intros H. apply andb_true_iff in H as [Hl Hr].
    destruct (IHl1 Hl) as [sl ->], (IHr1 Hr) as [sr ->]. simpl. eauto.
  - intros H. apply andb_false_iff in H as [Hl|Hr].
    + rewrite (IHl2 Hl). reflexivity.
    + rewrite (IHr2 Hr).
      destruct (generate_expression float_repr l) as [sl|x] eqn:El; simpl;
        [reflexivity|].
      f_equal. exact (generate_expression_error _ _ _ El).
Qed.

Lemma generate_expression_witness :
  (exists sql,
      generate_expression (fun _ => "0.0")
        (EXPRESSION (IDENTIFIER "id") PLUS (LITERAL (VInt 1) INTEGER))
      = Generated sql)
  /\ generate_expression (fun _ => "0.0")
       (EXPRESSION where_id_is_1 PLUS (LITERAL (VInt 1) INTEGER))
     = NotGenerated GenValueError
  /\ generate_expression (fun _ => "0.0") (LITERAL (VInt 1) INT)
     = NotGenerated GenValueError.
Proof.
  split; [|split].
  - apply (proj1 (generate_expression_succeeds_on_expression_trees
                    (fun _ => "0.0")
                    (EXPRESSION (IDENTIFIER "id") PLUS
                                (LITERAL (VInt 1) INTEGER)))).
    reflexivity.
  - apply (proj2 (generate_expression_succeeds_on_expression_trees
                    (fun _ => "0.0")
                    (EXPRESSION where_id_is_1 PLUS
                                (LITERAL (VInt 1) INTEGER)))).
    reflexivity.
  - apply (proj2 (generate_expression_succeeds_on_expression_trees
                    (fun _ => "0.0") (LITERAL (VInt 1) INT))).
    reflexivity.
Defined.

(** X27.  The generator cannot write a logical condition: for a WHERE
    clause whose left operand is itself a condition node (an AND or OR of
    two comparisons), [generate_condition] raises [ValueError], and so does
    [generate_sql] on every SELECT, UPDATE and DELETE that carries such a
    clause; on a condition node without a left operand (a NOT) it raises
    [KeyError]. *)
Theorem generator_rejects_logical_conditions
    (float_repr : float -> string) (l r l' r' : option ASTNode)
    (op op' : option TokenType) :
  let where_clause := CONDITION (Some (CONDITION l' op' r')) op r in
  generate_condition float_repr where_clause = NotGenerated GenValueError
  /\ (forall tables cols,
         generate_sql float_repr (SELECT_STMT tables cols (Some where_clause))
         = NotGenerated GenValueError)
  /\ (forall table set_nodes,
         generate_sql float_repr
                      (UPDATE_STMT table set_nodes (Some where_clause))
         = NotGenerated GenValueError)
  /\ (forall table,
         generate_sql float_repr (DELETE_STMT table (Some where_clause))
         = NotGenerated GenValueError)
  /\ generate_condition float_repr (CONDITION None op r)
     = NotGenerated GenKeyError.
Proof.
  intros where_clause.
  split; [reflexivity|]. split; [|split; [|split; [|reflexivity]]].
  - intros tables cols. simpl. unfold generate_select.
    destruct (generate_column_list float_repr cols) as [s|x] eqn:E; simpl.
    + reflexivity.
    + f_equal. exact (generate_column_list_error _ _ _ E).
  - intros table set_nodes. simpl. unfold generate_update.
    match goal with
    | |- gen_bind ?m _ = _ => destruct m as [ss|x] eqn:E; simpl
    end.
    + reflexivity.
    + f_equal. eapply generate_all_error; [|exact E].
      intros [sl sr] y. simpl.
      destruct (generate_expression float_repr sl) as [a|xa] eqn:Ea; simpl;
        [|intros H; injection H as <-;
          exact (generate_expression_error _ _ _ Ea)].
      destruct (generate_expression float_repr sr) as [b|xb] eqn:Eb; simpl;
        [discriminate|].
      intros H; injection H as <-.
      exact (generate_expression_error _ _ _ Eb).
  - intros table. reflexivity.
Qed.

(* ===================================================================== *)
(** ** No statement alters a schema *)
(* ===================================================================== *)

Lemma data_statement_rewrites_rows (self : Database) (ast : Statement) :
  is_data_statement ast = true ->
  snd (execute_query self ast) = self
  \/ exists table_name table rows',
      get_table self table_name = Some table
      /\ snd (execute_query self ast)
         = <[lower table_name := with_rows table rows']> self.
Proof.
  destruct ast as [ts cs w|tn cs vs|tn ss w|tn w|tn cs ti|tn|]; simpl;
    try discriminate; intros _; try (left; reflexivity).
  - unfold _execute_insert.
    destruct (get_table self tn) as [table|] eqn:Ht; [|left; reflexivity].
    assert (Hrow : forall row,
               snd (insert_row self tn table row) = self
               \/ exists table_name table0 rows',
                   get_table self table_name = Some table0
                   /\ snd (insert_row self tn table row)
                      = <[lower table_name := with_rows table0 rows']> self).
    { intros row. unfold insert_row, add_row.
      destruct (negb _); [left; reflexivity|].
      destruct (first_invalid row (columns table)); [left; reflexivity|].
      right. exists tn, table, (rows table ++ [row]). auto. }
    destruct (comprehension _ vs) as [values|]; [|left; reflexivity].
    destruct cs as [|c cs].
    + destruct (negb _); [left; reflexivity | apply Hrow].
    + destruct (insert_columns table tn (c :: cs)); [left; reflexivity|].
      destruct (negb _); [left; reflexivity | apply Hrow].
  - unfold _execute_update.
    destruct (get_table self tn) as [table|] eqn:Ht; [|left; reflexivity].
    destruct (resolve_set_clauses table tn ss) as [[m|cls]|];
      try (left; reflexivity).
    destruct (update_rows w table cls (rows table) 0) as [rows' ending].
    right. exists tn, table, rows'. split; [exact Ht|].
    destruct ending as [[m|k]|]; reflexivity.
  - unfold _execute_delete.
    destruct (get_table self tn) as [table|] eqn:Ht; [|left; reflexivity].
    destruct (delete_rows w table (rows table)) as [[kept k]|];
      [|left; reflexivity].
    right. exists tn, table, kept. auto.
Qed.

(** X28.  No statement alters the schema of a table: a table that is in
    the catalog before and after a statement has the same name, title and
    columns afterwards, whatever the statement is and however it ends.
    SELECT, INSERT, UPDATE and DELETE moreover neither add nor remove a
    table. *)
Theorem statements_keep_schemas (self : Database) (ast : Statement) (n : string) :
  (forall t t',
      get_table self n = Some t ->
      get_table (snd (execute_query self ast)) n = Some t' ->
      same_schema t t')
  /\ (is_data_statement ast = true ->
      (get_table (snd (execute_query self ast)) n = None
       <-> get_table self n = None)).
Proof.
  assert (Hsame : forall t, same_schema t t) by (intros t; repeat split).
  destruct (is_data_statement ast) eqn:Hd.
  - destruct (data_statement_rewrites_rows self ast Hd)
      as [->|(tn & table & rows' & Ht & ->)].
    + split; [|tauto]. intros t t' H1 H2. rewrite H1 in H2.
      injection H2 as <-. apply Hsame.
    + unfold get_table in *.
      destruct (decide (lower tn = lower n)) as [He|He].
      * rewrite <- He, lookup_insert_eq, Ht. split.
        -- intros t t' H1 H2. injection H1 as <-. injection H2 as <-.
           repeat split.
        -- intros _. split; discriminate.
      * rewrite lookup_insert_ne by exact He. split; [|tauto].
        intros t t' H1 H2. rewrite H1 in H2. injection H2 as <-. apply Hsame.
  - split; [|discriminate].
    destruct ast as [ts cs w|tn cs vs|tn ss w|tn w|tn cs ti|tn|];
      try discriminate; simpl.
    + unfold _execute_create.
      destruct (create_columns cs) as [m|defs]; simpl.
      * intros t t' H1 H2. rewrite H1 in H2. injection H2 as <-. apply Hsame.
      * unfold create_table.
        destruct (self !! lower tn) as [existing|] eqn:Ek; simpl.
        -- intros t t' H1 H2. rewrite H1 in H2. injection H2 as <-.
           apply Hsame.
        -- intros t t' H1 H2. unfold get_table in *.
           rewrite lookup_insert_ne in H2 by congruence.
           rewrite H1 in H2. injection H2 as <-. apply Hsame.
    + unfold _execute_drop, drop_table.
      destruct (self !! lower tn) as [existing|] eqn:Ek; simpl.
      * intros t t' H1 H2. unfold get_table in *.
        apply lookup_delete_Some in H2 as [_ H2].
        rewrite H1 in H2. injection H2 as <-. apply Hsame.
      * intros t t' H1 H2. rewrite H1 in H2. injection H2 as <-. apply Hsame.
Qed.

Lemma statements_keep_schemas_witness :
  (forall t t',
      get_table example_db "T" = Some t ->
      get_table (snd (execute_query example_db
                        (UPDATE_STMT "t" set_name_then_bad_id None)))
                "T" = Some t' ->
      same_schema t t')
  /\ (is_data_statement (UPDATE_STMT "t" set_name_then_bad_id None) = true ->
      (get_table (snd (execute_query example_db
                         (UPDATE_STMT "t" set_name_then_bad_id None)))
                 "T" = None
       <-> get_table example_db "T" = None)).
Proof.
  exact (statements_keep_schemas example_db
           (UPDATE_STMT "t" set_name_then_bad_id None) "T").
Defined.

(* ===================================================================== *)
(** ** Comparisons seen from the other side *)
(* ===================================================================== *)

Lemma SFcompare_antisym (f g : float) :
  SFcompare g f = option_map CompOpp (SFcompare f g).
Proof.
  destruct f as [s|s| |s m e], g as [s'|s'| |s' m' e']; simpl;
    try reflexivity;
    try (destruct s; reflexivity);
    try (destruct s'; reflexivity);
    try (destruct s, s'; reflexivity).
  destruct s, s'; simpl; try reflexivity;
    rewrite (Z.compare_antisym e e'); destruct (e ?= e'); simpl;
    try reflexivity;
    change (Pos.compare_cont Eq m' m) with (Pos.compare m' m);
    change (Pos.compare_cont Eq m m') with (Pos.compare m m');
    rewrite (Pos.compare_antisym m m');
    destruct (m ?= m')%positive; reflexivity.
Qed.

Lemma CompOpp_twice (c : option comparison) :
  option_map CompOpp (option_map CompOpp c) = c.
Proof. destruct c as [[| |]|]; reflexivity. Qed.

Lemma py_compare_antisym (v w : value) :
  py_compare w v
  = (let! c := py_compare v w in Return (option_map CompOpp c)).
Proof.
  destruct v as [|a|f|s], w as [|b|g|t]; simpl; try reflexivity.
  - rewrite (Z.compare_antisym a b). reflexivity.
  - rewrite CompOpp_twice. reflexivity.
  - rewrite SFcompare_antisym. reflexivity.
  - rewrite (String.compare_antisym t s). reflexivity.
Qed.

Lemma py_eq_sym (v w : value) : py_eq w v = py_eq v w.
Proof.
  destruct v as [|a|f|s], w as [|b|g|t]; simpl; try reflexivity.
  - apply Z.eqb_sym.
  - unfold SFeqb. rewrite SFcompare_antisym.
    destruct (SFcompare f g) as [[| |]|]; reflexivity.
  - apply String.eqb_sym.
Qed.

Lemma compare_values_mirror (v w : value) :
  compare_values GREATER v w = compare_values LESS w v
  /\ compare_values GREATER_EQUALS v w = compare_values LESS_EQUALS w v
  /\ compare_values EQUALS v w = compare_values EQUALS w v
  /\ compare_values NOT_EQUALS v w = compare_values NOT_EQUALS w v.
Proof.
  unfold compare_values.
  assert (Hs : same_type w v = same_type v w) by (destruct v, w; reflexivity).
  rewrite Hs, (andb_comm (is_numeric w)), (py_eq_sym v w).
  destruct (negb (same_type v w) && negb (is_numeric v && is_numeric w));
    [repeat split; reflexivity|].
  rewrite (py_compare_antisym v w).
  destruct (py_compare v w) as [[[| |]|]|]; repeat split; reflexivity.
Qed.

(** X29.  Comparisons can be read from either side: [a > b] evaluates
    exactly as [b < a] does, [a >= b] as [b <= a], and [=] and [!=] are
    symmetric, for operands of every type, including the cases that are
    false for mismatched types and the exception for two NULL operands. *)
Theorem comparisons_mirror
    (l r : ASTNode) (table : Table) (row : Row) (left_value right_value : value) :
  _evaluate_expression l (Some table) (Some row) = Return left_value ->
  _evaluate_expression r (Some table) (Some row) = Return right_value ->
  _evaluate_condition (CONDITION (Some l) (Some GREATER) (Some r)) table row
  = _evaluate_condition (CONDITION (Some r) (Some LESS) (Some l)) table row
  /\ _evaluate_condition (CONDITION (Some l) (Some GREATER_EQUALS) (Some r))
                         table row
     = _evaluate_condition (CONDITION (Some r) (Some LESS_EQUALS) (Some l))
                           table row
  /\ _evaluate_condition (CONDITION (Some l) (Some EQUALS) (Some r)) table row
     = _evaluate_condition (CONDITION (Some r) (Some EQUALS) (Some l)) table row
  /\ _evaluate_condition (CONDITION (Some l) (Some NOT_EQUALS) (Some r))
                         table row
     = _evaluate_condition (CONDITION (Some r) (Some NOT_EQUALS) (Some l))
                           table row.
Proof.
  intros Hl Hr.
  rewrite !(evaluate_comparison l r _ table row left_value right_value)
    by (discriminate || assumption).
  rewrite !(evaluate_comparison r l _ table row right_value left_value)
    by (discriminate || assumption).
  apply compare_values_mirror.
Qed.

Lemma comparisons_mirror_witness :
  _evaluate_condition
    (CONDITION (Some (IDENTIFIER "id")) (Some GREATER)
               (Some (LITERAL (VFloat (S754_finite false 3 (-1))) FLOAT_LITERAL)))
    example_table [VInt 2; VNone]
  = _evaluate_condition
      (CONDITION (Some (LITERAL (VFloat (S754_finite false 3 (-1))) FLOAT_LITERAL))
                 (Some LESS) (Some (IDENTIFIER "id")))
      example_table [VInt 2; VNone].
Proof.
  apply (proj1 (comparisons_mirror (IDENTIFIER "id")
                  (LITERAL (VFloat (S754_finite false 3 (-1))) FLOAT_LITERAL)
                  example_table [VInt 2; VNone]
                  (VInt 2) (VFloat (S754_finite false 3 (-1)))
                  eq_refl eq_refl)).
Defined.

(* ===================================================================== *)
(** ** [print_table] *)
(* ===================================================================== *)

Lemma string_length_app (a b : string) :
  String.length (a +:+ b) = (String.length a + String.length b)%nat.
Proof.
  induction a as [|x a IH]; [reflexivity|].
  change (S (String.length (a +:+ b))
          = S (String.length a + String.length b)).
  rewrite IH. reflexivity.
Qed.

Lemma repeat_string_length (k : nat) :
  String.length (repeat_string "-" k) = k.
Proof.
  induction k as [|k IH]; [reflexivity|].
  change (S (String.length (repeat_string "-" k)) = S k).
  rewrite IH. reflexivity.
Qed.

Lemma sum_of_lengths_nonneg (header : list string) :
  0 <= fold_right Z.add 0 (map (fun h => Z.of_nat (String.length h)) header).
Proof. induction header as [|h header IH]; simpl; lia. Qed.

Lemma concat_bar_length (header : list string) :
  Z.of_nat (String.length (String.concat " | " header))
  = Z.max 0 (fold_right Z.add 0
                        (map (fun h => Z.of_nat (String.length h)) header)
             + 3 * (Z.of_nat (length header) - 1)).
Proof.
  induction header as [|h header IH]; [reflexivity|].
  destruct header as [|h' header].
  - simpl String.concat. simpl fold_right. simpl length. lia.
  - change (String.concat " | " (h :: h' :: header))
      with (h +:+ " | " +:+ String.concat " | " (h' :: header)).
    rewrite !string_length_app, !Nat2Z.inj_add, IH.
    change (Z.of_nat (String.length " | ")) with 3.
    pose proof (sum_of_lengths_nonneg (h' :: header)) as Hpos.
    change (fold_right Z.add 0
              (map (fun h0 => Z.of_nat (String.length h0)) (h :: h' :: header)))
      with (Z.of_nat (String.length h)
            + fold_right Z.add 0
                (map (fun h0 => Z.of_nat (String.length h0)) (h' :: header))).
    change (length (h :: h' :: header)) with (S (length (h' :: header))).
    change (length (h' :: header)) with (S (length header)) in *.
    lia.
Qed.

Lemma comprehension_over_cells {A B : Type} (g : A -> outcome B)
    (row : list A) :
  comprehension (fun i => let! cell := getitem row i in g cell)
                (seq 0 (length row))
  = comprehension g row.
Proof.
  assert (H : forall pre l,
             comprehension (fun i => let! cell := getitem (pre ++ l) i in g cell)
                           (seq (length pre) (length l))
             = comprehension g l).
  { intros pre l. revert pre. induction l as [|a l IH]; intros pre; simpl;
      [reflexivity|].
    unfold getitem at 1.
    rewrite lookup_app_r, Nat.sub_diag by lia. simpl.
    replace (pre ++ a :: l) with ((pre ++ [a]) ++ l)
      by (rewrite <- app_assoc; reflexivity).
    replace (S (length pre)) with (length (pre ++ [a]))
      by (rewrite length_app; simpl; lia).
    rewrite IH. reflexivity. }
  exact (H [] row).
Qed.

Lemma show_cell_cases (float_repr : float -> string) (v : value) :
  (str_raises v = false /\ exists cell, show_cell float_repr v = Return cell)
  \/ (str_raises v = true /\ show_cell float_repr v = Raise ValueError).
Proof.
  destruct v as [|z|f|s]; simpl; eauto.
  unfold str_int. destruct (exceeds_max_str_digits z); eauto.
Qed.

(** The cells of a row are shown one after the other: all of them when
    none holds an integer that is too long, otherwise none. *)
Lemma show_cells_cases (float_repr : float -> string) (row : Row) :
  (Forall (fun v => str_raises v = false) row
   /\ exists cells,
        comprehension (show_cell float_repr) row = Return cells
        /\ Forall2 (fun v cell => show_cell float_repr v = Return cell)
                   row cells)
  \/ (Exists (fun v => str_raises v = true) row
      /\ comprehension (show_cell float_repr) row = Raise ValueError).
Proof.
  induction row as [|v row IH]; simpl.
  - left. split; [constructor|]. exists []. split; [reflexivity | constructor].
  - destruct (show_cell_cases float_repr v) as [[Hv [cell Ec]]|[Hv Ec]];
      rewrite Ec; simpl.
    + destruct IH as [[Hrow (cells & E & Hcells)]|[Hrow E]]; rewrite E; simpl.
      * left. split; [constructor; assumption|].
        exists (cell :: cells). split; [reflexivity|].
        constructor; assumption.
      * right. split; [apply Exists_cons_tl; exact Hrow | reflexivity].
    + right. split; [apply Exists_cons_hd; exact Hv | reflexivity].
Qed.

Lemma print_rows_all (float_repr : float -> string) (n : nat)
    (rows : list Row) :
  Forall (fun row => length row = n) rows ->
  Forall (Forall (fun v => str_raises v = false)) rows ->
  exists lines,
    print_rows float_repr (seq 0 n) rows = (lines, Return tt)
    /\ Forall2 (fun row line =>
                  exists cells,
                    Forall2 (fun v cell => show_cell float_repr v = Return cell)
                            row cells
                    /\ line = String.concat " | " cells)
               rows lines.
Proof.
  induction 1 as [|row rows Hrow _ IH]; intros Hp; simpl.
  - exists []. split; [reflexivity | constructor].
  - apply Forall_cons in Hp as [Hp Hps].
    destruct (IH Hps) as (lines & E & Hlines).
    destruct (show_cells_cases float_repr row)
      as [[_ (cells & Ec & Hcells)]|[Hex _]].
    + exists (String.concat " | " cells :: lines). split.
      * rewrite <- Hrow at 1. rewrite comprehension_over_cells, Ec, E.
        reflexivity.
      * constructor; [|exact Hlines].
        exists cells. split; [exact Hcells | reflexivity].
    + exfalso. apply Exists_exists in Hex as (v & Hin & Hv).
      rewrite (proj1 (Forall_forall _ _) Hp v Hin) in Hv. discriminate.
Qed.

Lemma print_rows_raises (float_repr : float -> string) (n : nat)
    (rows : list Row) :
  Forall (fun row => length row = n) rows ->
  Exists (Exists (fun v => str_raises v = true)) rows ->
  snd (print_rows float_repr (seq 0 n) rows) = Raise ValueError.
Proof.
  induction 1 as [|row rows Hrow _ IH]; intros Hex; simpl.
  - apply Exists_nil in Hex. contradiction.
  - rewrite <- Hrow at 1. rewrite comprehension_over_cells.
    destruct (show_cells_cases float_repr row)
      as [[Hall (cells & Ec & _)]|[_ Ec]]; rewrite Ec; [|reflexivity].
    apply Exists_cons in Hex as [Hex|Hex].
    + exfalso. apply Exists_exists in Hex as (v & Hin & Hv).
      rewrite (proj1 (Forall_forall _ _) Hall v Hin) in Hv. discriminate.
    + specialize (IH Hex).
      destruct (print_rows float_repr (seq 0 n) rows). exact IH.
Qed.

Lemma header_all_columns (cols : list ColumnDef) :
  comprehension (fun i => let! col := getitem cols i in Return (col_name col))
                (seq 0 (length cols))
  = Return (map col_name cols).
Proof.
  assert (H : forall pre l,
             comprehension (fun i => let! col := getitem (pre ++ l) i in
                                     Return (col_name col))
                           (seq (length pre) (length l))
             = Return (map col_name l)).
  { intros pre l. revert pre. induction l as [|a l IH]; intros pre; simpl;
      [reflexivity|].
    unfold getitem at 1.
    rewrite lookup_app_r, Nat.sub_diag by lia. simpl.
    replace (pre ++ a :: l) with ((pre ++ [a]) ++ l)
      by (rewrite <- app_assoc; reflexivity).
    replace (S (length pre)) with (length (pre ++ [a]))
      by (rewrite length_app; simpl; lia).
    rewrite IH. reflexivity. }
  exact (H [] cols).
Qed.

(** X30.  [print_table] draws the rule under the header exactly as long as
    the header line, whatever columns are asked for (an empty header gives
    an empty rule).  Called without a column list on a table whose rows
    have the table's width, it prints the heading, the names of all
    columns, the rule and one line per row, NULL cells shown as [NULL],
    and returns without an exception, as long as no cell is an integer of
    more than 4300 digits; when some cell is, it raises [ValueError]. *)
Theorem print_table_rule_matches_header
    (float_repr : float -> string) (self : Table) :
  (forall cols heading header rule lines ending,
      print_table float_repr self cols
      = (heading :: header :: rule :: lines, ending) ->
      String.length rule = String.length header)
  /\ show_cell float_repr VNone = Return "NULL"
  /\ (Forall (fun row => length row = length (columns self)) (rows self) ->
      (Forall (Forall (fun v => str_raises v = false)) (rows self) ->
       exists heading rule lines,
         print_table float_repr self None
         = (heading
              :: String.concat " | " (map col_name (columns self))
              :: rule :: lines,
            Return tt)
         /\ Forall2 (fun row line =>
                       exists cells,
                         Forall2 (fun v cell =>
                                    show_cell float_repr v = Return cell)
                                 row cells
                         /\ line = String.concat " | " cells)
                    (rows self) lines)
      /\ (Exists (Exists (fun v => str_raises v = true)) (rows self) ->
          snd (print_table float_repr self None) = Raise ValueError)).
Proof.
  split; [|split; [reflexivity|]].
  - intros cols heading header rule lines ending. unfold print_table.
    destruct (comprehension _ _) as [names|e]; [|discriminate].
    destruct (print_rows float_repr _ (rows self)) as [printed o].
    intros H. injection H as _ <- <- _ _.
    rewrite repeat_string_length. apply Nat2Z.inj.
    rewrite concat_bar_length. lia.
  - intros Hw. split.
    + intros Hp. unfold print_table. rewrite header_all_columns.
      destruct (print_rows_all float_repr _ _ Hw Hp) as (lines & -> & Hlines).
      eexists _, _, lines. split; [reflexivity | exact Hlines].
    + intros Hex. unfold print_table. rewrite header_all_columns.
      pose proof (print_rows_raises float_repr _ _ Hw Hex) as E.
      destruct (print_rows float_repr _ (rows self)) as [lines ending].
      exact E.
Qed.

Lemma print_table_witness :
  exists heading rule lines,
    print_table (fun _ => "0.0") example_table None
    = (heading
         :: String.concat " | " (map col_name (columns example_table))
         :: rule :: lines,
       Return tt)
    /\ Forall2 (fun row line =>
                  exists cells,
                    Forall2 (fun v cell =>
                               show_cell (fun _ => "0.0") v = Return cell)
                            row cells
                    /\ line = String.concat " | " cells)
               (rows example_table) lines.
Proof.
  apply (proj1 (proj2 (proj2 (print_table_rule_matches_header
                                (fun _ => "0.0") example_table))
                 ltac:(repeat constructor))).
  repeat constructor.
Defined.
